(** * Goal / task orchestration core: store, scheduler, executor, daemon, decomposer

    A shallow embedding of the TypeScript sources

      - goals/store.ts       (class GoalStore, over the SQLite tables goals,
                              tasks and audit_events created in memory/store.ts)
      - goals/executor.ts    (class TaskExecutor)
      - daemon/service.ts    (class DaemonService)
      - goals/decomposer.ts  (class GoalDecomposer)

    The tables are lists of rows in rowid order; an SQL UPDATE ... WHERE is a
    map over the rows, SELECT ... WHERE id = ? is the first matching row.
    Every read of datetime('now') reads the [clock] component of the state;
    no operation moves the clock, time passes by [with_clock]. *)

From Stdlib Require Import QArith.
From stdpp Require Import prelude strings pretty gmap sorting.

Set Warnings "-register-all".

Local Open Scope string_scope.
Local Open Scope Z_scope.

(** ** Data model *)

(** JSON values, as produced by JSON.parse and stored in the TEXT columns
    input and metadata.  Numbers are the integers. *)
Inductive Json : Type :=
  | JNull
  | JBool (b : bool)
  | JNum (n : Z)
  | JStr (s : string)
  | JArr (items : list Json)
  | JObj (fields : list (string * Json)).

(** A DATETIME column holds NULL or the text that datetime('now') returned,
    which is never the empty string: a clock reading, and the JavaScript
    truthiness of the column is [is_Some]. *)
Definition datetime : Type := nat.

Module GoalStatus.
Inductive t : Set := active | paused | completed | failed | cancelled.

Definition to_string (s : t) : string :=
  match s with
  | active => "active"
  | paused => "paused"
  | completed => "completed"
  | failed => "failed"
  | cancelled => "cancelled"
  end.

Definition eqb (a b : t) : bool :=
  match a, b with
  | active, active | paused, paused | completed, completed
  | failed, failed | cancelled, cancelled => true
  | _, _ => false
  end.
End GoalStatus.

Module TaskStatus.
Inductive t : Set :=
  pending | queued | running | completed | failed | blocked | cancelled.

Definition eqb (a b : t) : bool :=
  match a, b with
  | pending, pending | queued, queued | running, running
  | completed, completed | failed, failed | blocked, blocked
  | cancelled, cancelled => true
  | _, _ => false
  end.
End TaskStatus.

Module Goal.
Record t : Type := mk {
  id : Z;
  title : string;
  description : option string;
  status : GoalStatus.t;
  priority : Z;
  created_at : datetime;
  updated_at : datetime;
  deadline : option string;
  parent_goal_id : option Z;
  progress : Q;
  metadata : Json
}.

Definition set_status (s : GoalStatus.t) (g : t) : t :=
  mk (id g) (title g) (description g) s (priority g) (created_at g)
     (updated_at g) (deadline g) (parent_goal_id g) (progress g) (metadata g).

Definition set_progress (p : Q) (g : t) : t :=
  mk (id g) (title g) (description g) (status g) (priority g) (created_at g)
     (updated_at g) (deadline g) (parent_goal_id g) p (metadata g).

Definition set_updated_at (d : datetime) (g : t) : t :=
  mk (id g) (title g) (description g) (status g) (priority g) (created_at g)
     d (deadline g) (parent_goal_id g) (progress g) (metadata g).
End Goal.

Module Task.
Record t : Type := mk {
  id : Z;
  goal_id : Z;
  title : string;
  description : option string;
  status : TaskStatus.t;
  skill : option string;
  input : Json;
  output : option string;
  depends_on : list Z;
  scheduled_at : option string;
  started_at : option datetime;
  completed_at : option datetime;
  retry_count : Z;
  max_retries : Z;
  error : option string;
  requires_approval : bool;
  approved_at : option datetime;
  created_at : datetime
}.

Definition set_status (s : TaskStatus.t) (r : t) : t :=
  mk (id r) (goal_id r) (title r) (description r) s (skill r) (input r)
     (output r) (depends_on r) (scheduled_at r) (started_at r)
     (completed_at r) (retry_count r) (max_retries r) (error r)
     (requires_approval r) (approved_at r) (created_at r).

Definition set_output (o : option string) (r : t) : t :=
  mk (id r) (goal_id r) (title r) (description r) (status r) (skill r)
     (input r) o (depends_on r) (scheduled_at r) (started_at r)
     (completed_at r) (retry_count r) (max_retries r) (error r)
     (requires_approval r) (approved_at r) (created_at r).

Definition set_started_at (d : option datetime) (r : t) : t :=
  mk (id r) (goal_id r) (title r) (description r) (status r) (skill r)
     (input r) (output r) (depends_on r) (scheduled_at r) d
     (completed_at r) (retry_count r) (max_retries r) (error r)
     (requires_approval r) (approved_at r) (created_at r).

Definition set_completed_at (d : option datetime) (r : t) : t :=
  mk (id r) (goal_id r) (title r) (description r) (status r) (skill r)
     (input r) (output r) (depends_on r) (scheduled_at r) (started_at r)
     d (retry_count r) (max_retries r) (error r)
     (requires_approval r) (approved_at r) (created_at r).

Definition set_retry_count (n : Z) (r : t) : t :=
  mk (id r) (goal_id r) (title r) (description r) (status r) (skill r)
     (input r) (output r) (depends_on r) (scheduled_at r) (started_at r)
     (completed_at r) n (max_retries r) (error r)
     (requires_approval r) (approved_at r) (created_at r).

Definition set_error (e : option string) (r : t) : t :=
  mk (id r) (goal_id r) (title r) (description r) (status r) (skill r)
     (input r) (output r) (depends_on r) (scheduled_at r) (started_at r)
     (completed_at r) (retry_count r) (max_retries r) e
     (requires_approval r) (approved_at r) (created_at r).

Definition set_approved_at (d : option datetime) (r : t) : t :=
  mk (id r) (goal_id r) (title r) (description r) (status r) (skill r)
     (input r) (output r) (depends_on r) (scheduled_at r) (started_at r)
     (completed_at r) (retry_count r) (max_retries r) (error r)
     (requires_approval r) d (created_at r).
End Task.

(** A row of audit_events (the rowid is the position in the list). *)
Record AuditEvent : Type := mkAudit {
  event_type : string;
  entity_type : string;
  entity_id : Z;
  action : string;
  details : string;
  audit_created_at : datetime
}.

(** A row of the memories table, as written by MemoryStore.save. *)
Record Memory : Type := mkMemory {
  mem_id : Z;
  mem_content : string;
  mem_category : string;
  mem_source : string;
  mem_tags : list string;
  mem_created_at : datetime
}.

(** The database shared by MemoryStore and GoalStore, the AUTOINCREMENT
    counters of its tables (the largest rowid ever handed out), and the
    wall clock that datetime('now') reads. *)
Record Store : Type := mkStore {
  goals : list Goal.t;
  tasks : list Task.t;
  audit_events : list AuditEvent;
  memories : list Memory;
  goals_seq : Z;
  tasks_seq : Z;
  memories_seq : Z;
  clock : datetime
}.

Definition with_goals (gs : list Goal.t) (st : Store) : Store :=
  mkStore gs (tasks st) (audit_events st) (memories st)
          (goals_seq st) (tasks_seq st) (memories_seq st) (clock st).

Definition with_tasks (ts : list Task.t) (st : Store) : Store :=
  mkStore (goals st) ts (audit_events st) (memories st)
          (goals_seq st) (tasks_seq st) (memories_seq st) (clock st).

Definition with_audit_events (es : list AuditEvent) (st : Store) : Store :=
  mkStore (goals st) (tasks st) es (memories st)
          (goals_seq st) (tasks_seq st) (memories_seq st) (clock st).

(** The clock moves on its own between two statements. *)
Definition with_clock (c : datetime) (st : Store) : Store :=
  mkStore (goals st) (tasks st) (audit_events st) (memories st)
          (goals_seq st) (tasks_seq st) (memories_seq st) c.

(** The outcome of a call that may throw: the value it returns or the
    message of the exception, with the database as the call left it. *)
Inductive Result (A : Type) : Type :=
  | Ok (a : A) (st : Store)
  | Throws (message : string) (st : Store).
Arguments Ok {A} a st.
Arguments Throws {A} message st.

Definition result_store {A : Type} (r : Result A) : Store :=
  match r with Ok _ st => st | Throws _ st => st end.

Definition result_value {A : Type} (r : Result A) : option A :=
  match r with Ok a _ => Some a | Throws _ _ => None end.

(** UPDATE table SET ... WHERE p: the rows that satisfy [p] are rewritten by
    [f]; [sql_changes] is the number of rows the statement touched. *)
Definition sql_update {R : Type} (p : R → bool) (f : R → R) (rows : list R) : list R :=
  map (λ r, if p r then f r else r) rows.

Definition sql_changes {R : Type} (p : R → bool) (rows : list R) : nat :=
  length (List.filter p rows).

(** DELETE FROM table WHERE p. *)
Definition sql_delete {R : Type} (p : R → bool) (rows : list R) : list R :=
  List.filter (λ r, negb (p r)) rows.

(** ** GoalStore (goals/store.ts) *)

Module GoalStore.

(** logAudit: INSERT INTO audit_events; the action column repeats the
    event type. *)
Definition logAudit (eventType entityType : string) (entityId : Z)
    (details : string) (st : Store) : Store :=
  with_audit_events
    (audit_events st ++
       [mkAudit eventType entityType entityId eventType details (clock st)])
    st.

Definition getGoal (id : Z) (st : Store) : option Goal.t :=
  find (λ g, bool_decide (Goal.id g = id)) (goals st).

Definition getTask (id : Z) (st : Store) : option Task.t :=
  find (λ r, bool_decide (Task.id r = id)) (tasks st).

Record AddGoalOptions : Type := mkAddGoalOptions {
  go_description : option string;
  go_priority : option Z;
  go_deadline : option string;
  go_parentGoalId : option Z
}.

Definition noGoalOptions : AddGoalOptions :=
  mkAddGoalOptions None None None None.

(** addGoal.  The INSERT throws a SqliteError, and leaves the database
    as it was, when a constraint of the goals table fails:
    CHECK(priority BETWEEN 1 AND 10), or the foreign key
    parent_goal_id REFERENCES goals(id) (the driver enforces foreign keys,
    as the cascade that removeGoal documents requires).  The foreign key is
    checked when the statement ends, against the table that already holds
    the new row: a goal may name as its parent the id it is about to get.
    Priorities are the integers; a priority that is no integer (NaN, which
    is stored as NULL and passes the CHECK) is outside the model. *)
Definition addGoal (title : string) (options : AddGoalOptions) (st : Store)
    : Result Goal.t :=
  let priority := default 5 (go_priority options) in
  let id := goals_seq st + 1 in
  let parent_ok :=
    match go_parentGoalId options with
    | None => true
    | Some p => bool_decide (is_Some (getGoal p st) ∨ p = id)
    end in
  if negb (bool_decide (1 ≤ priority ≤ 10)) then
    Throws "CHECK constraint failed: priority BETWEEN 1 AND 10" st
  else if negb parent_ok then
    Throws "FOREIGN KEY constraint failed" st
  else
    let row :=
      Goal.mk id title (go_description options) GoalStatus.active priority
              (clock st) (clock st) (go_deadline options)
              (go_parentGoalId options) 0%Q (JObj []) in
    let st1 :=
      mkStore (goals st ++ [row]) (tasks st) (audit_events st) (memories st)
              id (tasks_seq st) (memories_seq st) (clock st) in
    let st2 := logAudit "goal.created" "goal" id title st1 in
    Ok (default row (getGoal id st2)) st2.

Definition listTasks (goalId : Z) (st : Store) : list Task.t :=
  List.filter (λ r, bool_decide (Task.goal_id r = goalId)) (tasks st).

Definition updateGoalStatus (id : Z) (status : GoalStatus.t) (st : Store) : Store :=
  let st1 :=
    with_goals
      (sql_update (λ g, bool_decide (Goal.id g = id))
         (λ g, Goal.set_updated_at (clock st) (Goal.set_status status g))
         (goals st))
      st in
  logAudit ("goal." +:+ GoalStatus.to_string status) "goal" id
    ("Goal #" +:+ pretty id +:+ " → " +:+ GoalStatus.to_string status) st1.

Definition count_completed (rows : list Task.t) : nat :=
  length (List.filter
            (λ r, TaskStatus.eqb (Task.status r) TaskStatus.completed) rows).

(** completed / tasks.length, on a non-empty list, kept as the exact
    fraction: the floating-point quotient of two such integers is 1.0
    exactly when they are equal, and below 1.0 otherwise, so the comparison
    progress >= 1.0 is the one of the fraction. *)
Definition progress_of (rows : list Task.t) : Q :=
  Z.of_nat (count_completed rows) # Pos.of_nat (length rows).

Definition updateGoalProgress (id : Z) (st : Store) : Store :=
  let rows := listTasks id st in
  if bool_decide (length rows = 0%nat) then st
  else
    let progress := progress_of rows in
    let st1 :=
      with_goals
        (sql_update (λ g, bool_decide (Goal.id g = id))
           (λ g, Goal.set_updated_at (clock st) (Goal.set_progress progress g))
           (goals st))
        st in
    if Qle_bool 1 progress
    then updateGoalStatus id GoalStatus.completed st1
    else st1.

(** removeGoal.  Deleting the goal row cascades to its tasks (ON DELETE
    CASCADE); the DELETE throws when another goal still names this one as
    its parent (parent_goal_id has no ON DELETE action).  The boolean is
    result.changes > 0. *)
Definition removeGoal (id : Z) (st : Store) : Result bool :=
  if bool_decide (is_Some (getGoal id st)) then
    if existsb (λ g, bool_decide (Goal.parent_goal_id g = Some id ∧ Goal.id g ≠ id))
               (goals st)
    then Throws "FOREIGN KEY constraint failed" st
    else
      Ok true
         (with_tasks
            (sql_delete (λ r, bool_decide (Task.goal_id r = id)) (tasks st))
            (with_goals
               (sql_delete (λ g, bool_decide (Goal.id g = id)) (goals st))
               st))
  else Ok false st.

Record AddTaskOptions : Type := mkAddTaskOptions {
  to_description : option string;
  to_skill : option string;
  to_input : option Json;
  to_dependsOn : option (list Z);
  to_requiresApproval : option bool;
  to_scheduledAt : option string
}.

Definition noTaskOptions : AddTaskOptions :=
  mkAddTaskOptions None None None None None None.

(** addTask.  The INSERT throws on the foreign key
    goal_id REFERENCES goals(id) when the goal does not exist. *)
Definition addTask (goalId : Z) (title : string) (options : AddTaskOptions)
    (st : Store) : Result Task.t :=
  if bool_decide (is_Some (getGoal goalId st)) then
    let id := tasks_seq st + 1 in
    let row :=
      Task.mk id goalId title (to_description options) TaskStatus.pending
              (to_skill options) (default (JObj []) (to_input options)) None
              (default [] (to_dependsOn options)) (to_scheduledAt options)
              None None 0 3 None
              (default false (to_requiresApproval options)) None (clock st) in
    let st1 :=
      mkStore (goals st) (tasks st ++ [row]) (audit_events st) (memories st)
              (goals_seq st) id (memories_seq st) (clock st) in
    let st2 := logAudit "task.created" "task" id title st1 in
    Ok (default row (getTask id st2)) st2
  else Throws "FOREIGN KEY constraint failed" st.

(** One row of SELECT t.* FROM tasks t JOIN goals g ON t.goal_id = g.id. *)
Definition joined (st : Store) : list (Task.t * Goal.t) :=
  omap (λ r, (λ g, (r, g)) <$> getGoal (Task.goal_id r) st) (tasks st).

Definition is_candidate (row : Task.t * Goal.t) : bool :=
  (TaskStatus.eqb (Task.status row.1) TaskStatus.pending
   || TaskStatus.eqb (Task.status row.1) TaskStatus.queued)
  && GoalStatus.eqb (Goal.status row.2) GoalStatus.active.

(** ORDER BY g.priority ASC, t.id ASC *)
Definition order_by (a b : Task.t * Goal.t) : Prop :=
  Goal.priority a.2 < Goal.priority b.2
  ∨ (Goal.priority a.2 = Goal.priority b.2 ∧ Task.id a.1 ≤ Task.id b.1).

#[global] Instance order_by_dec a b : Decision (order_by a b).
Proof. unfold order_by. apply _. Defined.

(** The rows of the candidate query, in its order. *)
Definition candidate_rows (st : Store) : list (Task.t * Goal.t) :=
  merge_sort order_by (List.filter is_candidate (joined st)).

Definition candidates (st : Store) : list Task.t :=
  fst <$> candidate_rows st.

(** deps.every(d => d?.status === 'completed') *)
Definition deps_met (st : Store) (r : Task.t) : bool :=
  forallb
    (λ id, match getTask id st with
           | Some d => TaskStatus.eqb (Task.status d) TaskStatus.completed
           | None => false
           end)
    (Task.depends_on r).

(** task.requires_approval && !task.approved_at *)
Definition approval_blocked (r : Task.t) : bool :=
  Task.requires_approval r && negb (bool_decide (is_Some (Task.approved_at r))).

Definition runnable (st : Store) (r : Task.t) : bool :=
  deps_met st r && negb (approval_blocked r).

Definition getNextTask (st : Store) : option Task.t :=
  find (runnable st) (candidates st).

Definition startTask (id : Z) (st : Store) : Store :=
  let st1 :=
    with_tasks
      (sql_update (λ r, bool_decide (Task.id r = id))
         (λ r, Task.set_started_at (Some (clock st))
                 (Task.set_status TaskStatus.running r))
         (tasks st))
      st in
  logAudit "task.started" "task" id ("Task #" +:+ pretty id +:+ " started") st1.

Definition completeTask (id : Z) (output : string) (st : Store) : Store :=
  let st1 :=
    with_tasks
      (sql_update (λ r, bool_decide (Task.id r = id))
         (λ r, Task.set_completed_at (Some (clock st))
                 (Task.set_output (Some output)
                    (Task.set_status TaskStatus.completed r)))
         (tasks st))
      st in
  let st2 :=
    logAudit "task.completed" "task" id
      ("Task #" +:+ pretty id +:+ " completed") st1 in
  match getTask id st2 with
  | Some task => updateGoalProgress (Task.goal_id task) st2
  | None => st2
  end.

Definition failTask (id : Z) (error : string) (st : Store) : Store :=
  match getTask id st with
  | None => st
  | Some task =>
      if bool_decide (Task.retry_count task < Task.max_retries task) then
        let st1 :=
          with_tasks
            (sql_update (λ r, bool_decide (Task.id r = id))
               (λ r, Task.set_error (Some error)
                       (Task.set_retry_count (Task.retry_count r + 1)
                          (Task.set_status TaskStatus.pending r)))
               (tasks st))
            st in
        logAudit "task.retry" "task" id
          ("Task #" +:+ pretty id +:+ " retry "
             +:+ pretty (Task.retry_count task + 1) +:+ "/"
             +:+ pretty (Task.max_retries task) +:+ ": " +:+ error)
          st1
      else
        let st1 :=
          with_tasks
            (sql_update (λ r, bool_decide (Task.id r = id))
               (λ r, Task.set_completed_at (Some (clock st))
                       (Task.set_error (Some error)
                          (Task.set_status TaskStatus.failed r)))
               (tasks st))
            st in
        logAudit "task.failed" "task" id
          ("Task #" +:+ pretty id +:+ " failed: " +:+ error) st1
  end.

Definition approveTask (id : Z) (st : Store) : bool * Store :=
  let p := λ r, bool_decide (Task.id r = id) && Task.requires_approval r in
  let changes := sql_changes p (tasks st) in
  let st1 :=
    with_tasks
      (sql_update p
         (λ r, Task.set_status TaskStatus.queued
                 (Task.set_approved_at (Some (clock st)) r))
         (tasks st))
      st in
  if bool_decide (0 < changes)%nat then
    (true,
     logAudit "task.approved" "task" id
       ("Task #" +:+ pretty id +:+ " approved") st1)
  else (false, st1).

(** getPendingApprovals *)
Definition awaits_approval (r : Task.t) : bool :=
  Task.requires_approval r
  && negb (bool_decide (is_Some (Task.approved_at r)))
  && negb (TaskStatus.eqb (Task.status r) TaskStatus.cancelled
           || TaskStatus.eqb (Task.status r) TaskStatus.completed
           || TaskStatus.eqb (Task.status r) TaskStatus.failed).

(** ORDER BY id ASC *)
Definition by_id (a b : Task.t) : Prop := Task.id a ≤ Task.id b.

#[global] Instance by_id_dec a b : Decision (by_id a b).
Proof. unfold by_id. apply _. Defined.

Definition getPendingApprovals (st : Store) : list Task.t :=
  merge_sort by_id (List.filter awaits_approval (tasks st)).

(** stats: each field is a SELECT COUNT( * ) over goals or tasks. *)
Record Stats : Type := mkStats {
  activeGoals : nat;
  completedGoals : nat;
  pendingTasks : nat;
  runningTasks : nat;
  completedTasks : nat;
  failedTasks : nat;
  awaitingApproval : nat
}.

Definition count_goals (s : GoalStatus.t) (st : Store) : nat :=
  length (List.filter (λ g, GoalStatus.eqb (Goal.status g) s) (goals st)).

Definition count_tasks (s : TaskStatus.t) (st : Store) : nat :=
  length (List.filter (λ r, TaskStatus.eqb (Task.status r) s) (tasks st)).

Definition stats (st : Store) : Stats :=
  mkStats
    (count_goals GoalStatus.active st)
    (count_goals GoalStatus.completed st)
    (length (List.filter
               (λ r, TaskStatus.eqb (Task.status r) TaskStatus.pending
                     || TaskStatus.eqb (Task.status r) TaskStatus.queued)
               (tasks st)))
    (count_tasks TaskStatus.running st)
    (count_tasks TaskStatus.completed st)
    (count_tasks TaskStatus.failed st)
    (length (List.filter awaits_approval (tasks st))).

End GoalStore.

(** ** MemoryStore.save (memory/store.ts) *)

Module MemoryStore.

(** INSERT INTO memories, then the audit row memory.save.  The callers
    below pass one of the categories and sources the CHECK constraints of
    the table admit. *)
Definition save (content category source : string) (tags : list string)
    (st : Store) : Store :=
  let id := memories_seq st + 1 in
  let st1 :=
    mkStore (goals st) (tasks st) (audit_events st)
            (memories st ++ [mkMemory id content category source tags (clock st)])
            (goals_seq st) (tasks_seq st) id (clock st) in
  GoalStore.logAudit "memory.save" "memory" id content st1.

Definition getMemory (id : Z) (st : Store) : option Memory :=
  find (λ m, bool_decide (mem_id m = id)) (memories st).

(** forget: the audit row is written only when a row was deleted. *)
Definition forget (id : Z) (st : Store) : bool * Store :=
  let p := λ m, bool_decide (mem_id m = id) in
  let changes := sql_changes p (memories st) in
  let st1 :=
    mkStore (goals st) (tasks st) (audit_events st)
            (sql_delete p (memories st))
            (goals_seq st) (tasks_seq st) (memories_seq st) (clock st) in
  if bool_decide (0 < changes)%nat then
    (true,
     GoalStore.logAudit "memory.forget" "memory" id
       ("Deleted memory #" +:+ pretty id) st1)
  else (false, st1).

End MemoryStore.

(** JavaScript truthiness of a string | null value. *)
Definition truthy (o : option string) : bool :=
  match o with
  | Some s => negb (String.eqb s EmptyString)
  | None => false
  end.

(** The double quote character, for the template strings that contain it. *)
Definition dquote : string := String (Ascii.ascii_of_nat 34) EmptyString.

(** ** JavaScript strings
    A JavaScript string is a sequence of UTF-16 code units: its slices
    count code units.  The model holds a text as the bytes of its UTF-8
    encoding; [code_units] gives the code units of a text and
    [of_code_units] the text of a sequence of code units.  A character of
    one, two or three bytes is one code unit, a character of four bytes is
    the two code units of a surrogate pair.  A surrogate without its
    partner, which a slice can leave behind and UTF-8 has no encoding for,
    is written as the three bytes of its code point. *)

(** The UTF-16 code units of a code point. *)
Definition units_of_code_point (cp : N) : list N :=
  if (cp <? 0x10000)%N then [cp]
  else [(0xD800 + (cp - 0x10000) / 0x400)%N; (0xDC00 + (cp - 0x10000) mod 0x400)%N].

(** The code units of a text: [pending] continuation bytes of the
    character being read are still to come, [acc] holds its bits so far.
    The texts of the model are UTF-8; bytes that are not are read by the
    same rules. *)
Fixpoint code_units_from (pending : nat) (acc : N) (s : string) : list N :=
  match s with
  | EmptyString => []
  | String c s' =>
      let b := Ascii.N_of_ascii c in
      match pending with
      | O =>
          if (b <? 0x80)%N then b :: code_units_from 0 0%N s'
          else if (b <? 0xE0)%N then code_units_from 1 (b mod 0x20)%N s'
          else if (b <? 0xF0)%N then code_units_from 2 (b mod 0x10)%N s'
          else code_units_from 3 (b mod 0x08)%N s'
      | S O =>
          (units_of_code_point (acc * 0x40 + b mod 0x40)%N
             ++ code_units_from 0 0%N s')%list
      | S p => code_units_from p (acc * 0x40 + b mod 0x40)%N s'
      end
  end.

Definition code_units (s : string) : list N := code_units_from 0 0%N s.

Definition utf8_1 (u : N) (s : string) : string :=
  String (Ascii.ascii_of_N u) s.

Definition utf8_2 (u : N) (s : string) : string :=
  String (Ascii.ascii_of_N (0xC0 + u / 0x40))
    (String (Ascii.ascii_of_N (0x80 + u mod 0x40)) s).

Definition utf8_3 (u : N) (s : string) : string :=
  String (Ascii.ascii_of_N (0xE0 + u / 0x1000))
    (String (Ascii.ascii_of_N (0x80 + (u / 0x40) mod 0x40))
       (String (Ascii.ascii_of_N (0x80 + u mod 0x40)) s)).

Definition utf8_4 (cp : N) (s : string) : string :=
  String (Ascii.ascii_of_N (0xF0 + cp / 0x40000))
    (String (Ascii.ascii_of_N (0x80 + (cp / 0x1000) mod 0x40))
       (String (Ascii.ascii_of_N (0x80 + (cp / 0x40) mod 0x40))
          (String (Ascii.ascii_of_N (0x80 + cp mod 0x40)) s))).

Definition high_surrogate (u : N) : bool := (0xD800 <=? u)%N && (u <? 0xDC00)%N.
Definition low_surrogate (u : N) : bool := (0xDC00 <=? u)%N && (u <? 0xE000)%N.

(** The text of a sequence of code units. *)
Fixpoint of_code_units (us : list N) : string :=
  match us with
  | [] => EmptyString
  | u :: rest =>
      if (u <? 0x80)%N then utf8_1 u (of_code_units rest)
      else if (u <? 0x800)%N then utf8_2 u (of_code_units rest)
      else
        match rest with
        | v :: rest' =>
            if high_surrogate u && low_surrogate v
            then utf8_4 (0x10000 + (u - 0xD800) * 0x400 + (v - 0xDC00))%N
                   (of_code_units rest')
            else utf8_3 u (of_code_units rest)
        | [] => utf8_3 u (of_code_units rest)
        end
  end.

(** str.slice(0, n) for a natural number n: the first n code units. *)
Definition slice0 (n : nat) (s : string) : string :=
  of_code_units (take n (code_units s)).

(** ** TaskExecutor (goals/executor.ts) *)

Module TaskExecutor.

(** What running a task's body gives: the { success, output } it returns,
    or the message of the exception it throws. *)
Inductive Outcome : Type :=
  | Returned (success : bool) (output : string)
  | Threw (message : string).

Record TaskResult : Type := mkTaskResult {
  taskId : Z;
  title : string;
  success : bool;
  output : string
}.

Record QueueSummary : Type := mkQueueSummary {
  processed : Z;
  completed : Z;
  failed : Z;
  results : list TaskResult
}.

Section Executor.
(** The reasoning service and the shell are outside the program: [Env]
    is the state of that outer world, and the two execution paths are given
    by what they produce for a task, the database they read (memory context,
    the goal of the task) and that world.  In the source executeWithLLM
    returns success = true or throws; executeWithSkill returns
    success = false when the reasoning call or one of the extracted shell
    commands fails. *)
Context {Env : Type}.
Variable executeWithSkill : Task.t → Store → Env → Outcome * Env.
Variable executeWithLLM : Task.t → Store → Env → Outcome * Env.

Definition execute (task : Task.t) (w : Store * Env)
    : (bool * string) * (Store * Env) :=
  let st1 := GoalStore.startTask (Task.id task) w.1 in
  let '(outcome, env1) :=
    (if truthy (Task.skill task) then executeWithSkill task st1 w.2
     else executeWithLLM task st1 w.2) in
  match outcome with
  | Returned true out =>
      let st2 := GoalStore.completeTask (Task.id task) out st1 in
      let st3 :=
        MemoryStore.save
          ("Task completed: " +:+ dquote +:+ Task.title task +:+ dquote
             +:+ " → " +:+ slice0 300 out)
          "learned" "agent"
          ["task"; "execution"; default "general" (Task.skill task)]
          st2 in
      ((true, out), (st3, env1))
  | Returned false out =>
      ((false, out), (GoalStore.failTask (Task.id task) out st1, env1))
  | Threw error =>
      ((false, error), (GoalStore.failTask (Task.id task) error st1, env1))
  end.

(** The while loop of processQueue; [fuel] is maxTasks - processed, the
    number of iterations the loop condition still allows. *)
Fixpoint processQueue_loop (fuel : nat) (acc : QueueSummary)
    (w : Store * Env) : QueueSummary * (Store * Env) :=
  match fuel with
  | O => (acc, w)
  | S fuel' =>
      match GoalStore.getNextTask w.1 with
      | None => (acc, w)
      | Some task =>
          let '(result, w1) := execute task w in
          let acc1 :=
            mkQueueSummary
              (processed acc + 1)
              (if result.1 then completed acc + 1 else completed acc)
              (if result.1 then failed acc else failed acc + 1)
              (results acc ++
                 [mkTaskResult (Task.id task) (Task.title task) result.1
                               (slice0 500 result.2)]) in
          processQueue_loop fuel' acc1 w1
      end
  end.

Definition processQueue (maxTasks : Z) (w : Store * Env)
    : QueueSummary * (Store * Env) :=
  processQueue_loop (Z.to_nat maxTasks) (mkQueueSummary 0 0 0 []) w.

End Executor.


(** [s] without its prefix [pat], if it starts with it. *)
Fixpoint strip_prefix (pat s : string) : option string :=
  match pat, s with
  | EmptyString, _ => Some s
  | String a pat', String b s' =>
      if Ascii.eqb a b then strip_prefix pat' s' else None
  | String _ _, EmptyString => None
  end.

(** The text before and the text after the leftmost occurrence of [pat]. *)
Fixpoint cut (pat s : string) : option (string * string) :=
  match strip_prefix pat s with
  | Some rest => Some (EmptyString, rest)
  | None =>
      match s with
      | EmptyString => None
      | String c s' => (λ p, (String c p.1, p.2)) <$> cut pat s'
      end
  end.


(** str.split(sep) for a one-character separator. *)
Fixpoint split_on (sep : Ascii.ascii) (s : string) : list string :=
  match s with
  | EmptyString => [EmptyString]
  | String c s' =>
      if Ascii.eqb c sep then EmptyString :: split_on sep s'
      else match split_on sep s' with
           | [] => [String c EmptyString]
           | l :: ls => String c l :: ls
           end
  end.

Section Commands.
Variable trim : string → string.




End Commands.

End TaskExecutor.

(** ** DaemonService (daemon/service.ts) *)

Module DaemonService.

Record Stats : Type := mkStats {
  tasksProcessed : Z;
  tasksCompleted : Z;
  tasksFailed : Z;
  triggersFireCount : Z;
  heartbeats : Z
}.

(** The fields of the service that queue processing reads and writes.
    The lines it appends to the log file are not part of the state, and
    errors of the file system and of the storage layer are not modelled. *)
Record t : Type := mk {
  goalStore : Store;
  stats : Stats
}.

Definition executeTask (task : Task.t) : string :=
  if truthy (Task.skill task) then
    "Task " +:+ dquote +:+ Task.title task +:+ dquote
      +:+ " processed (skill: " +:+ default EmptyString (Task.skill task) +:+ ")"
  else
    "Task " +:+ dquote +:+ Task.title task +:+ dquote +:+ " processed".

(** Tasks that a SELECT ... WHERE status IN ('pending','queued') sees. *)
Definition is_waiting (r : Task.t) : bool :=
  TaskStatus.eqb (Task.status r) TaskStatus.pending
  || TaskStatus.eqb (Task.status r) TaskStatus.queued.

Definition waiting (st : Store) : nat := length (List.filter is_waiting (tasks st)).

Section Queue.
(** The body of the try block up to the result of executeTask: [inl] the
    string it returns, [inr] the message of an exception raised there.
    The executeTask of the source never throws; the parameter lets the
    catch branch be entered. *)
Variable run : Task.t → string + string.

Fixpoint processGoalQueue_fuel (fuel : nat) (d : t) : option t :=
  match fuel with
  | O => None
  | S fuel' =>
      match GoalStore.getNextTask (goalStore d) with
      | None => Some d
      | Some task =>
          let s := stats d in
          let st1 := GoalStore.startTask (Task.id task) (goalStore d) in
          match run task with
          | inl result =>
              let st2 := GoalStore.completeTask (Task.id task) result st1 in
              let st3 :=
                MemoryStore.save
                  ("Completed task: " +:+ dquote +:+ Task.title task +:+ dquote
                     +:+ " — " +:+ slice0 200 result)
                  "learned" "agent" ["task"; "completed"] st2 in
              processGoalQueue_fuel fuel'
                (mk st3
                    (mkStats (tasksProcessed s + 1) (tasksCompleted s + 1)
                             (tasksFailed s) (triggersFireCount s)
                             (heartbeats s)))
          | inr error =>
              Some (mk (GoalStore.failTask (Task.id task) error st1)
                       (mkStats (tasksProcessed s + 1) (tasksCompleted s)
                                (tasksFailed s + 1) (triggersFireCount s)
                                (heartbeats s)))
          end
      end
  end.

(** Every successful round completes a waiting task, so one more round
    than there are waiting tasks is enough for the recursion to end
    ([processGoalQueue_total] below). *)
Definition processGoalQueueWith (d : t) : option t :=
  processGoalQueue_fuel (S (waiting (goalStore d))) d.

End Queue.

(** processGoalQueue with the executeTask of the source. *)
Definition processGoalQueue (d : t) : option t :=
  processGoalQueueWith (λ task, inl (executeTask task)) d.

(** getUptime, from the startedAt field (null before start) and Date.now(),
    both in milliseconds.  Math.floor of the quotient is Z's division, the
    remainder operator of the source takes the sign of the dividend. *)
Definition getUptime (startedAt : option Z) (now : Z) : string :=
  match startedAt with
  | None => "0s"
  | Some started =>
      let ms := now - started in
      let seconds := Z.rem (ms / 1000) 60 in
      let minutes := Z.rem (ms / 60000) 60 in
      let hours := Z.rem (ms / 3600000) 24 in
      let days := ms / 86400000 in
      let parts :=
        ((if bool_decide (0 < days) then [pretty days +:+ "d"] else [])
         ++ (if bool_decide (0 < hours) then [pretty hours +:+ "h"] else [])
         ++ (if bool_decide (0 < minutes) then [pretty minutes +:+ "m"] else [])
         ++ [pretty seconds +:+ "s"])%list in
      String.concat " " parts
  end.

End DaemonService.

(** ** GoalDecomposer (goals/decomposer.ts) *)

(** The JavaScript built-ins that parseResponse calls. *)
Class Builtins : Type := {
  (** JSON.parse: the value, or the message of the SyntaxError *)
  JSON_parse : string → Json + string;
  (** capture group 1 of the first match of the code fence pattern
      ```(?:json)?\s*\n?([\s\S]*?)\n?\s*``` in the text, if it matches *)
  match_fence : string → option string;
  (** String.prototype.trim *)
  trim : string → string
}.

Module GoalDecomposer.

Record DecomposedTask : Type := mkDecomposedTask {
  title : string;
  description : string;
  skill : option string;
  dependsOnIndex : option (list Z);
  requiresApproval : option bool;
  input : option Json
}.

Record DecompositionResult : Type := mkDecompositionResult {
  tasks : list DecomposedTask;
  reasoning : string;
  estimatedMinutes : Z
}.

(** What the try block of parseResponse does: it returns a result, it
    throws into the catch clause, or it builds a value outside the
    DecompositionResult interface (a field of the parsed JSON that has
    another type than the interface declares; the unchecked cast from
    `any` lets it through, and the model stops there). *)
Inductive Tried (A : Type) : Type :=
  | Done (a : A)
  | Raised (message : string)
  | IllTyped.
Arguments Done {A} a.
Arguments Raised {A} message.
Arguments IllTyped {A}.

(** v[key] for a value that is not null: an own property of an object
    (JSON.parse leaves one entry per key), undefined ([None]) otherwise. *)
Definition prop (v : Json) (key : string) : option Json :=
  match v with
  | JObj fields => snd <$> find (λ kv, String.eqb kv.1 key) fields
  | _ => None
  end.

(** The left operand of ??, [None] when it is null or undefined. *)
Definition nullish (o : option Json) : option Json :=
  match o with
  | Some JNull => None
  | _ => o
  end.

Definition is_null (v : Json) : bool :=
  match v with JNull => true | _ => false end.

Definition as_string (v : Json) : option string :=
  match v with JStr s => Some s | _ => None end.

Definition as_number (v : Json) : option Z :=
  match v with JNum n => Some n | _ => None end.

Definition as_bool (v : Json) : option bool :=
  match v with JBool b => Some b | _ => None end.

Definition as_numbers (v : Json) : option (list Z) :=
  match v with JArr items => mapM as_number items | _ => None end.

(** field ?? fallback, read at the type the interface declares. *)
Definition field_or {A : Type} (read : Json → option A) (fallback : A)
    (v : Json) (key : string) : option A :=
  match nullish (prop v key) with
  | None => Some fallback
  | Some x => read x
  end.

(** The callback of parsed.tasks.map, on an element that is not null. *)
Definition convert_task (t : Json) : option DecomposedTask :=
  title ← field_or as_string "Unnamed task" t "title";
  description ← field_or as_string EmptyString t "description";
  skill ← field_or (λ x, Some <$> as_string x) None t "skill";
  dependsOnIndex ← field_or as_numbers [] t "dependsOnIndex";
  requiresApproval ← field_or as_bool false t "requiresApproval";
  input ← field_or Some (JObj []) t "input";
  Some (mkDecomposedTask title description skill (Some dependsOnIndex)
          (Some requiresApproval) (Some input)).

(** The message of the TypeError for a property read on null. *)
Definition null_read (key : string) : string :=
  "Cannot read properties of null (reading '" +:+ key +:+ "')".

Definition fallback (content message : string) : DecompositionResult :=
  mkDecompositionResult
    [mkDecomposedTask "Execute goal manually"
       ("LLM decomposition failed. Original response: " +:+ slice0 200 content)
       None None (Some true) None]
    ("Decomposition failed: " +:+ message)
    60.

Section Parse.
Context `{Builtins}.

Definition jsonStr (content : string) : string :=
  default content (match_fence content).

Definition try_parse (content : string) : Tried DecompositionResult :=
  match JSON_parse (trim (jsonStr content)) with
  | inr message => Raised message
  | inl JNull => Raised (null_read "tasks")
  | inl parsed =>
      match prop parsed "tasks" with
      | Some (JArr items) =>
          if existsb is_null items then Raised (null_read "title")
          else
            match mapM convert_task items,
                  field_or as_string "No reasoning provided" parsed "reasoning",
                  field_or as_number 30 parsed "estimatedMinutes" with
            | Some ts, Some r, Some m => Done (mkDecompositionResult ts r m)
            | _, _, _ => IllTyped
            end
      | _ => Raised "Response missing tasks array"
      end
  end.

(** parseResponse never throws; [None] is the ill-typed case. *)
Definition parseResponse (content : string) : option DecompositionResult :=
  match try_parse content with
  | Done r => Some r
  | Raised message => Some (fallback content message)
  | IllTyped => None
  end.
End Parse.

(** The for loop of decomposeAndCreate from index [i] on: indexToId maps
    the array positions already inserted to the ids the store gave them.
    An exception of addTask leaves the loop. *)
Fixpoint createTasks (goalId : Z) (defs : list DecomposedTask) (i : Z)
    (indexToId : gmap Z Z) (createdTasks : list Task.t) (st : Store)
    : Result (list Task.t) :=
  match defs with
  | [] => Ok createdTasks st
  | taskDef :: rest =>
      let dependsOn :=
        omap (λ depIdx, indexToId !! depIdx)
             (default [] (dependsOnIndex taskDef)) in
      match GoalStore.addTask goalId (title taskDef)
              (GoalStore.mkAddTaskOptions
                 (Some (description taskDef)) (skill taskDef) (input taskDef)
                 (Some dependsOn)
                 (Some (default false (requiresApproval taskDef))) None)
              st with
      | Throws message st1 => Throws message st1
      | Ok task st1 =>
          createTasks goalId rest (i + 1) (<[i := Task.id task]> indexToId)
            (createdTasks ++ [task]) st1
      end
  end.

(** decomposeAndCreate, from the decomposition that decompose returned. *)
Definition createFrom (result : DecompositionResult) (goal : Goal.t)
    (st : Store) : Result (list Task.t) :=
  match createTasks (Goal.id goal) (tasks result) 0 ∅ [] st with
  | Throws message st1 => Throws message st1
  | Ok createdTasks st1 =>
      Ok createdTasks
         (MemoryStore.save
            ("Decomposed goal " +:+ dquote +:+ Goal.title goal +:+ dquote
               +:+ " into " +:+ pretty (Z.of_nat (length createdTasks))
               +:+ " tasks. Strategy: " +:+ reasoning result
               +:+ ". Estimated: " +:+ pretty (estimatedMinutes result)
               +:+ " minutes.")
            "learned" "agent" ["goal"; "decomposition"; "planning"] st1)
  end.

(** decomposeAndCreate, given the content of the reasoning service's
    response to the decomposition prompt.  [None]: the response is outside
    the model (see [Tried]). *)
Definition decomposeAndCreate `{Builtins} (content : string) (goal : Goal.t)
    (st : Store) : option (Result (list Task.t)) :=
  (λ result, createFrom result goal st) <$> parseResponse content.

End GoalDecomposer.

(** ** Specification predicates *)

Import GoalStore.

(** The eligibility condition of the specification. *)
Definition Eligible (st : Store) (r : Task.t) : Prop :=
  (∃ g, getGoal (Task.goal_id r) st = Some g ∧ Goal.status g = GoalStatus.active)
  ∧ (Task.status r = TaskStatus.pending ∨ Task.status r = TaskStatus.queued)
  ∧ (∀ d, d ∈ Task.depends_on r →
          ∃ dt, getTask d st = Some dt ∧ Task.status dt = TaskStatus.completed)
  ∧ (Task.requires_approval r = false ∨ is_Some (Task.approved_at r)).

(** [a] comes no later than [b] in the order: owning goal's priority
    ascending, then task id ascending. *)
Definition scheduled_before (st : Store) (a b : Task.t) : Prop :=
  ∃ ga gb, getGoal (Task.goal_id a) st = Some ga
           ∧ getGoal (Task.goal_id b) st = Some gb
           ∧ (Goal.priority ga < Goal.priority gb
              ∨ (Goal.priority ga = Goal.priority gb ∧ Task.id a ≤ Task.id b)).

Definition empty_store : Store := mkStore [] [] [] [] 0 0 0 0%nat.

(** Goal P5 (priority 5) and goal P1 (priority 1), created in this order,
    each with one pending task. *)
Definition two_goals_store : Store :=
  let r1 := addGoal "P5" (mkAddGoalOptions None (Some 5) None None) empty_store in
  let r2 := addGoal "P1" (mkAddGoalOptions None (Some 1) None None) (result_store r1) in
  let r3 := addTask 1 "task of P5" noTaskOptions (result_store r2) in
  let r4 := addTask 2 "task of P1" noTaskOptions (result_store r3) in
  result_store r4.

#[global] Instance TaskStatus_eq_dec : EqDecision TaskStatus.t.
Proof. solve_decision. Defined.

#[global] Instance GoalStatus_eq_dec : EqDecision GoalStatus.t.
Proof. solve_decision. Defined.

(** The tasks a goal owns, and how many of them are completed. *)
Definition owned_tasks (st : Store) (gid : Z) : list Task.t :=
  filter (λ r, Task.goal_id r = gid) (tasks st).

Definition total_tasks (st : Store) (gid : Z) : nat :=
  length (owned_tasks st gid).

Definition completed_tasks (st : Store) (gid : Z) : nat :=
  length (filter (λ r, Task.status r = TaskStatus.completed) (owned_tasks st gid)).

(** The row that completeTask writes. *)
Definition completed_row (now : datetime) (output : string) (r : Task.t) : Task.t :=
  Task.set_completed_at (Some now)
    (Task.set_output (Some output) (Task.set_status TaskStatus.completed r)).

(** The database between the UPDATE and audit row of completeTask and
    its call of updateGoalProgress. *)
Definition completeTask_updated (id : Z) (output : string) (st : Store) : Store :=
  GoalStore.logAudit "task.completed" "task" id ("Task #" +:+ pretty id +:+ " completed")
    (with_tasks
       (sql_update (λ r, bool_decide (Task.id r = id))
          (completed_row (clock st) output) (tasks st))
       st).

(** The rows that the two branches of failTask write. *)
Definition retried_row (error : string) (r : Task.t) : Task.t :=
  Task.mk (Task.id r) (Task.goal_id r) (Task.title r) (Task.description r)
          TaskStatus.pending (Task.skill r) (Task.input r) (Task.output r)
          (Task.depends_on r) (Task.scheduled_at r) (Task.started_at r)
          (Task.completed_at r) (Task.retry_count r + 1) (Task.max_retries r)
          (Some error) (Task.requires_approval r) (Task.approved_at r)
          (Task.created_at r).

Definition failed_row (now : datetime) (error : string) (r : Task.t) : Task.t :=
  Task.mk (Task.id r) (Task.goal_id r) (Task.title r) (Task.description r)
          TaskStatus.failed (Task.skill r) (Task.input r) (Task.output r)
          (Task.depends_on r) (Task.scheduled_at r) (Task.started_at r)
          (Some now) (Task.retry_count r) (Task.max_retries r)
          (Some error) (Task.requires_approval r) (Task.approved_at r)
          (Task.created_at r).

(** One goal with two pending tasks, the first created first. *)
Definition two_tasks_store : Store :=
  let r1 := addGoal "G" noGoalOptions empty_store in
  let r2 := addTask 1 "first" noTaskOptions (result_store r1) in
  let r3 := addTask 1 "second" noTaskOptions (result_store r2) in
  result_store r3.

(** The public operations that write the database, and the passing of
    time. *)
Inductive Op : Type :=
  | OpAddGoal (title : string) (options : AddGoalOptions)
  | OpUpdateGoalStatus (id : Z) (status : GoalStatus.t)
  | OpUpdateGoalProgress (id : Z)
  | OpRemoveGoal (id : Z)
  | OpAddTask (goalId : Z) (title : string) (options : AddTaskOptions)
  | OpStartTask (id : Z)
  | OpCompleteTask (id : Z) (output : string)
  | OpFailTask (id : Z) (error : string)
  | OpApproveTask (id : Z)
  | OpSaveMemory (content category source : string) (tags : list string)
  | OpTick (now : datetime).

Definition apply_op (op : Op) (st : Store) : Store :=
  match op with
  | OpAddGoal title options => result_store (addGoal title options st)
  | OpUpdateGoalStatus id status => updateGoalStatus id status st
  | OpUpdateGoalProgress id => updateGoalProgress id st
  | OpRemoveGoal id => result_store (removeGoal id st)
  | OpAddTask goalId title options => result_store (addTask goalId title options st)
  | OpStartTask id => startTask id st
  | OpCompleteTask id output => completeTask id output st
  | OpFailTask id error => failTask id error st
  | OpApproveTask id => (approveTask id st).2
  | OpSaveMemory content category source tags =>
      MemoryStore.save content category source tags st
  | OpTick now => with_clock now st
  end.

(** The state after a sequence of operations. *)
Definition run_ops (ops : list Op) (st : Store) : Store :=
  fold_left (λ s op, apply_op op s) ops st.

(** failTask called once per message of [errors]. *)
Definition fail_each (id : Z) (errors : list string) (st : Store) : Store :=
  fold_left (λ s e, failTask id e s) errors st.

(** What the primary key and AUTOINCREMENT of the tasks table guarantee. *)
Definition tasks_wf (st : Store) : Prop :=
  NoDup (Task.id <$> tasks st) ∧ ∀ x, x ∈ tasks st → Task.id x ≤ tasks_seq st.

(** A task that no operation can make pending or queued again. *)
Definition retired (id : Z) (st : Store) : Prop :=
  id ≤ tasks_seq st
  ∧ ∀ x, x ∈ tasks st → Task.id x = id →
         Task.requires_approval x = false
         ∧ Task.max_retries x ≤ Task.retry_count x
         ∧ DaemonService.is_waiting x = false.

(** One goal with one task that requires approval. *)
Definition approval_store : Store :=
  let r1 := addGoal "G" noGoalOptions empty_store in
  let r2 :=
    addTask 1 "deploy"
      (mkAddTaskOptions None None None None (Some true) None) (result_store r1) in
  result_store r2.

(** One goal whose first task depends on its second, and one goal whose
    only task depends on an id that no task has. *)
Definition dependent_store : Store :=
  let r1 := addGoal "G" noGoalOptions empty_store in
  let r2 :=
    addTask 1 "first"
      (mkAddTaskOptions None None None (Some [2]) None None) (result_store r1) in
  let r3 := addTask 1 "second" noTaskOptions (result_store r2) in
  result_store r3.

Definition dangling_store : Store :=
  let r1 := addGoal "G" noGoalOptions empty_store in
  let r2 :=
    addTask 1 "waits"
      (mkAddTaskOptions None None None (Some [99]) None None) (result_store r1) in
  result_store r2.

(** Eligibility read off the two tables, without the lookups of the
    store. *)
Definition eligible_in_tables (st : Store) (r : Task.t) : Prop :=
  (∃ g, g ∈ goals st ∧ Goal.id g = Task.goal_id r
        ∧ Goal.status g = GoalStatus.active)
  ∧ (Task.status r = TaskStatus.pending ∨ Task.status r = TaskStatus.queued)
  ∧ (∀ d, d ∈ Task.depends_on r →
          ∃ dt, dt ∈ tasks st ∧ Task.id dt = d
                ∧ Task.status dt = TaskStatus.completed)
  ∧ (Task.requires_approval r = false ∨ is_Some (Task.approved_at r)).

(** The bits that [code_units_from] may hold while [pending] continuation
    bytes are to come. *)
Definition reading (pending : nat) (acc : N) : Prop :=
  match pending with
  | 0%nat => True
  | 1%nat => (acc < 0x8000)%N
  | 2%nat => (acc < 0x200)%N
  | 3%nat => (acc < 0x8)%N
  | _ => False
  end.

(** Code units in which every surrogate has its partner: the text is stored
    and read back as it is (the conversion to UTF-8 on the way to the
    database replaces a surrogate that has none). *)
Fixpoint well_formed (us : list N) : bool :=
  match us with
  | [] => true
  | u :: rest =>
      if high_surrogate u then
        match rest with
        | v :: rest' => low_surrogate v && well_formed rest'
        | [] => false
        end
      else negb (low_surrogate u) && well_formed rest
  end.

(** Sample texts: e with acute accent (two bytes), the euro sign (three
    bytes), the grinning face (four bytes, two code units), and a text
    repeated. *)
Definition e_acute : string :=
  String (Ascii.ascii_of_nat 195) (String (Ascii.ascii_of_nat 169) EmptyString).

Definition euro_sign : string :=
  String (Ascii.ascii_of_nat 226)
    (String (Ascii.ascii_of_nat 130)
       (String (Ascii.ascii_of_nat 172) EmptyString)).

Definition grinning_face : string :=
  String (Ascii.ascii_of_nat 240)
    (String (Ascii.ascii_of_nat 159)
       (String (Ascii.ascii_of_nat 152)
          (String (Ascii.ascii_of_nat 128) EmptyString))).

Fixpoint repeat_text (n : nat) (s : string) : string :=
  match n with
  | O => EmptyString
  | S n' => s +:+ repeat_text n' s
  end.

(** Two test doubles for the reasoning service: the execution of task 1
    always fails, every other execution succeeds; and: only the first
    execution of task 1 fails ([Env] records whether it has happened). *)
Definition first_task_fails (task : Task.t) (st : Store) (env : unit)
    : TaskExecutor.Outcome * unit :=
  (if bool_decide (Task.id task = 1) then TaskExecutor.Threw "timeout"
   else TaskExecutor.Returned true "done",
   env).

Definition first_attempt_fails (task : Task.t) (st : Store)
    (failed_before : bool) : TaskExecutor.Outcome * bool :=
  if bool_decide (Task.id task = 1) && negb failed_before
  then (TaskExecutor.Threw "timeout", true)
  else (TaskExecutor.Returned true "done", failed_before).

(** The three counters of a queue summary. *)
Definition counts (s : TaskExecutor.QueueSummary) : Z * Z * Z :=
  (TaskExecutor.processed s, TaskExecutor.completed s, TaskExecutor.failed s).

(** The state of the daemon after one round of processGoalQueue on [task]:
    when the try block ran through with [result], and when it threw
    [error]. *)
Definition after_success (task : Task.t) (result : string) (d : DaemonService.t)
    : DaemonService.t :=
  let s := DaemonService.stats d in
  DaemonService.mk
    (MemoryStore.save
       ("Completed task: " +:+ dquote +:+ Task.title task +:+ dquote
          +:+ " — " +:+ slice0 200 result)
       "learned" "agent" ["task"; "completed"]
       (completeTask (Task.id task) result
          (startTask (Task.id task) (DaemonService.goalStore d))))
    (DaemonService.mkStats
       (DaemonService.tasksProcessed s + 1) (DaemonService.tasksCompleted s + 1)
       (DaemonService.tasksFailed s) (DaemonService.triggersFireCount s)
       (DaemonService.heartbeats s)).

Definition after_failure (task : Task.t) (error : string) (d : DaemonService.t)
    : DaemonService.t :=
  let s := DaemonService.stats d in
  DaemonService.mk
    (failTask (Task.id task) error
       (startTask (Task.id task) (DaemonService.goalStore d)))
    (DaemonService.mkStats
       (DaemonService.tasksProcessed s + 1) (DaemonService.tasksCompleted s)
       (DaemonService.tasksFailed s + 1) (DaemonService.triggersFireCount s)
       (DaemonService.heartbeats s)).

(** A try block in which the execution of task 1 throws. *)
Definition first_task_throws (task : Task.t) : string + string :=
  if bool_decide (Task.id task = 1) then inr "boom"
  else inl (DaemonService.executeTask task).

Definition fresh_daemon (st : Store) : DaemonService.t :=
  DaemonService.mk st (DaemonService.mkStats 0 0 0 0 0).

(** Every id in the tasks table was handed out by its AUTOINCREMENT
    counter. *)
Definition tasks_bounded (st : Store) : Prop :=
  ∀ x, x ∈ tasks st → Task.id x ≤ tasks_seq st.

(** The row that addTask inserts. *)
Definition inserted_task (goalId : Z) (title : string) (options : AddTaskOptions)
    (st : Store) : Task.t :=
  Task.mk (tasks_seq st + 1) goalId title (to_description options)
          TaskStatus.pending (to_skill options)
          (default (JObj []) (to_input options)) None
          (default [] (to_dependsOn options)) (to_scheduledAt options)
          None None 0 3 None (default false (to_requiresApproval options))
          None (clock st).

(** A decomposition response [A, B(dependsOnIndex = [0])] as JSON.parse
    returns it, and a test double of the built-ins that parses the text
    plan to it and rejects every other text. *)
Definition sample_plan : Json :=
  JObj [("reasoning", JStr "A before B");
        ("estimatedMinutes", JNum 10);
        ("tasks",
         JArr [JObj [("title", JStr "A"); ("description", JStr "first")];
               JObj [("title", JStr "B"); ("description", JStr "second");
                     ("dependsOnIndex", JArr [JNum 0])]])].

Definition test_builtins : Builtins :=
  {| JSON_parse s :=
       if String.eqb s "plan" then inl sample_plan
       else inr "Unexpected token";
     match_fence _ := None;
     trim s := s |}.

Definition goal_of (id : Z) (st : Store) : Goal.t :=
  default (Goal.mk id EmptyString None GoalStatus.active 5 0%nat 0%nat None None
             0%Q JNull)
          (getGoal id st).

(** Id, title and dependencies of the tasks that a call of
    decomposeAndCreate returned. *)
Definition created_summary (r : option (Result (list Task.t)))
    : option (list (Z * string * list Z)) :=
  match r with
  | Some (Ok created _) =>
      Some (map (λ t, (Task.id t, Task.title t, Task.depends_on t)) created)
  | _ => None
  end.

(** A test double of the built-ins that parses the text empty to a plan
    without tasks and the text nulls to a plan whose only task is null. *)
Definition edge_builtins : Builtins :=
  {| JSON_parse s :=
       if String.eqb s "empty" then inl (JObj [("tasks", JArr [])])
       else if String.eqb s "nulls" then inl (JObj [("tasks", JArr [JNull])])
       else inr "Unexpected token";
     match_fence _ := None;
     trim s := s |}.

(** The descriptions of the tasks that decomposeAndCreate returned. *)
Definition created_descriptions (r : option (Result (list Task.t)))
    : option (list (option string)) :=
  match r with
  | Some (Ok created _) => Some (Task.description <$> created)
  | _ => None
  end.

(** The goal of [two_tasks_store] after its first task was completed (the
    stored progress is 1/2) and a third task was added to it. *)
Definition stale_progress_store : Store :=
  result_store
    (addTask 1 "third" noTaskOptions (completeTask 1 "ok" two_tasks_store)).

(** The row that approveTask writes. *)
Definition approved_row (now : datetime) (r : Task.t) : Task.t :=
  Task.mk (Task.id r) (Task.goal_id r) (Task.title r) (Task.description r)
          TaskStatus.queued (Task.skill r) (Task.input r) (Task.output r)
          (Task.depends_on r) (Task.scheduled_at r) (Task.started_at r)
          (Task.completed_at r) (Task.retry_count r) (Task.max_retries r)
          (Task.error r) true (Some now) (Task.created_at r).

(** What the constraints of the schema guarantee: primary keys handed out
    by AUTOINCREMENT, and the two foreign keys. *)
Definition store_wf (st : Store) : Prop :=
  NoDup (Goal.id <$> goals st)
  ∧ (∀ g, g ∈ goals st → Goal.id g ≤ goals_seq st)
  ∧ NoDup (Task.id <$> tasks st)
  ∧ (∀ x, x ∈ tasks st → Task.id x ≤ tasks_seq st)
  ∧ (∀ x, x ∈ tasks st → is_Some (getGoal (Task.goal_id x) st))
  ∧ (∀ g p, g ∈ goals st → Goal.parent_goal_id g = Some p →
            is_Some (getGoal p st)).

(** The key columns of the two tables. *)
Definition goal_keys (st : Store) : list (Z * option Z) :=
  (λ g, (Goal.id g, Goal.parent_goal_id g)) <$> goals st.

Definition task_keys (st : Store) : list (Z * Z) :=
  (λ r, (Task.id r, Task.goal_id r)) <$> tasks st.



(** What every task row satisfies in a database that was only written
    through the store's operations. *)
Definition row_ok (r : Task.t) : Prop :=
  Task.max_retries r = 3
  ∧ 0 ≤ Task.retry_count r ≤ 3
  ∧ (is_Some (Task.error r) ↔ 0 < Task.retry_count r)
  ∧ Task.status r ≠ TaskStatus.blocked
  ∧ Task.status r ≠ TaskStatus.cancelled
  ∧ (Task.status r = TaskStatus.failed →
     Task.retry_count r = 3 ∧ is_Some (Task.completed_at r))
  ∧ (Task.status r = TaskStatus.completed →
     is_Some (Task.output r) ∧ is_Some (Task.completed_at r))
  ∧ (Task.status r = TaskStatus.running → is_Some (Task.started_at r))
  ∧ (Task.status r = TaskStatus.queued → is_Some (Task.approved_at r))
  ∧ (is_Some (Task.approved_at r) → Task.requires_approval r = true).

Definition rows_ok (st : Store) : Prop := ∀ x, x ∈ tasks st → row_ok x.


(** An id that the tasks table has used and no longer holds. *)
Definition gone (id : Z) (st : Store) : Prop :=
  id ≤ tasks_seq st ∧ ∀ x, x ∈ tasks st → Task.id x ≠ id.


(** What one invocation of processGoalQueue changes in the counters. *)
Definition queue_run (d d' : DaemonService.t) : Prop :=
  let s := DaemonService.stats d in
  let s' := DaemonService.stats d' in
  let done := DaemonService.tasksCompleted s' - DaemonService.tasksCompleted s in
  let lost := DaemonService.tasksFailed s' - DaemonService.tasksFailed s in
  DaemonService.tasksProcessed s' = DaemonService.tasksProcessed s + done + lost
  ∧ 0 ≤ done ≤ Z.of_nat (DaemonService.waiting (DaemonService.goalStore d))
  ∧ (lost = 0 ∨ lost = 1)
  ∧ (lost = 0 → getNextTask (DaemonService.goalStore d') = None)
  ∧ DaemonService.triggersFireCount s' = DaemonService.triggersFireCount s
  ∧ DaemonService.heartbeats s' = DaemonService.heartbeats s
  ∧ Z.of_nat (length (memories (DaemonService.goalStore d')))
    = Z.of_nat (length (memories (DaemonService.goalStore d))) + done.


(** The tasks table in ascending id order, with no id beyond the counter. *)
Definition id_lt (a b : Task.t) : Prop := Task.id a < Task.id b.

Definition tasks_sorted (st : Store) : Prop :=
  StronglySorted id_lt (tasks st) ∧ tasks_bounded st.


(** A goal id that no active goal holds, now or after an insertion. *)
Definition inactive (gid : Z) (st : Store) : Prop :=
  gid ≤ goals_seq st
  ∧ ∀ g, g ∈ goals st → Goal.id g = gid → Goal.status g ≠ GoalStatus.active.

(** Every operation but the one that sets goal [gid] to active. *)
Definition not_resume (gid : Z) (op : Op) : Prop :=
  match op with
  | OpUpdateGoalStatus id status => id = gid → status ≠ GoalStatus.active
  | _ => True
  end.

(** * Properties *)

(** ** Helper lemmas on lists and rows *)

Lemma TaskStatus_eqb_eq (a b : TaskStatus.t) : TaskStatus.eqb a b = true ↔ a = b.
Proof. destruct a, b; simpl; split; (congruence || done). Qed.

Lemma GoalStatus_eqb_eq (a b : GoalStatus.t) : GoalStatus.eqb a b = true ↔ a = b.
Proof. destruct a, b; simpl; split; (congruence || done). Qed.

Lemma find_fmap {A B : Type} (f : A → B) (p : B → bool) (l : list A) :
  find p (f <$> l) = f <$> find (λ x, p (f x)) l.
Proof.
  induction l as [|x l IH]; simpl; [done|].
  destruct (p (f x)); [done|apply IH].
Qed.

Lemma find_Some_elem_of {A : Type} (p : A → bool) (l : list A) (x : A) :
  find p l = Some x → x ∈ l ∧ p x = true.
Proof.
  intros Hf. apply find_some in Hf as [Hin Hp].
  split; [by apply list_elem_of_In|done].
Qed.

Lemma find_None_elem_of {A : Type} (p : A → bool) (l : list A) :
  find p l = None → ∀ x, x ∈ l → p x = false.
Proof.
  intros Hf x Hin. apply (find_none p l Hf). by apply list_elem_of_In.
Qed.

(** On a sorted list, [find] returns the least element that passes. *)
Lemma find_sorted_least {A : Type} (R : relation A) `{!Reflexive R}
    (p : A → bool) (l : list A) (x : A) :
  StronglySorted R l → find p l = Some x →
  ∀ y, y ∈ l → p y = true → R x y.
Proof.
  induction 1 as [|a l Hs IH Hall]; simpl; [done|].
  destruct (p a) eqn:Hpa.
  - intros [= <-] y Hy _. apply elem_of_cons in Hy as [->|Hy]; [done|].
    rewrite Forall_forall in Hall. by apply Hall.
  - intros Hf y Hy Hpy. apply elem_of_cons in Hy as [->|Hy]; [congruence|].
    by apply IH.
Qed.

Lemma filter_elem_of {A : Type} (p : A → bool) (l : list A) (x : A) :
  x ∈ List.filter p l ↔ x ∈ l ∧ p x = true.
Proof. rewrite !list_elem_of_In. apply filter_In. Qed.

#[global] Instance order_by_refl : Reflexive order_by.
Proof. intros [r g]. unfold order_by. simpl. lia. Qed.

#[global] Instance order_by_trans : Transitive order_by.
Proof. intros [r1 g1] [r2 g2] [r3 g3]. unfold order_by. simpl. lia. Qed.

#[global] Instance order_by_total : Total order_by.
Proof. intros [r1 g1] [r2 g2]. unfold order_by. simpl. lia. Qed.

Section scheduler_facts.

Lemma joined_elem_of (st : Store) (r : Task.t) (g : Goal.t) :
  (r, g) ∈ joined st ↔ r ∈ tasks st ∧ getGoal (Task.goal_id r) st = Some g.
Proof.
  unfold joined. rewrite list_elem_of_omap. split.
  - intros (r' & Hin & Heq).
    destruct (getGoal (Task.goal_id r') st) as [g'|] eqn:Hg; simpl in Heq; [|done].
    by injection Heq as -> ->.
  - intros [Hin Hg]. exists r. split; [done|]. by rewrite Hg.
Qed.

Lemma candidate_rows_elem_of (st : Store) (row : Task.t * Goal.t) :
  row ∈ candidate_rows st ↔
  row.1 ∈ tasks st ∧ getGoal (Task.goal_id row.1) st = Some row.2
  ∧ is_candidate row = true.
Proof.
  unfold candidate_rows. rewrite merge_sort_Permutation, filter_elem_of.
  destruct row as [r g]. rewrite joined_elem_of. simpl. tauto.
Qed.

Lemma candidate_rows_sorted (st : Store) :
  StronglySorted order_by (candidate_rows st).
Proof. apply StronglySorted_merge_sort; apply _. Qed.

Lemma getNextTask_rows (st : Store) :
  getNextTask st = fst <$> find (λ row, runnable st row.1) (candidate_rows st).
Proof. unfold getNextTask, candidates. by rewrite find_fmap. Qed.

Lemma deps_met_spec (st : Store) (r : Task.t) :
  deps_met st r = true ↔
  ∀ d, d ∈ Task.depends_on r →
       ∃ dt, getTask d st = Some dt ∧ Task.status dt = TaskStatus.completed.
Proof.
  unfold deps_met. rewrite forallb_forall. split.
  - intros Hall d Hd. apply list_elem_of_In, Hall in Hd.
    destruct (getTask d st) as [dt|]; [|done].
    exists dt. split; [done|]. by apply TaskStatus_eqb_eq.
  - intros Hall d Hd. apply list_elem_of_In, Hall in Hd as (dt & -> & Hs).
    by apply TaskStatus_eqb_eq.
Qed.

Lemma approval_blocked_spec (r : Task.t) :
  approval_blocked r = false ↔
  Task.requires_approval r = false ∨ is_Some (Task.approved_at r).
Proof.
  unfold approval_blocked.
  destruct (Task.requires_approval r); simpl.
  - rewrite negb_false_iff, bool_decide_eq_true. split; [by right|].
    by intros [?|?].
  - split; [by left|done].
Qed.

Lemma is_candidate_spec (r : Task.t) (g : Goal.t) :
  is_candidate (r, g) = true ↔
  (Task.status r = TaskStatus.pending ∨ Task.status r = TaskStatus.queued)
  ∧ Goal.status g = GoalStatus.active.
Proof.
  unfold is_candidate. simpl.
  rewrite andb_true_iff, orb_true_iff, !TaskStatus_eqb_eq, GoalStatus_eqb_eq.
  done.
Qed.
End scheduler_facts.

Lemma runnable_spec (st : Store) (r : Task.t) :
  runnable st r = true ↔
  (∀ d, d ∈ Task.depends_on r →
        ∃ dt, getTask d st = Some dt ∧ Task.status dt = TaskStatus.completed)
  ∧ (Task.requires_approval r = false ∨ is_Some (Task.approved_at r)).
Proof.
  unfold runnable.
  by rewrite andb_true_iff, negb_true_iff, deps_met_spec, approval_blocked_spec.
Qed.

Lemma Eligible_iff (st : Store) (r : Task.t) :
  r ∈ tasks st →
  Eligible st r ↔
  ∃ g, (r, g) ∈ candidate_rows st ∧ runnable st r = true.
Proof.
  intros Hin. unfold Eligible. setoid_rewrite runnable_spec. split.
  - intros ((g & Hg & Hact) & Hst & Hdeps & Happ). exists g.
    rewrite candidate_rows_elem_of, is_candidate_spec. simpl. done.
  - intros (g & Hrow & Hdeps & Happ).
    apply candidate_rows_elem_of in Hrow as (_ & Hg & Hc). simpl in *.
    apply is_candidate_spec in Hc as [Hst Hact]. eauto 10.
Qed.

Lemma find_NoDup_key {R : Type} (key : R → Z) (rows : list R) (x : R) :
  NoDup (key <$> rows) → x ∈ rows →
  find (λ r, bool_decide (key r = key x)) rows = Some x.
Proof.
  induction rows as [|y rows IH]; simpl.
  - intros _ Hx. by apply elem_of_nil in Hx.
  - rewrite NoDup_cons. intros [Hy Hnd] Hx.
    apply elem_of_cons in Hx as [->|Hx].
    + by rewrite bool_decide_eq_true_2.
    + rewrite bool_decide_eq_false_2; [by apply IH|].
      intros Heq. apply Hy. rewrite Heq. by apply list_elem_of_fmap_2.
Qed.


Lemma Eligible_in_tables (st : Store) (r : Task.t) :
  NoDup (Goal.id <$> goals st) → NoDup (Task.id <$> tasks st) →
  Eligible st r ↔ eligible_in_tables st r.
Proof.
  intros Hg Ht. unfold Eligible, eligible_in_tables. split.
  - intros ((g & Hgoal & Hact) & Hst & Hdeps & Happ).
    split; [|split; [done|split; [|done]]].
    + exists g. apply find_Some_elem_of in Hgoal as [Hin Hid].
      apply bool_decide_eq_true in Hid. done.
    + intros d Hd. destruct (Hdeps d Hd) as (dt & Hdt & Hc). exists dt.
      apply find_Some_elem_of in Hdt as [Hin Hid].
      apply bool_decide_eq_true in Hid. done.
  - intros ((g & Hin & Hid & Hact) & Hst & Hdeps & Happ).
    split; [|split; [done|split; [|done]]].
    + exists g. split; [|done]. unfold getGoal. rewrite <- Hid.
      by apply (find_NoDup_key Goal.id).
    + intros d Hd. destruct (Hdeps d Hd) as (dt & Hdt & Hid' & Hc). exists dt.
      split; [|done]. unfold getTask. rewrite <- Hid'.
      by apply (find_NoDup_key Task.id).
Qed.

(** C1: getNextTask returns the first eligible task in the order (goal
    priority ascending, task id ascending), and null exactly when no task is
    eligible; so a task with an unmet or unresolvable dependency or an
    unapproved approval gate is never returned; with goals of priority 1 and
    5, one eligible pending task each, the task of the priority-1 goal is
    returned.  The lookups behind eligibility are lookups in the two tables:
    getTask and getGoal return a row of the table with the id, or null when
    the table has none, so with the ids unique, as the primary keys make
    them, a task is eligible exactly when a goal row with its goal id is
    active, its status is pending or queued, every id of depends_on is the
    id of a completed row of the tasks table, and the approval gate is
    open.  Where the first task depends on the second, the second is
    returned, and the first once the second is completed; a task that
    depends on an id without a task and a task that awaits approval are not
    returned. *)
Theorem getNextTask_first_eligible (st : Store) :
  match getNextTask st with
  | Some r =>
      r ∈ tasks st ∧ Eligible st r
      ∧ ∀ r', r' ∈ tasks st → Eligible st r' → scheduled_before st r r'
  | None => ∀ r, r ∈ tasks st → ¬ Eligible st r
  end
  ∧ (Task.title <$> getNextTask two_goals_store) = Some "task of P1"
  ∧ (∀ id, match getTask id st with
           | Some d => d ∈ tasks st ∧ Task.id d = id
           | None => ∀ x, x ∈ tasks st → Task.id x ≠ id
           end)
  ∧ (∀ id, match getGoal id st with
           | Some g => g ∈ goals st ∧ Goal.id g = id
           | None => ∀ x, x ∈ goals st → Goal.id x ≠ id
           end)
  ∧ (NoDup (Goal.id <$> goals st) → NoDup (Task.id <$> tasks st) →
     ∀ r, Eligible st r ↔ eligible_in_tables st r)
  ∧ (Task.title <$> getNextTask dependent_store) = Some "second"
  ∧ (Task.title <$> getNextTask (completeTask 2 "done" dependent_store))
    = Some "first"
  ∧ (Task.depends_on <$> getNextTask (completeTask 2 "done" dependent_store))
    = Some [2]
  ∧ getNextTask (startTask 2 dependent_store) = None
  ∧ (Task.depends_on <$> tasks dangling_store) = [[99]]
  ∧ getNextTask dangling_store = None
  ∧ (Task.requires_approval <$> tasks approval_store) = [true]
  ∧ getNextTask approval_store = None.
Proof.
  split; [|split; [by vm_compute|]].
  2:{ split.
      { intros id. destruct (getTask id st) as [d|] eqn:Hd.
        - apply find_Some_elem_of in Hd as [Hin Hid].
          by apply bool_decide_eq_true in Hid.
        - intros x Hx Hid. pose proof (find_None_elem_of _ _ Hd x Hx) as Hno.
          simpl in Hno. by rewrite bool_decide_eq_true_2 in Hno. }
      split.
      { intros id. destruct (getGoal id st) as [g|] eqn:Hg.
        - apply find_Some_elem_of in Hg as [Hin Hid].
          by apply bool_decide_eq_true in Hid.
        - intros x Hx Hid. pose proof (find_None_elem_of _ _ Hg x Hx) as Hno.
          simpl in Hno. by rewrite bool_decide_eq_true_2 in Hno. }
      split; [intros; by apply Eligible_in_tables|].
      by vm_compute. }
  rewrite getNextTask_rows.
  destruct (find _ (candidate_rows st)) as [[r g]|] eqn:Hf; simpl.
  - pose proof (find_Some_elem_of _ _ _ Hf) as [Hin Hrun]. simpl in Hrun.
    pose proof Hin as Hrow. apply candidate_rows_elem_of in Hrow as (Hr & Hg & Hc).
    simpl in *. split; [done|]. split.
    + apply Eligible_iff; [done|]. by exists g.
    + intros r' Hr' He'. apply Eligible_iff in He' as (g' & Hin' & Hrun'); [|done].
      pose proof (find_sorted_least order_by _ _ _ (candidate_rows_sorted st) Hf
                    (r', g') Hin' Hrun') as Hle.
      apply candidate_rows_elem_of in Hin' as (_ & Hg' & _). simpl in *.
      exists g, g'. done.
  - intros r Hr He. apply Eligible_iff in He as (g & Hin & Hrun); [|done].
    pose proof (find_None_elem_of _ _ Hf (r, g) Hin) as Hno. simpl in Hno.
    congruence.
Qed.
(** ** Rows under UPDATE *)

Lemma List_filter_decide {A : Type} (P : A → Prop) `{∀ x, Decision (P x)}
    (l : list A) :
  List.filter (λ x, bool_decide (P x)) l = filter P l.
Proof.
  induction l as [|x l IH]; [done|]. simpl. rewrite filter_cons.
  destruct (decide (P x)).
  - by rewrite bool_decide_eq_true_2, IH.
  - by rewrite bool_decide_eq_false_2, IH.
Qed.

Lemma List_filter_ext {A : Type} (p q : A → bool) (l : list A) :
  (∀ x, p x = q x) → List.filter p l = List.filter q l.
Proof. intros Hpq. induction l as [|x l IH]; simpl; [done|]. by rewrite Hpq, IH. Qed.

Lemma find_sql_update {R : Type} (q p : R → bool) (f : R → R) (rows : list R) :
  (∀ x, q (f x) = q x) →
  find q (sql_update p f rows) = (λ x, if p x then f x else x) <$> find q rows.
Proof.
  intros Hq. induction rows as [|x rows IH]; simpl; [done|].
  destruct (p x) eqn:Hp; [rewrite Hq|];
    (destruct (q x); simpl; [by rewrite Hp|apply IH]).
Qed.

Lemma filter_length_le {A : Type} (p : A → bool) (l : list A) :
  (length (List.filter p l) ≤ length l)%nat.
Proof. induction l as [|x l IH]; simpl; [done|]. destruct (p x); simpl; lia. Qed.

Lemma filter_length_all {A : Type} (p : A → bool) (l : list A) :
  length (List.filter p l) = length l ↔ ∀ x, x ∈ l → p x = true.
Proof.
  induction l as [|x l IH]; simpl.
  - split; [|done]. intros _ x Hx. by apply elem_of_nil in Hx.
  - pose proof (filter_length_le p l). destruct (p x) eqn:Hp; simpl.
    + split.
      * intros Hlen y Hy. apply elem_of_cons in Hy as [->|Hy]; [done|].
        apply IH; [lia|done].
      * intros Hall. f_equal. apply IH. intros y Hy. apply Hall. by right.
    + split; [lia|]. intros Hall. rewrite Hall in Hp; [done|by left].
Qed.

Lemma count_completed_spec (st : Store) (gid : Z) :
  GoalStore.count_completed (GoalStore.listTasks gid st) = completed_tasks st gid.
Proof.
  unfold GoalStore.count_completed, GoalStore.listTasks, completed_tasks, owned_tasks.
  rewrite <- !List_filter_decide. f_equal.
  apply List_filter_ext. intros r.
  destruct (TaskStatus.eqb _ _) eqn:He.
  - apply TaskStatus_eqb_eq in He. by rewrite bool_decide_eq_true_2.
  - rewrite bool_decide_eq_false_2; [done|]. intros Heq.
    apply TaskStatus_eqb_eq in Heq. congruence.
Qed.

Lemma listTasks_length (st : Store) (gid : Z) :
  length (GoalStore.listTasks gid st) = total_tasks st gid.
Proof. unfold GoalStore.listTasks, total_tasks, owned_tasks. by rewrite List_filter_decide. Qed.

Lemma completed_le_total (st : Store) (gid : Z) :
  (completed_tasks st gid ≤ total_tasks st gid)%nat.
Proof.
  rewrite <- count_completed_spec, <- listTasks_length.
  apply filter_length_le.
Qed.

Lemma Zpos_of_nat (n : nat) : n ≠ 0%nat → Z.pos (Pos.of_nat n) = Z.of_nat n.
Proof.
  intros Hn. rewrite <- positive_nat_Z. by rewrite Nat2Pos.id.
Qed.

Lemma Qle_bool_1_fraction (c n : nat) :
  n ≠ 0%nat → (c ≤ n)%nat →
  Qle_bool 1 (Z.of_nat c # Pos.of_nat n) = bool_decide (c = n).
Proof.
  intros Hn Hc. unfold Qle_bool. simpl. rewrite Zpos_of_nat by done.
  destruct (decide (c = n)) as [->|Hne].
  - rewrite bool_decide_eq_true_2 by done. apply Z.leb_le. lia.
  - rewrite bool_decide_eq_false_2 by done. apply Z.leb_gt. lia.
Qed.

Section store_facts.
Import GoalStore.

Lemma getTask_elem_of (st : Store) (id : Z) (r : Task.t) :
  getTask id st = Some r → r ∈ tasks st ∧ Task.id r = id.
Proof.
  intros Hf. apply find_Some_elem_of in Hf as [Hin Hid].
  by apply bool_decide_eq_true in Hid.
Qed.

Lemma getGoal_elem_of (st : Store) (id : Z) (g : Goal.t) :
  getGoal id st = Some g → g ∈ goals st ∧ Goal.id g = id.
Proof.
  intros Hf. apply find_Some_elem_of in Hf as [Hin Hid].
  by apply bool_decide_eq_true in Hid.
Qed.

(** getTask after an UPDATE of the tasks that leaves the ids alone. *)
Lemma getTask_update (st : Store) (p : Task.t → bool) (f : Task.t → Task.t)
    (id : Z) :
  (∀ r, Task.id (f r) = Task.id r) →
  getTask id (with_tasks (sql_update p f (tasks st)) st)
  = (λ r, if p r then f r else r) <$> getTask id st.
Proof.
  intros Hid. unfold getTask. simpl. apply find_sql_update.
  intros r. by rewrite Hid.
Qed.

Lemma getGoal_update (st : Store) (p : Goal.t → bool) (f : Goal.t → Goal.t)
    (id : Z) :
  (∀ g, Goal.id (f g) = Goal.id g) →
  getGoal id (with_goals (sql_update p f (goals st)) st)
  = (λ g, if p g then f g else g) <$> getGoal id st.
Proof.
  intros Hid. unfold getGoal. simpl. apply find_sql_update.
  intros g. by rewrite Hid.
Qed.

Lemma tasks_updateGoalStatus id s st : tasks (updateGoalStatus id s st) = tasks st.
Proof. done. Qed.

Lemma tasks_updateGoalProgress id st : tasks (updateGoalProgress id st) = tasks st.
Proof.
  unfold updateGoalProgress. case_bool_decide; [done|].
  by destruct (Qle_bool _ _).
Qed.

Lemma getGoal_updateGoalStatus (st : Store) (id' id : Z) (s : GoalStatus.t) :
  getGoal id' (updateGoalStatus id s st)
  = (λ g, if bool_decide (Goal.id g = id)
          then Goal.set_updated_at (clock st) (Goal.set_status s g) else g)
      <$> getGoal id' st.
Proof.
  unfold updateGoalStatus.
  change (getGoal id' (logAudit ?a ?b ?c ?d ?st1)) with (getGoal id' st1).
  by apply getGoal_update.
Qed.

(** What updateGoalProgress does to the goal it names. *)
Lemma updateGoalProgress_goal (st : Store) (gid : Z) (g : Goal.t) :
  getGoal gid st = Some g →
  total_tasks st gid ≠ 0%nat →
  ∃ g', getGoal gid (updateGoalProgress gid st) = Some g'
    ∧ Goal.progress g'
      = (Z.of_nat (completed_tasks st gid) # Pos.of_nat (total_tasks st gid))%Q
    ∧ Goal.status g'
      = (if decide (completed_tasks st gid = total_tasks st gid)
         then GoalStatus.completed else Goal.status g).
Proof.
  intros Hg Hn. unfold updateGoalProgress.
  rewrite listTasks_length. rewrite bool_decide_eq_false_2 by done.
  unfold progress_of. rewrite count_completed_spec, listTasks_length.
  rewrite Qle_bool_1_fraction by (done || apply completed_le_total).
  pose proof (getGoal_elem_of _ _ _ Hg) as [_ Hgid].
  case_bool_decide as Hall.
  - rewrite getGoal_updateGoalStatus, getGoal_update by done.
    rewrite Hg. simpl.
    repeat (rewrite (bool_decide_eq_true_2 (Goal.id g = gid)) by done; simpl).
    eexists. split; [done|]. simpl. by rewrite decide_True.
  - rewrite getGoal_update by done.
    rewrite Hg. simpl.
    rewrite (bool_decide_eq_true_2 (Goal.id g = gid)) by done.
    eexists. split; [done|]. simpl. by rewrite decide_False.
Qed.
End store_facts.

Section completeTask_facts.
Import GoalStore.

Lemma completeTask_unfold (st : Store) (id : Z) (output : string) (r : Task.t) :
  getTask id st = Some r →
  getTask id (completeTask_updated id output st)
    = Some (completed_row (clock st) output r)
  ∧ completeTask id output st
    = updateGoalProgress (Task.goal_id r) (completeTask_updated id output st).
Proof.
  intros Hr. pose proof (getTask_elem_of _ _ _ Hr) as [_ Hid].
  assert (getTask id (completeTask_updated id output st)
          = Some (completed_row (clock st) output r)) as Hr'.
  { unfold completeTask_updated.
    change (getTask id (logAudit ?a ?b ?c ?d ?st1)) with (getTask id st1).
    rewrite getTask_update by done. rewrite Hr. simpl.
    by rewrite bool_decide_eq_true_2. }
  split; [done|].
  unfold completeTask. fold (completed_row (clock st) output).
  fold (completeTask_updated id output st). by rewrite Hr'.
Qed.
End completeTask_facts.

(** C2: after completeTask on a task of a goal, the goal's progress is the
    number of its completed tasks over the number of its tasks; the goal is
    set to completed when that fraction is 1 (all its tasks completed), and
    its status is left as it was when some task is still uncompleted. *)
Theorem completeTask_goal_progress (st : Store) (id : Z) (output : string)
    (r : Task.t) (g : Goal.t) :
  getTask id st = Some r →
  getGoal (Task.goal_id r) st = Some g →
  let gid := Task.goal_id r in
  let st' := completeTask id output st in
  ∃ g', getGoal gid st' = Some g'
    ∧ (0 < total_tasks st' gid)%nat
    ∧ Goal.progress g'
      = (Z.of_nat (completed_tasks st' gid) # Pos.of_nat (total_tasks st' gid))%Q
    ∧ (Goal.progress g' == 1 ↔ completed_tasks st' gid = total_tasks st' gid)%Q
    ∧ (completed_tasks st' gid = total_tasks st' gid →
       Goal.status g' = GoalStatus.completed)
    ∧ (completed_tasks st' gid ≠ total_tasks st' gid →
       Goal.status g' = Goal.status g).
Proof.
  intros Hr Hg gid st'.
  destruct (completeTask_unfold st id output r Hr) as [Hr' Hst].
  set (st2 := completeTask_updated id output st) in *.
  assert (total_tasks st2 gid ≠ 0%nat) as Hn.
  { apply getTask_elem_of in Hr' as [Hin _].
    unfold total_tasks, owned_tasks. intros Hlen.
    apply length_zero_iff_nil in Hlen.
    assert (completed_row (clock st) output r
            ∈ filter (λ r0, Task.goal_id r0 = gid) (tasks st2)) as Hmem
      by (by apply list_elem_of_filter).
    rewrite Hlen in Hmem. by apply elem_of_nil in Hmem. }
  assert (getGoal gid st2 = Some g) as Hg2 by done.
  destruct (updateGoalProgress_goal st2 gid g Hg2 Hn) as (g' & Hg' & Hp & Hs).
  assert (total_tasks st' gid = total_tasks st2 gid) as Ht.
  { unfold total_tasks, owned_tasks, st'. by rewrite Hst, tasks_updateGoalProgress. }
  assert (completed_tasks st' gid = completed_tasks st2 gid) as Hc.
  { unfold completed_tasks, owned_tasks, st'. by rewrite Hst, tasks_updateGoalProgress. }
  exists g'. rewrite Ht, Hc. unfold st'. rewrite Hst.
  split; [done|]. split; [lia|]. split; [done|]. split.
  - rewrite Hp. unfold Qeq. simpl. rewrite Zpos_of_nat by done. lia.
  - split; intros Hall; rewrite Hs.
    + by rewrite decide_True.
    + by rewrite decide_False.
Qed.

(** An instance: completing the first of two tasks gives progress 1/2 and
    leaves the goal active. *)
Lemma completeTask_goal_progress_witness :
  ∃ g', getGoal 1 (completeTask 1 "done" two_tasks_store) = Some g'
    ∧ Goal.progress g' = (1 # 2)%Q
    ∧ Goal.status g' = GoalStatus.active.
Proof.
  destruct (completeTask_goal_progress two_tasks_store 1 "done" _ _ eq_refl eq_refl)
    as (g' & Hg & _ & Hp & _ & _ & Hs).
  exists g'. split; [done|]. split; [by rewrite Hp|].
  rewrite Hs; [done|]. by vm_compute.
Defined.

Section failTask_facts.
Import GoalStore.

Lemma failTask_retry (st : Store) (id : Z) (error : string) (r : Task.t) :
  getTask id st = Some r →
  Task.retry_count r < Task.max_retries r →
  failTask id error st
  = logAudit "task.retry" "task" id
      ("Task #" +:+ pretty id +:+ " retry "
         +:+ pretty (Task.retry_count r + 1) +:+ "/"
         +:+ pretty (Task.max_retries r) +:+ ": " +:+ error)
      (with_tasks
         (sql_update (λ x, bool_decide (Task.id x = id)) (retried_row error)
            (tasks st)) st).
Proof.
  intros Hr Hlt. unfold failTask. rewrite Hr.
  by rewrite bool_decide_eq_true_2.
Qed.

Lemma failTask_final (st : Store) (id : Z) (error : string) (r : Task.t) :
  getTask id st = Some r →
  ¬ Task.retry_count r < Task.max_retries r →
  failTask id error st
  = logAudit "task.failed" "task" id
      ("Task #" +:+ pretty id +:+ " failed: " +:+ error)
      (with_tasks
         (sql_update (λ x, bool_decide (Task.id x = id))
            (failed_row (clock st) error) (tasks st)) st).
Proof.
  intros Hr Hlt. unfold failTask. rewrite Hr.
  by rewrite bool_decide_eq_false_2.
Qed.

Lemma getTask_logAudit a b c d st id :
  getTask id (logAudit a b c d st) = getTask id st.
Proof. done. Qed.

(** getTask for another id after an UPDATE ... WHERE id = ?. *)
Lemma getTask_update_other (st : Store) (f : Task.t → Task.t) (id id' : Z) :
  (∀ r, Task.id (f r) = Task.id r) →
  id' ≠ id →
  getTask id' (with_tasks
                 (sql_update (λ x, bool_decide (Task.id x = id)) f (tasks st)) st)
  = getTask id' st.
Proof.
  intros Hf Hne. rewrite getTask_update by done.
  destruct (getTask id' st) as [r|] eqn:Hr; [|done]. simpl.
  apply getTask_elem_of in Hr as [_ Hid].
  rewrite bool_decide_eq_false_2; [done|congruence].
Qed.

Lemma getTask_update_same (st : Store) (f : Task.t → Task.t) (id : Z) (r : Task.t) :
  (∀ r, Task.id (f r) = Task.id r) →
  getTask id st = Some r →
  getTask id (with_tasks
                (sql_update (λ x, bool_decide (Task.id x = id)) f (tasks st)) st)
  = Some (f r).
Proof.
  intros Hf Hr. rewrite getTask_update by done. rewrite Hr. simpl.
  apply getTask_elem_of in Hr as [_ Hid].
  by rewrite bool_decide_eq_true_2.
Qed.
End failTask_facts.

(** C3: failTask on an existing task.  With retry_count < max_retries the
    task becomes pending, retry_count grows by one, the error text is stored
    and a task.retry audit row is appended; otherwise the task becomes
    failed, completed_at is set, the error text is stored and a task.failed
    audit row is appended.  No other field of the task, no other task and no
    goal changes. *)
Theorem failTask_retry_or_fail (st : Store) (id : Z) (error : string) (r : Task.t) :
  getTask id st = Some r →
  let st' := failTask id error st in
  (if decide (Task.retry_count r < Task.max_retries r) then
     getTask id st' = Some (retried_row error r)
     ∧ ∃ ev, audit_events st' = (audit_events st ++ [ev])%list
             ∧ event_type ev = "task.retry" ∧ action ev = "task.retry"
             ∧ entity_type ev = "task" ∧ entity_id ev = id
   else
     getTask id st' = Some (failed_row (clock st) error r)
     ∧ ∃ ev, audit_events st' = (audit_events st ++ [ev])%list
             ∧ event_type ev = "task.failed" ∧ action ev = "task.failed"
             ∧ entity_type ev = "task" ∧ entity_id ev = id)
  ∧ (∀ id', id' ≠ id → getTask id' st' = getTask id' st)
  ∧ goals st' = goals st.
Proof.
  intros Hr st'. unfold st'. destruct (decide _) as [Hlt|Hge].
  - rewrite (failTask_retry st id error r Hr Hlt). split; [split|split].
    + rewrite getTask_logAudit. by apply getTask_update_same.
    + eexists. split; [done|]. done.
    + intros id' Hne. rewrite getTask_logAudit. by apply getTask_update_other.
    + done.
  - rewrite (failTask_final st id error r Hr Hge). split; [split|split].
    + rewrite getTask_logAudit. by apply getTask_update_same.
    + eexists. split; [done|]. done.
    + intros id' Hne. rewrite getTask_logAudit. by apply getTask_update_other.
    + done.
Qed.

(** An instance: the first failure of a fresh task. *)
Lemma failTask_retry_or_fail_witness :
  Task.status <$> getTask 1 (failTask 1 "boom" two_tasks_store)
    = Some TaskStatus.pending
  ∧ Task.retry_count <$> getTask 1 (failTask 1 "boom" two_tasks_store) = Some 1
  ∧ Task.error <$> getTask 1 (failTask 1 "boom" two_tasks_store) = Some (Some "boom").
Proof.
  destruct (failTask_retry_or_fail two_tasks_store 1 "boom" _ eq_refl) as [H _].
  destruct (decide _) as [_|Hge] in H; [|by vm_compute in Hge].
  destruct H as [-> _]. done.
Defined.

(** ** Rows of a table after UPDATE and DELETE *)

Lemma elem_of_sql_update {R : Type} (p : R → bool) (f : R → R) (rows : list R) (y : R) :
  y ∈ sql_update p f rows ↔ ∃ x, x ∈ rows ∧ y = (if p x then f x else x).
Proof.
  unfold sql_update. rewrite list_elem_of_In, in_map_iff. split.
  - intros (x & Hy & Hx). exists x. by rewrite list_elem_of_In.
  - intros (x & Hx & Hy). exists x. by rewrite <- list_elem_of_In.
Qed.

Lemma elem_of_sql_delete {R : Type} (p : R → bool) (rows : list R) (y : R) :
  y ∈ sql_delete p rows → y ∈ rows.
Proof. unfold sql_delete. rewrite filter_elem_of. tauto. Qed.

Lemma sql_update_ids (p : Task.t → bool) (f : Task.t → Task.t) (rows : list Task.t) :
  (∀ r, Task.id (f r) = Task.id r) →
  Task.id <$> sql_update p f rows = Task.id <$> rows.
Proof.
  intros Hf. unfold sql_update. induction rows as [|x rows IH]; [done|].
  simpl. f_equal; [|apply IH]. destruct (p x); [apply Hf|done].
Qed.

Lemma waiting_status (x : Task.t) :
  DaemonService.is_waiting x = true ↔
  Task.status x = TaskStatus.pending ∨ Task.status x = TaskStatus.queued.
Proof.
  unfold DaemonService.is_waiting.
  by rewrite orb_true_iff, !TaskStatus_eqb_eq.
Qed.

(** ** Tasks under the operations *)

Lemma tasks_failTask_ids (st : Store) (id : Z) (e : string) :
  Task.id <$> tasks (failTask id e st) = Task.id <$> tasks st
  ∧ tasks_seq (failTask id e st) = tasks_seq st
  ∧ clock (failTask id e st) = clock st.
Proof.
  unfold failTask. destruct (getTask id st) as [r|]; [|done].
  case_bool_decide; simpl; (split; [by apply sql_update_ids|done]).
Qed.

Lemma tasks_wf_failTask (st : Store) (id : Z) (e : string) :
  tasks_wf st → tasks_wf (failTask id e st).
Proof.
  intros [Hnd Hb]. destruct (tasks_failTask_ids st id e) as (Hids & Hseq & _).
  split; [by rewrite Hids|].
  intros x Hx. rewrite Hseq.
  assert (Task.id x ∈ Task.id <$> tasks st) as Hin
    by (rewrite <- Hids; by apply list_elem_of_fmap_2).
  apply list_elem_of_fmap in Hin as (y & -> & Hy). by apply Hb.
Qed.

Lemma tasks_wf_fail_each (id : Z) (errors : list string) (st : Store) :
  tasks_wf st → tasks_wf (fail_each id errors st)
  ∧ tasks_seq (fail_each id errors st) = tasks_seq st
  ∧ clock (fail_each id errors st) = clock st.
Proof.
  revert st. induction errors as [|e errors IH]; intros st Hwf; [done|].
  simpl. destruct (tasks_failTask_ids st id e) as (_ & Hseq & Hclock).
  destruct (IH (failTask id e st)) as (? & -> & ->); [by apply tasks_wf_failTask|].
  done.
Qed.

(** As long as retries are left, each failure puts the task back to
    pending and counts one retry. *)
Lemma fail_each_retries (id : Z) (errors : list string) (st : Store) (r : Task.t) :
  getTask id st = Some r →
  Task.retry_count r + Z.of_nat (length errors) ≤ Task.max_retries r →
  getTask id (fail_each id errors st)
  = Some (match last errors with
          | None => r
          | Some e =>
              Task.set_error (Some e)
                (Task.set_retry_count
                   (Task.retry_count r + Z.of_nat (length errors))
                   (Task.set_status TaskStatus.pending r))
          end).
Proof.
  revert st r. induction errors as [|e errors IH]; intros st r Hr Hlen; [done|].
  simpl in Hlen. simpl.
  rewrite (failTask_retry st id e r Hr) by lia.
  erewrite (IH _ (retried_row e r)).
  - rewrite last_cons. destruct (last errors) as [e'|] eqn:Hlast.
    + f_equal. unfold Task.set_error, Task.set_retry_count, Task.set_status.
      simpl. f_equal. lia.
    + apply last_None in Hlast as ->. done.
  - rewrite getTask_logAudit. by apply getTask_update_same.
  - simpl. lia.
Qed.

Lemma fail_each_app (id : Z) (es1 es2 : list string) (st : Store) :
  fail_each id (es1 ++ es2) st = fail_each id es2 (fail_each id es1 st).
Proof. unfold fail_each. apply fold_left_app. Qed.

Lemma getNextTask_eligible (st : Store) (t : Task.t) :
  getNextTask st = Some t → t ∈ tasks st ∧ Eligible st t.
Proof.
  rewrite getNextTask_rows.
  destruct (find _ (candidate_rows st)) as [[r g]|] eqn:Hf; simpl; [|done].
  intros [= ->]. apply find_Some_elem_of in Hf as [Hin Hrun]. simpl in Hrun.
  pose proof Hin as Hrow.
  apply candidate_rows_elem_of in Hrow as (Hr & Hg & Hc). simpl in *.
  split; [done|]. apply Eligible_iff; [done|]. by exists g.
Qed.

Lemma getNextTask_waiting (st : Store) (t : Task.t) :
  getNextTask st = Some t → t ∈ tasks st ∧ DaemonService.is_waiting t = true.
Proof.
  intros Hn. apply getNextTask_eligible in Hn as (Hin & _ & Hs & _).
  split; [done|]. by apply waiting_status.
Qed.

(** ** A retired task stays retired *)

Lemma retired_update (id : Z) (st : Store) (p : Task.t → bool) (f : Task.t → Task.t) :
  retired id st →
  (∀ x, Task.id (f x) = Task.id x) →
  (∀ x, x ∈ tasks st → Task.id x = id → p x = true →
        Task.requires_approval (f x) = false
        ∧ Task.max_retries (f x) ≤ Task.retry_count (f x)
        ∧ DaemonService.is_waiting (f x) = false) →
  retired id (with_tasks (sql_update p f (tasks st)) st).
Proof.
  intros [Hseq Hall] Hid Hf. split; [done|]. simpl.
  intros y Hy Hyid. apply elem_of_sql_update in Hy as (x & Hx & ->).
  destruct (p x) eqn:Hp.
  - rewrite Hid in Hyid. by apply Hf.
  - by apply Hall.
Qed.

Lemma retired_same_tasks (id : Z) (st st' : Store) :
  retired id st → tasks st' = tasks st → tasks_seq st' = tasks_seq st →
  retired id st'.
Proof. intros [Hseq Hall] Ht Hs. unfold retired. by rewrite Ht, Hs. Qed.

Lemma retired_updateGoalProgress (id gid : Z) (st : Store) :
  retired id st → retired id (updateGoalProgress gid st).
Proof.
  intros Hr. apply (retired_same_tasks id st); [done|apply tasks_updateGoalProgress|].
  unfold updateGoalProgress. case_bool_decide; [done|]. by destruct (Qle_bool _ _).
Qed.

Lemma retired_apply_op (id : Z) (op : Op) (st : Store) :
  retired id st → retired id (apply_op op st).
Proof.
  intros Hr. destruct op as [title o|gid s|gid|gid|gid title o|tid|tid out|tid e|tid
                            |c cat src tags|now]; simpl.
  - apply (retired_same_tasks id st); [done| |]; unfold addGoal;
      repeat (case_match; simpl; try done).
  - by apply (retired_same_tasks id st).
  - by apply retired_updateGoalProgress.
  - unfold removeGoal. repeat (case_match; simpl; try done).
    destruct Hr as [Hseq Hall]. split; [done|]. simpl.
    intros x Hx. apply elem_of_sql_delete in Hx. by apply Hall.
  - unfold addTask. case_bool_decide; simpl; [|done].
    destruct Hr as [Hseq Hall]. split; [simpl; lia|]. simpl.
    intros x Hx Hid. apply elem_of_app in Hx as [Hx|Hx]; [by apply Hall|].
    apply list_elem_of_singleton in Hx as ->. simpl in Hid. lia.
  - unfold startTask.
    apply (retired_same_tasks id
             (with_tasks
                (sql_update (λ r, bool_decide (Task.id r = tid))
                   (λ r, Task.set_started_at (Some (clock st))
                           (Task.set_status TaskStatus.running r)) (tasks st)) st));
      [|done|done].
    apply retired_update; [done|done|].
    intros x Hx Hid _. destruct Hr as [_ Hall].
    destruct (Hall x Hx Hid) as (? & ? & ?). done.
  - unfold completeTask.
    set (st2 := logAudit _ _ _ _ _).
    assert (retired id st2) as Hr2.
    { apply (retired_same_tasks id
               (with_tasks
                  (sql_update (λ r, bool_decide (Task.id r = tid))
                     (λ r, Task.set_completed_at (Some (clock st))
                             (Task.set_output (Some out)
                                (Task.set_status TaskStatus.completed r)))
                     (tasks st)) st)); [|done|done].
      apply retired_update; [done|done|].
      intros x Hx Hid _. destruct Hr as [_ Hall].
      destruct (Hall x Hx Hid) as (? & ? & ?). done. }
    destruct (getTask tid st2); [by apply retired_updateGoalProgress|done].
  - destruct (getTask tid st) as [task|] eqn:Htask;
      [|unfold failTask; by rewrite Htask].
    destruct (decide (Task.retry_count task < Task.max_retries task)) as [Hlt|Hge].
    + rewrite (failTask_retry st tid e task Htask Hlt).
      apply (retired_same_tasks id
               (with_tasks
                  (sql_update (λ x, bool_decide (Task.id x = tid))
                     (retried_row e) (tasks st)) st)); [|done|done].
      apply retired_update; [done|done|].
      intros x Hx Hid Hp. apply bool_decide_eq_true in Hp.
      apply getTask_elem_of in Htask as [Hin Htid].
      destruct Hr as [_ Hall]. destruct (Hall task Hin) as (_ & Hmax & _); [congruence|].
      lia.
    + rewrite (failTask_final st tid e task Htask Hge).
      apply (retired_same_tasks id
               (with_tasks
                  (sql_update (λ x, bool_decide (Task.id x = tid))
                     (failed_row (clock st) e) (tasks st)) st)); [|done|done].
      apply retired_update; [done|done|].
      intros x Hx Hid _. destruct Hr as [_ Hall].
      destruct (Hall x Hx Hid) as (? & ? & ?). done.
  - unfold approveTask.
    set (p := λ r, bool_decide (Task.id r = tid) && Task.requires_approval r).
    set (f := λ r, Task.set_status TaskStatus.queued
                     (Task.set_approved_at (Some (clock st)) r)).
    assert (retired id (with_tasks (sql_update p f (tasks st)) st)) as Hr1.
    { apply retired_update; [done|done|].
      intros x Hx Hid Hp. destruct Hr as [_ Hall].
      destruct (Hall x Hx Hid) as (Hreq & _ & _).
      unfold p in Hp. rewrite Hreq in Hp. by rewrite andb_false_r in Hp. }
    case_bool_decide; simpl; [|done].
    by apply (retired_same_tasks id (with_tasks (sql_update p f (tasks st)) st)).
  - by apply (retired_same_tasks id st).
  - by apply (retired_same_tasks id st).
Qed.

Lemma retired_run_ops (id : Z) (ops : list Op) (st : Store) :
  retired id st → retired id (run_ops ops st).
Proof.
  revert st. induction ops as [|op ops IH]; intros st Hr; [done|].
  simpl. apply IH. by apply retired_apply_op.
Qed.

Lemma retired_not_next (id : Z) (st : Store) (t : Task.t) :
  retired id st → getNextTask st = Some t → Task.id t ≠ id.
Proof.
  intros [_ Hall] Hn Hid. apply getNextTask_waiting in Hn as [Hin Hw].
  destruct (Hall t Hin Hid) as (_ & _ & Hnw). congruence.
Qed.

Lemma tasks_wf_computed (st : Store) :
  bool_decide (NoDup (Task.id <$> tasks st)
               ∧ Forall (λ x, Task.id x ≤ tasks_seq st) (tasks st)) = true →
  tasks_wf st.
Proof.
  intros H. apply bool_decide_eq_true in H as [Hnd Hb].
  split; [done|]. by apply Forall_forall.
Qed.

(** C4, as the code has it: a task that starts at retry_count 0 is pending
    again, with one more retry counted, after each of its first max_retries
    failures, and eligible as far as its goal, its dependencies and its
    approval gate allow; it is marked failed by failure number
    max_retries + 1;
    from then on, when it does not require approval, no sequence of public
    operations makes getNextTask return it. *)
Theorem failTask_retry_budget (st : Store) (id : Z) (r : Task.t)
    (errors : list string) :
  tasks_wf st →
  getTask id st = Some r →
  Task.retry_count r = 0 →
  0 ≤ Task.max_retries r →
  let k := Z.of_nat (length errors) in
  let st' := fail_each id errors st in
  (0 < k ≤ Task.max_retries r →
   ∃ e, last errors = Some e
     ∧ getTask id st'
       = Some (Task.set_error (Some e)
                 (Task.set_retry_count k (Task.set_status TaskStatus.pending r)))
     ∧ ((∃ g, getGoal (Task.goal_id r) st' = Some g
              ∧ Goal.status g = GoalStatus.active) →
        (∀ d, d ∈ Task.depends_on r →
              ∃ dt, getTask d st' = Some dt
                    ∧ Task.status dt = TaskStatus.completed) →
        (Task.requires_approval r = false ∨ is_Some (Task.approved_at r)) →
        Eligible st'
          (Task.set_error (Some e)
             (Task.set_retry_count k (Task.set_status TaskStatus.pending r)))))
  ∧ (k = Task.max_retries r + 1 →
     ∃ e, last errors = Some e
       ∧ getTask id st'
         = Some (failed_row (clock st) e
                   (Task.set_retry_count (Task.max_retries r) r))
       ∧ (Task.requires_approval r = false →
          ∀ ops t, getNextTask (run_ops ops st') = Some t → Task.id t ≠ id)).
Proof.
  intros Hwf Hr Hrc Hmax k st'. split.
  - intros Hk. unfold st', k in *. clear st' k.
    pose proof (fail_each_retries id errors st r Hr) as Hget.
    rewrite Hrc, Z.add_0_l in Hget. specialize (Hget ltac:(lia)).
    destruct (last errors) as [e|] eqn:Hlast.
    + exists e. split; [done|]. split; [by rewrite Hget|].
      intros Hgoal Hdeps Happ. split; [done|]. split; [by left|]. done.
    + apply last_None in Hlast. subst errors. simpl in Hk. lia.
  - intros Hk. unfold st', k in *. clear st' k.
    destruct errors as [|e errors _] using rev_ind; [simpl in Hk; lia|].
    rewrite length_app in Hk. simpl in Hk.
    exists e. rewrite last_snoc. split; [done|].
    rewrite fail_each_app. set (st1 := fail_each id errors st).
    pose proof (fail_each_retries id errors st r Hr) as Hget.
    rewrite Hrc in Hget. specialize (Hget ltac:(simpl; lia)). fold st1 in Hget.
    destruct (tasks_wf_fail_each id errors st Hwf) as (Hwf1 & Hseq1 & Hclock1).
    fold st1 in Hwf1, Hseq1, Hclock1.
    set (r1 := match last errors with
               | Some e0 =>
                   Task.set_error (Some e0)
                     (Task.set_retry_count (0 + Z.of_nat (length errors))
                        (Task.set_status TaskStatus.pending r))
               | None => r
               end) in *.
    assert (Task.retry_count r1 = Task.max_retries r
            ∧ Task.max_retries r1 = Task.max_retries r
            ∧ failed_row (clock st) e r1
              = failed_row (clock st) e
                  (Task.set_retry_count (Task.max_retries r) r)) as (Hrc1 & Hmax1 & Hrow).
    { unfold r1. destruct (last errors) as [e0|] eqn:Hlast.
      - split; [simpl; lia|]. split; [done|].
        unfold failed_row. simpl. f_equal. lia.
      - apply last_None in Hlast. subst errors. simpl in Hk.
        split; [lia|]. split; [done|]. unfold failed_row. simpl. f_equal. lia. }
    assert (fail_each id [e] st1
            = logAudit "task.failed" "task" id
                ("Task #" +:+ pretty id +:+ " failed: " +:+ e)
                (with_tasks
                   (sql_update (λ x, bool_decide (Task.id x = id))
                      (failed_row (clock st1) e) (tasks st1)) st1)) as Hfinal.
    { simpl. apply (failTask_final st1 id e r1 Hget). lia. }
    assert (getTask id (fail_each id [e] st1)
            = Some (failed_row (clock st) e
                      (Task.set_retry_count (Task.max_retries r) r))) as Hget'.
    { rewrite Hfinal, getTask_logAudit.
      rewrite (getTask_update_same st1 _ id r1) by done.
      by rewrite Hclock1, Hrow. }
    split; [done|].
    intros Hreq ops t. apply retired_not_next, retired_run_ops.
    destruct (tasks_wf_fail_each id [e] st1 Hwf1) as ([Hnd2 _] & Hseq2 & _).
    split.
    + rewrite Hseq2, Hseq1. destruct Hwf as [_ Hb].
      apply getTask_elem_of in Hr as [Hin <-]. by apply Hb.
    + intros x Hx Hid.
      pose proof (find_NoDup_key Task.id _ x Hnd2 Hx) as Hfind.
      rewrite Hid in Hfind. unfold getTask in Hget'. rewrite Hget' in Hfind.
      injection Hfind as <-. simpl. split; [done|]. split; [lia|done].
Qed.

(** An instance: a fresh task (max_retries 3) is failed by its fourth
    failure. *)
Lemma failTask_retry_budget_witness :
  Task.status <$> getTask 1 (fail_each 1 ["e1"; "e2"; "e3"; "e4"] two_tasks_store)
  = Some TaskStatus.failed.
Proof.
  destruct (failTask_retry_budget two_tasks_store 1 _ ["e1"; "e2"; "e3"; "e4"]
              (tasks_wf_computed two_tasks_store eq_refl) eq_refl eq_refl ltac:(by vm_compute))
    as [_ H].
  destruct (H eq_refl) as (e & _ & -> & _). done.
Defined.

(** C4 as stated fails: after exactly max_retries = 3 failures the task is
    pending with retry_count 3 and is what getNextTask returns; and a failed
    task that requires approval is queued again, and returned by
    getNextTask, after approveTask. *)
Lemma failTask_max_retries_times_still_pending :
  Task.retry_count <$> getTask 1 two_tasks_store = Some 0
  ∧ Task.max_retries <$> getTask 1 two_tasks_store = Some 3
  ∧ Task.status <$> getTask 1 (fail_each 1 ["e1"; "e2"; "e3"] two_tasks_store)
    = Some TaskStatus.pending
  ∧ Task.id <$> getNextTask (fail_each 1 ["e1"; "e2"; "e3"] two_tasks_store)
    = Some 1
  ∧ Task.status <$> getTask 1 (fail_each 1 ["e1"; "e2"; "e3"; "e4"] approval_store)
    = Some TaskStatus.failed
  ∧ Task.id <$> getNextTask
                  (approveTask 1
                     (fail_each 1 ["e1"; "e2"; "e3"; "e4"] approval_store)).2
    = Some 1.
Proof. by vm_compute. Qed.

(** ** The batch drain of the executor *)

Section processQueue_facts.
Import TaskExecutor.
Context {Env : Type}.
Variable executeWithSkill executeWithLLM : Task.t → Store → Env → Outcome * Env.

Lemma processQueue_loop_counts (fuel : nat) (acc : QueueSummary) (w : Store * Env) :
  let out := processQueue_loop executeWithSkill executeWithLLM fuel acc w in
  let n := processed out.1 - processed acc in
  n = (completed out.1 - completed acc) + (failed out.1 - failed acc)
  ∧ n = Z.of_nat (length (results out.1)) - Z.of_nat (length (results acc))
  ∧ 0 ≤ completed out.1 - completed acc
  ∧ 0 ≤ failed out.1 - failed acc
  ∧ n ≤ Z.of_nat fuel
  ∧ (n < Z.of_nat fuel → GoalStore.getNextTask out.2.1 = None).
Proof.
  revert acc w. induction fuel as [|fuel IH]; intros acc w; simpl.
  - repeat split; lia.
  - destruct (getNextTask w.1) as [task|] eqn:Hnext; simpl.
    + destruct (execute executeWithSkill executeWithLLM task w) as [result w1].
      set (acc1 := mkQueueSummary _ _ _ _).
      specialize (IH acc1 w1). simpl in IH.
      destruct IH as (H1 & H2 & H3 & H4 & H5 & H6).
      unfold acc1 in *. simpl in *. rewrite length_app in H2. simpl in H2.
      destruct result.1; repeat split; try lia; intros; apply H6; lia.
    + repeat split; try lia. done.
Qed.
End processQueue_facts.

(** C5, as the code has it: processQueue pulls the next eligible task and
    executes it, whether or not the one before failed, and stops only when
    maxTasks tasks have been processed or getNextTask has no task left.  A
    failed task with retries left is pulled again by the same run: of two
    fresh eligible tasks, the first always failing, processQueue(5) runs the
    first four times and the second once; the counts processed = 2,
    completed = 1, failed = 1 come out when the first task has no retry
    left. *)
Theorem processQueue_drains {Env : Type}
    (executeWithSkill executeWithLLM :
       Task.t → Store → Env → TaskExecutor.Outcome * Env)
    (maxTasks : Z) (w : Store * Env) :
  let out := TaskExecutor.processQueue executeWithSkill executeWithLLM maxTasks w in
  let s := out.1 in
  TaskExecutor.processed s = TaskExecutor.completed s + TaskExecutor.failed s
  ∧ TaskExecutor.processed s = Z.of_nat (length (TaskExecutor.results s))
  ∧ 0 ≤ TaskExecutor.completed s ∧ 0 ≤ TaskExecutor.failed s
  ∧ TaskExecutor.processed s ≤ Z.max 0 maxTasks
  ∧ (TaskExecutor.processed s < maxTasks → getNextTask out.2.1 = None)
  ∧ counts (TaskExecutor.processQueue first_task_fails first_task_fails 5
              (two_tasks_store, ())).1 = (5, 1, 4)
  ∧ counts (TaskExecutor.processQueue first_task_fails first_task_fails 5
              (fail_each 1 ["e1"; "e2"; "e3"] two_tasks_store, ())).1 = (2, 1, 1).
Proof.
  intros out s.
  pose proof (processQueue_loop_counts executeWithSkill executeWithLLM
                (Z.to_nat maxTasks) (TaskExecutor.mkQueueSummary 0 0 0 []) w) as H.
  simpl in H. fold (TaskExecutor.processQueue executeWithSkill executeWithLLM maxTasks w) in H.
  fold out in H. fold s in H.
  destruct H as (H1 & H2 & H3 & H4 & H5 & H6).
  split; [lia|]. split; [lia|]. split; [lia|]. split; [lia|]. split; [lia|].
  split; [intros Hlt; apply H6; lia|].
  split; by vm_compute.
Qed.

(** C5 as stated fails: with two fresh eligible tasks, the first always
    failing and the second succeeding, processQueue(5) returns processed = 5,
    completed = 1, failed = 4 (and 3, 2, 1 when only the first attempt of the
    first task fails), not 2, 1, 1. *)
Lemma processQueue_retries_failed_task :
  Task.id <$> getNextTask two_tasks_store = Some 1
  ∧ counts (TaskExecutor.processQueue first_task_fails first_task_fails 5
              (two_tasks_store, ())).1 = (5, 1, 4)
  ∧ TaskExecutor.taskId
      <$> TaskExecutor.results
            (TaskExecutor.processQueue first_task_fails first_task_fails 5
               (two_tasks_store, ())).1 = [1; 1; 1; 1; 2]
  ∧ counts (TaskExecutor.processQueue first_attempt_fails first_attempt_fails 5
              (two_tasks_store, false)).1 = (3, 2, 1).
Proof. by vm_compute. Qed.

(** ** The queue processing of the daemon *)

Lemma filter_length_map_lt {A : Type} (q : A → bool) (h : A → A) (l : list A) :
  (∀ x, q (h x) = true → q x = true) →
  (∃ x, x ∈ l ∧ q x = true ∧ q (h x) = false) →
  (length (List.filter q (map h l)) < length (List.filter q l))%nat.
Proof.
  intros Hmono. induction l as [|y l IH]; intros (x & Hx & Hq & Hqh).
  - by apply elem_of_nil in Hx.
  - assert (length (List.filter q (map h l)) ≤ length (List.filter q l))%nat as Hle.
    { clear -Hmono. induction l as [|z l IH]; simpl; [done|].
      destruct (q (h z)) eqn:Hz.
      - rewrite (Hmono z Hz). simpl. lia.
      - destruct (q z); simpl; lia. }
    simpl. apply elem_of_cons in Hx as [<-|Hx].
    + rewrite Hq, Hqh. simpl. lia.
    + specialize (IH (ex_intro _ x (conj Hx (conj Hq Hqh)))).
      destruct (q (h y)) eqn:Hy.
      * rewrite (Hmono y Hy). simpl. lia.
      * destruct (q y); simpl; lia.
Qed.

Lemma sql_update_twice {R : Type} (p : R → bool) (f1 f2 : R → R) (rows : list R) :
  (∀ x, p (f1 x) = p x) →
  sql_update p f2 (sql_update p f1 rows) = sql_update p (λ x, f2 (f1 x)) rows.
Proof.
  intros Hp. unfold sql_update. rewrite map_map. apply map_ext.
  intros x. destruct (p x) eqn:Hx; [by rewrite Hp, Hx|by rewrite Hx].
Qed.

Lemma tasks_completeTask (id : Z) (output : string) (st : Store) :
  tasks (completeTask id output st)
  = sql_update (λ r, bool_decide (Task.id r = id))
      (completed_row (clock st) output) (tasks st).
Proof.
  unfold completeTask.
  match goal with |- context [getTask id ?s] => destruct (getTask id s) end;
    [by rewrite tasks_updateGoalProgress|done].
Qed.

(** A successful round takes the task it ran out of the waiting ones. *)
Lemma waiting_after_success (task : Task.t) (result : string) (d : DaemonService.t) :
  getNextTask (DaemonService.goalStore d) = Some task →
  (DaemonService.waiting (DaemonService.goalStore (after_success task result d))
   < DaemonService.waiting (DaemonService.goalStore d))%nat.
Proof.
  intros Hnext. apply getNextTask_waiting in Hnext as [Hin Hw].
  unfold DaemonService.waiting, after_success. simpl.
  rewrite tasks_completeTask. unfold startTask. simpl.
  rewrite sql_update_twice by done.
  apply filter_length_map_lt.
  - intros x. case_bool_decide; [done|tauto].
  - exists task. split; [done|]. split; [done|].
    by rewrite bool_decide_eq_true_2.
Qed.

Lemma processGoalQueue_fuel_step (run : Task.t → string + string) (fuel : nat)
    (d : DaemonService.t) :
  DaemonService.processGoalQueue_fuel run (S fuel) d
  = match getNextTask (DaemonService.goalStore d) with
    | None => Some d
    | Some task =>
        match run task with
        | inl result =>
            DaemonService.processGoalQueue_fuel run fuel (after_success task result d)
        | inr error => Some (after_failure task error d)
        end
    end.
Proof. done. Qed.

(** With more fuel than waiting tasks the recursion ends, and the result
    does not depend on the fuel. *)
Lemma processGoalQueue_fuel_enough (run : Task.t → string + string) (n : nat) :
  ∀ (d : DaemonService.t) (m : nat),
    (DaemonService.waiting (DaemonService.goalStore d) < n)%nat →
    (DaemonService.waiting (DaemonService.goalStore d) < m)%nat →
    is_Some (DaemonService.processGoalQueue_fuel run n d)
    ∧ DaemonService.processGoalQueue_fuel run n d
      = DaemonService.processGoalQueue_fuel run m d.
Proof.
  induction n as [|n IH]; intros d m Hn Hm; [lia|].
  destruct m as [|m]; [lia|].
  rewrite !processGoalQueue_fuel_step.
  destruct (getNextTask (DaemonService.goalStore d)) as [task|] eqn:Hnext; [|done].
  destruct (run task) as [result|error]; [|done].
  pose proof (waiting_after_success task result d Hnext).
  apply IH; lia.
Qed.

Lemma getTask_startTask_other (st : Store) (id id' : Z) :
  id' ≠ id → getTask id' (startTask id st) = getTask id' st.
Proof.
  intros Hne. unfold startTask. rewrite getTask_logAudit.
  by apply getTask_update_other.
Qed.

Lemma getTask_failTask_other (st : Store) (id id' : Z) (error : string) :
  id' ≠ id → getTask id' (failTask id error st) = getTask id' st.
Proof.
  intros Hne. unfold failTask. destruct (getTask id st) as [task|]; [|done].
  case_bool_decide; rewrite getTask_logAudit; by apply getTask_update_other.
Qed.

Lemma processGoalQueueWith_unfold (run : Task.t → string + string)
    (d : DaemonService.t) :
  DaemonService.processGoalQueueWith run d
  = match getNextTask (DaemonService.goalStore d) with
    | None => Some d
    | Some task =>
        match run task with
        | inl result =>
            DaemonService.processGoalQueueWith run (after_success task result d)
        | inr error => Some (after_failure task error d)
        end
    end.
Proof.
  unfold DaemonService.processGoalQueueWith.
  rewrite processGoalQueue_fuel_step.
  destruct (getNextTask (DaemonService.goalStore d)) as [task|] eqn:Hnext; [|done].
  destruct (run task) as [result|error]; [|done].
  pose proof (waiting_after_success task result d Hnext).
  apply processGoalQueue_fuel_enough; lia.
Qed.

(** C6: one invocation of processGoalQueue returns at once when
    getNextTask has no task; otherwise it starts the task and executes it;
    on success it goes on with the queue from the state the round left, on
    failure it records the failure with failTask and stops, leaving every
    other task as it was.  The recursion always ends.  With the executeTask
    of the source, which never throws, it drains the queue.  With two
    eligible tasks, the first failing, one invocation processes one task and
    the second task is still pending and was never started. *)
Theorem processGoalQueue_fail_stop (run : Task.t → string + string)
    (d : DaemonService.t) :
  DaemonService.processGoalQueueWith run d
  = match getNextTask (DaemonService.goalStore d) with
    | None => Some d
    | Some task =>
        match run task with
        | inl result =>
            DaemonService.processGoalQueueWith run (after_success task result d)
        | inr error => Some (after_failure task error d)
        end
    end
  ∧ is_Some (DaemonService.processGoalQueueWith run d)
  ∧ DaemonService.processGoalQueue d
    = match getNextTask (DaemonService.goalStore d) with
      | None => Some d
      | Some task =>
          DaemonService.processGoalQueue
            (after_success task (DaemonService.executeTask task) d)
      end
  ∧ (∀ task error id',
       id' ≠ Task.id task →
       getTask id' (DaemonService.goalStore (after_failure task error d))
       = getTask id' (DaemonService.goalStore d))
  ∧ (∀ task,
       Task.status
         <$> getTask (Task.id task)
               (startTask (Task.id task) (DaemonService.goalStore d))
       = (λ _, TaskStatus.running)
         <$> getTask (Task.id task) (DaemonService.goalStore d))
  ∧ (let d' := DaemonService.processGoalQueueWith first_task_throws
                 (fresh_daemon two_tasks_store) in
     DaemonService.tasksProcessed ∘ DaemonService.stats <$> d' = Some 1
     ∧ DaemonService.tasksFailed ∘ DaemonService.stats <$> d' = Some 1
     ∧ DaemonService.tasksCompleted ∘ DaemonService.stats <$> d' = Some 0
     ∧ (d' ≫= λ x, Task.status <$> getTask 2 (DaemonService.goalStore x))
       = Some TaskStatus.pending
     ∧ (d' ≫= λ x, Task.started_at <$> getTask 2 (DaemonService.goalStore x))
       = Some None
     ∧ (d' ≫= λ x, Task.retry_count <$> getTask 1 (DaemonService.goalStore x))
       = Some 1).
Proof.
  split; [|split; [|split; [|split; [|split]]]].
  - apply processGoalQueueWith_unfold.
  - unfold DaemonService.processGoalQueueWith.
    apply (processGoalQueue_fuel_enough run _ d
             (S (DaemonService.waiting (DaemonService.goalStore d)))); lia.
  - unfold DaemonService.processGoalQueue.
    rewrite processGoalQueueWith_unfold at 1.
    by destruct (getNextTask (DaemonService.goalStore d)).
  - intros task error id' Hne. unfold after_failure. simpl.
    rewrite getTask_failTask_other, getTask_startTask_other by done. done.
  - intros task. unfold startTask. rewrite getTask_logAudit.
    rewrite getTask_update by done.
    destruct (getTask (Task.id task) (DaemonService.goalStore d)) as [r|] eqn:Hr;
      [|done].
    simpl. apply getTask_elem_of in Hr as [_ Hid].
    by rewrite bool_decide_eq_true_2.
  - by vm_compute.
Qed.

(** ** The decomposer *)

Lemma find_app_None {A : Type} (p : A → bool) (l1 l2 : list A) :
  find p l1 = None → find p (l1 ++ l2) = find p l2.
Proof.
  induction l1 as [|x l1 IH]; simpl; [done|]. destruct (p x); [done|apply IH].
Qed.

Lemma getTask_fresh (st : Store) (id : Z) :
  tasks_bounded st → tasks_seq st < id → getTask id st = None.
Proof.
  intros Hb Hlt. destruct (getTask id st) as [r|] eqn:Hr; [|done].
  apply getTask_elem_of in Hr as [Hin Hid]. specialize (Hb r Hin). lia.
Qed.

Lemma tasks_bounded_computed (st : Store) :
  bool_decide (Forall (λ x, Task.id x ≤ tasks_seq st) (tasks st)) = true →
  tasks_bounded st.
Proof.
  intros H. apply bool_decide_eq_true in H. unfold tasks_bounded.
  by apply Forall_forall.
Qed.

(** addTask on an existing goal inserts one row under a fresh id and
    returns it. *)
Lemma addTask_ok (goalId : Z) (title : string) (options : AddTaskOptions) (st : Store) :
  is_Some (getGoal goalId st) → tasks_bounded st →
  ∃ st', addTask goalId title options st
         = Ok (inserted_task goalId title options st) st'
    ∧ tasks st' = (tasks st ++ [inserted_task goalId title options st])%list
    ∧ goals st' = goals st
    ∧ tasks_seq st' = tasks_seq st + 1
    ∧ clock st' = clock st
    ∧ tasks_bounded st'.
Proof.
  intros Hg Hb. unfold addTask. rewrite bool_decide_eq_true_2 by done.
  fold (inserted_task goalId title options st).
  eexists. split.
  { f_equal. unfold getTask, logAudit. simpl.
    rewrite find_app_None by (apply (getTask_fresh st); [done|lia]).
    simpl. by rewrite bool_decide_eq_true_2. }
  split; [done|]. split; [done|]. split; [done|]. split; [done|].
  intros x Hx. simpl in *. apply elem_of_app in Hx as [Hx|Hx].
  - specialize (Hb x Hx). lia.
  - apply list_elem_of_singleton in Hx as ->. simpl. lia.
Qed.

Lemma omap_pointwise {A B : Type} (f g : A → option B) (l : list A) :
  (∀ x, f x = g x) → omap f l = omap g l.
Proof.
  intros Hfg. induction l as [|x l IH]; [done|]. csimpl. by rewrite Hfg, IH.
Qed.

Lemma omap_in_range (b i : Z) (l : list Z) :
  omap (λ j, if decide (0 ≤ j < i) then Some (b + 1 + j) else None) l
  = (λ j, b + 1 + j) <$> filter (λ j, 0 ≤ j < i) l.
Proof.
  induction l as [|j l IH]; [done|]. rewrite filter_cons. csimpl. rewrite IH.
  by destruct (decide (0 ≤ j < i)).
Qed.

(** The loop of decomposeAndCreate: position n of the array becomes the
    task with id base + 1 + n, and its depends_on are the ids of the earlier
    positions that its dependsOnIndex names. *)
Lemma createTasks_spec (goalId : Z) (defs : list GoalDecomposer.DecomposedTask) :
  ∀ (i : Z) (indexToId : gmap Z Z) (created : list Task.t) (st : Store),
    is_Some (getGoal goalId st) → tasks_bounded st → 0 ≤ i →
    (∀ j, indexToId !! j
          = if decide (0 ≤ j < i) then Some (tasks_seq st - i + 1 + j) else None) →
    ∃ new st',
      GoalDecomposer.createTasks goalId defs i indexToId created st
      = Ok (created ++ new)%list st'
      ∧ length new = length defs
      ∧ tasks st' = (tasks st ++ new)%list
      ∧ goals st' = goals st
      ∧ ∀ (n : nat) def, defs !! n = Some def →
          new !! n
          = Some (Task.mk (tasks_seq st + 1 + Z.of_nat n) goalId
                    (GoalDecomposer.title def)
                    (Some (GoalDecomposer.description def))
                    TaskStatus.pending (GoalDecomposer.skill def)
                    (default (JObj []) (GoalDecomposer.input def)) None
                    ((λ j, tasks_seq st - i + 1 + j)
                       <$> filter (λ j, 0 ≤ j < i + Z.of_nat n)
                             (default [] (GoalDecomposer.dependsOnIndex def)))
                    None None None 0 3 None
                    (default false (GoalDecomposer.requiresApproval def))
                    None (clock st)).
Proof.
  induction defs as [|def defs IH]; intros i indexToId created st Hg Hb Hi Hmap.
  - exists [], st. simpl. rewrite !app_nil_r.
    split; [done|]. split; [done|]. split; [done|]. split; [done|].
    intros n def Hd. by rewrite lookup_nil in Hd.
  - simpl.
    set (options := mkAddTaskOptions _ _ _ _ _ _).
    destruct (addTask_ok goalId (GoalDecomposer.title def) options st Hg Hb)
      as (st1 & -> & Ht1 & Hg1 & Hseq1 & Hclock1 & Hb1).
    set (row := inserted_task goalId (GoalDecomposer.title def) options st).
    destruct (IH (i + 1) (<[i := Task.id row]> indexToId) (created ++ [row])%list st1)
      as (new & st' & -> & Hlen & Ht' & Hg' & Hrows).
    + unfold getGoal. by rewrite Hg1.
    + done.
    + lia.
    + intros j. rewrite lookup_insert. rewrite Hmap, Hseq1.
      destruct (decide (i = j)) as [<-|Hne].
      * rewrite decide_True by lia. simpl. f_equal. lia.
      * destruct (decide (0 ≤ j < i)).
        -- rewrite decide_True by lia. f_equal. lia.
        -- by rewrite decide_False by lia.
    + exists (row :: new), st'. rewrite <- app_assoc. simpl.
      split; [done|]. split; [by rewrite Hlen|].
      split; [by rewrite Ht', Ht1, <- app_assoc|].
      split; [by rewrite Hg', Hg1|].
      intros [|n] d Hd; simpl in Hd.
      * injection Hd as <-. simpl. f_equal. unfold row, inserted_task, options.
        simpl. f_equal; [lia|]. rewrite Z.add_0_r.
        rewrite <- omap_in_range. apply omap_pointwise. apply Hmap.
      * simpl. rewrite (Hrows n d Hd). rewrite Hseq1, Hclock1. f_equal.
        f_equal; [lia|].
        assert (i + 1 + Z.of_nat n = i + Z.of_nat (S n)) as -> by lia.
        apply list_fmap_ext. intros _ j _. lia.
Qed.

(** C7: decomposeAndCreate inserts the decomposed tasks in array order;
    the task made from position n gets the next id of the store, and its
    depends_on holds exactly the ids given to the earlier positions that its
    dependsOnIndex names, in that order; indices of its own or a later
    position (or outside the array) are dropped without error.  For the
    response [A, B(dependsOnIndex = [0])], in a store that already holds two
    tasks, A gets id 3 and B depends on 3. *)
Theorem decomposeAndCreate_dependencies `{Builtins} (content : string)
    (result : GoalDecomposer.DecompositionResult) (goal : Goal.t) (st : Store) :
  GoalDecomposer.parseResponse content = Some result →
  is_Some (getGoal (Goal.id goal) st) →
  tasks_bounded st →
  ∃ created st',
    GoalDecomposer.decomposeAndCreate content goal st = Some (Ok created st')
    ∧ length created = length (GoalDecomposer.tasks result)
    ∧ tasks st' = (tasks st ++ created)%list
    ∧ (∀ (n : nat) def,
         GoalDecomposer.tasks result !! n = Some def →
         ∃ task, created !! n = Some task
           ∧ Task.id task = tasks_seq st + 1 + Z.of_nat n
           ∧ Task.title task = GoalDecomposer.title def
           ∧ Task.depends_on task
             = (λ j : Z, tasks_seq st + 1 + j)
                 <$> (filter (λ j : Z, 0 ≤ j < Z.of_nat n)
                        (default [] (GoalDecomposer.dependsOnIndex def)) : list Z))
    ∧ created_summary
        (@GoalDecomposer.decomposeAndCreate test_builtins "plan"
           (goal_of 1 two_tasks_store) two_tasks_store)
      = Some [(3, "A", []); (4, "B", [3])].
Proof.
  intros Hparse Hg Hb.
  destruct (createTasks_spec (Goal.id goal) (GoalDecomposer.tasks result)
              0 ∅ [] st Hg Hb ltac:(lia)) as (created & st1 & Hc & Hlen & Ht & _ & Hrows).
  { intros j. rewrite lookup_empty. by rewrite decide_False by lia. }
  simpl in Hc.
  unfold GoalDecomposer.decomposeAndCreate. rewrite Hparse. simpl.
  unfold GoalDecomposer.createFrom. rewrite Hc.
  eexists created, _. split; [done|]. split; [done|]. split; [done|].
  split; [|by vm_compute].
  intros n def Hdef. rewrite (Hrows n def Hdef). eexists. split; [done|]. simpl.
  split; [done|]. split; [done|].
  rewrite Z.add_0_l. apply list_fmap_ext. intros _ j _. lia.
Qed.

(** An instance: the response [A, B(dependsOnIndex = [0])]. *)
Lemma decomposeAndCreate_dependencies_witness :
  ∃ created st',
    @GoalDecomposer.decomposeAndCreate test_builtins "plan"
      (goal_of 1 two_tasks_store) two_tasks_store = Some (Ok created st')
    ∧ length created = 2%nat.
Proof.
  destruct (@decomposeAndCreate_dependencies test_builtins "plan" _
              (goal_of 1 two_tasks_store) two_tasks_store eq_refl
              ltac:(by eexists)
              (tasks_bounded_computed two_tasks_store eq_refl))
    as (created & st' & Hc & Hlen & _).
  exists created, st'. split; [done|]. by rewrite Hlen.
Defined.

(** ** Code units of a text *)
Ltac div_lia := zify; Z.to_euclidean_division_equations; lia.

Ltac ltb_true := rewrite (proj2 (N.ltb_lt _ _)) by div_lia.
Ltac ltb_false := rewrite (proj2 (N.ltb_ge _ _)) by div_lia.
Ltac byte_value := rewrite Ascii.N_ascii_embedding by div_lia.

Lemma code_units_utf8_1 (u : N) (s : string) :
  (u < 0x80)%N →
  code_units_from 0 0%N (utf8_1 u s) = u :: code_units_from 0 0%N s.
Proof.
  intros Hu. unfold utf8_1. cbn [code_units_from]. byte_value. by ltb_true.
Qed.

Lemma code_units_utf8_2 (u : N) (s : string) :
  (0x80 ≤ u < 0x800)%N →
  code_units_from 0 0%N (utf8_2 u s) = u :: code_units_from 0 0%N s.
Proof.
  intros Hu. unfold utf8_2. cbn [code_units_from]. repeat byte_value.
  ltb_false. ltb_true. cbn [code_units_from]. unfold units_of_code_point.
  ltb_true. cbn [app]. f_equal. div_lia.
Qed.

Lemma code_units_utf8_3 (u : N) (s : string) :
  (0x800 ≤ u < 0x10000)%N →
  code_units_from 0 0%N (utf8_3 u s) = u :: code_units_from 0 0%N s.
Proof.
  intros Hu. unfold utf8_3. cbn [code_units_from]. repeat byte_value.
  ltb_false. ltb_false. ltb_true. cbn [code_units_from].
  unfold units_of_code_point. ltb_true. cbn [app]. f_equal. div_lia.
Qed.


Lemma code_units_utf8_4_cp (cp : N) (s : string) :
  (0x10000 ≤ cp < 0x110000)%N →
  code_units_from 0 0%N (utf8_4 cp s)
  = (units_of_code_point cp ++ code_units_from 0 0%N s)%list.
Proof.
  intros Hcp. unfold utf8_4. cbn [code_units_from]. repeat byte_value.
  ltb_false. ltb_false. ltb_false. cbn [code_units_from].
  f_equal. f_equal. div_lia.
Qed.

Lemma surrogate_pair (u v : N) :
  high_surrogate u = true → low_surrogate v = true →
  (0x10000 ≤ 0x10000 + (u - 0xD800) * 0x400 + (v - 0xDC00) < 0x110000)%N
  ∧ units_of_code_point (0x10000 + (u - 0xD800) * 0x400 + (v - 0xDC00))%N = [u; v].
Proof.
  unfold high_surrogate, low_surrogate.
  rewrite !andb_true_iff, !N.leb_le, !N.ltb_lt. intros [Hu1 Hu2] [Hv1 Hv2].
  split; [lia|].
  unfold units_of_code_point. ltb_false.
  f_equal; [div_lia|]. f_equal. div_lia.
Qed.

Lemma of_code_units_cons (u : N) (rest : list N) :
  of_code_units (u :: rest)
  = if (u <? 0x80)%N then utf8_1 u (of_code_units rest)
    else if (u <? 0x800)%N then utf8_2 u (of_code_units rest)
    else
      match rest with
      | v :: rest' =>
          if high_surrogate u && low_surrogate v
          then utf8_4 (0x10000 + (u - 0xD800) * 0x400 + (v - 0xDC00))%N
                 (of_code_units rest')
          else utf8_3 u (of_code_units rest)
      | [] => utf8_3 u (of_code_units rest)
      end.
Proof. by destruct rest. Qed.

Lemma code_units_of_code_units (us : list N) :
  Forall (λ u, (u < 0x10000)%N) us → code_units (of_code_units us) = us.
Proof.
  unfold code_units.
  assert (∀ n us, (length us ≤ n)%nat → Forall (λ u, (u < 0x10000)%N) us →
                  code_units_from 0 0%N (of_code_units us) = us) as H;
    [|by apply (H (length us))].
  clear us. induction n as [|n IH]; intros us Hlen Hall.
  { destruct us; [done|simpl in Hlen; lia]. }
  destruct us as [|u rest]; [done|].
  apply Forall_cons in Hall as [Hu Hrest]. simpl in Hlen.
  rewrite of_code_units_cons.
  destruct (u <? 0x80)%N eqn:H1.
  { apply N.ltb_lt in H1. rewrite code_units_utf8_1 by done.
    f_equal. apply IH; [lia|done]. }
  apply N.ltb_ge in H1.
  destruct (u <? 0x800)%N eqn:H2.
  { apply N.ltb_lt in H2. rewrite code_units_utf8_2 by done.
    f_equal. apply IH; [lia|done]. }
  apply N.ltb_ge in H2.
  assert (code_units_from 0 0%N (utf8_3 u (of_code_units rest)) = u :: rest) as H3.
  { rewrite code_units_utf8_3 by done. f_equal. apply IH; [lia|done]. }
  destruct rest as [|v rest']; [done|].
  destruct (high_surrogate u && low_surrogate v) eqn:Hpair; [|done].
  apply andb_true_iff in Hpair as [Hhigh Hlow].
  destruct (surrogate_pair u v Hhigh Hlow) as [Hcp Hunits].
  rewrite code_units_utf8_4_cp by done. rewrite Hunits. cbn [app].
  f_equal. f_equal. apply Forall_cons in Hrest as [_ Hrest'].
  apply IH; [simpl in Hlen; lia|done].
Qed.

Lemma units_of_code_point_bounded (cp : N) :
  (cp < 0x200000)%N → Forall (λ u, (u < 0x10000)%N) (units_of_code_point cp).
Proof.
  intros Hcp. unfold units_of_code_point.
  destruct (cp <? 0x10000)%N eqn:H; [apply N.ltb_lt in H|apply N.ltb_ge in H].
  - by repeat constructor.
  - repeat constructor; div_lia.
Qed.

Lemma code_units_from_bounded (s : string) :
  ∀ pending acc, reading pending acc →
                 Forall (λ u, (u < 0x10000)%N) (code_units_from pending acc s).
Proof.
  induction s as [|c s IH]; intros pending acc Hr; [constructor|].
  pose proof (Ascii.N_ascii_bounded c) as Hc.
  cbn [code_units_from].
  destruct pending as [|[|[|[|p]]]]; simpl in Hr; try done.
  - destruct (_ <? 0x80)%N eqn:H1.
    { apply N.ltb_lt in H1. constructor; [lia|by apply IH]. }
    destruct (_ <? 0xE0)%N; [apply IH; simpl; div_lia|].
    destruct (_ <? 0xF0)%N; apply IH; simpl; div_lia.
  - apply Forall_app. split; [|by apply IH].
    apply units_of_code_point_bounded. div_lia.
  - apply IH. simpl. div_lia.
  - apply IH. simpl. div_lia.
Qed.

Lemma code_units_slice0 (n : nat) (s : string) :
  code_units (slice0 n s) = take n (code_units s).
Proof.
  unfold slice0. apply code_units_of_code_units.
  apply Forall_take. by apply code_units_from_bounded.
Qed.

Lemma slice0_short (n : nat) (s : string) :
  (length (code_units s) ≤ n)%nat → of_code_units (code_units s) = s →
  slice0 n s = s.
Proof. intros Hlen Hs. unfold slice0. by rewrite take_ge. Qed.

Lemma try_parse_unparseable `{Builtins} (content : string) :
  match JSON_parse (trim (GoalDecomposer.jsonStr content)) with
  | inr _ => True
  | inl v => ∀ items, GoalDecomposer.prop v "tasks" ≠ Some (JArr items)
  end →
  ∃ message, GoalDecomposer.try_parse content = GoalDecomposer.Raised message.
Proof.
  unfold GoalDecomposer.try_parse.
  destruct (JSON_parse (trim (GoalDecomposer.jsonStr content))) as [v|message];
    [|by eexists].
  intros Hno.
  destruct (GoalDecomposer.prop v "tasks") as [[| | | |items|]|] eqn:Hp;
    try (destruct v; by eexists).
  by destruct (Hno items).
Qed.

(** C8: when the response cannot be parsed as JSON, or the parsed value
    has no tasks array, decomposeAndCreate returns normally and creates
    exactly one task: Execute goal manually, with requires_approval set and
    a description that is a fixed prefix followed by a text of at most 200
    code units.  Where the first 200 code units of the response hold no
    surrogate without its partner, that text is the slice of the response:
    its code units are the first 200 code units of the response, and it is
    the whole response when the response has at most 200.  Responses of
    one-, two-, three- and four-byte characters are cut after 200 code
    units, not after 200 bytes. *)
Theorem decomposeAndCreate_unparseable `{Builtins} (content : string)
    (goal : Goal.t) (st : Store) :
  is_Some (getGoal (Goal.id goal) st) →
  tasks_bounded st →
  match JSON_parse (trim (GoalDecomposer.jsonStr content)) with
  | inr _ => True
  | inl v => ∀ items, GoalDecomposer.prop v "tasks" ≠ Some (JArr items)
  end →
  (∃ task st' d,
     GoalDecomposer.decomposeAndCreate content goal st = Some (Ok [task] st')
     ∧ tasks st' = (tasks st ++ [task])%list
     ∧ task
       = Task.mk (tasks_seq st + 1) (Goal.id goal) "Execute goal manually"
           (Some ("LLM decomposition failed. Original response: " +:+ d))
           TaskStatus.pending None (JObj []) None [] None None None 0 3 None
           true None (clock st)
     ∧ (length (code_units d) ≤ 200)%nat
     ∧ (well_formed (take 200 (code_units content)) = true →
        d = slice0 200 content
        ∧ code_units d = take 200 (code_units content)
        ∧ ((length (code_units content) ≤ 200)%nat →
           of_code_units (code_units content) = content → d = content)))
  ∧ created_descriptions
      (@GoalDecomposer.decomposeAndCreate test_builtins "Sorry, I cannot help."
         (goal_of 1 two_tasks_store) two_tasks_store)
    = Some [Some ("LLM decomposition failed. Original response: "
                    +:+ "Sorry, I cannot help.")]
  ∧ created_descriptions
      (@GoalDecomposer.decomposeAndCreate test_builtins (repeat_text 101 e_acute)
         (goal_of 1 two_tasks_store) two_tasks_store)
    = Some [Some ("LLM decomposition failed. Original response: "
                    +:+ repeat_text 101 e_acute)]
  ∧ created_descriptions
      (@GoalDecomposer.decomposeAndCreate test_builtins (repeat_text 250 e_acute)
         (goal_of 1 two_tasks_store) two_tasks_store)
    = Some [Some ("LLM decomposition failed. Original response: "
                    +:+ repeat_text 200 e_acute)]
  ∧ created_descriptions
      (@GoalDecomposer.decomposeAndCreate test_builtins (repeat_text 201 euro_sign)
         (goal_of 1 two_tasks_store) two_tasks_store)
    = Some [Some ("LLM decomposition failed. Original response: "
                    +:+ repeat_text 200 euro_sign)]
  ∧ created_descriptions
      (@GoalDecomposer.decomposeAndCreate test_builtins
         (repeat_text 198 "a" +:+ grinning_face +:+ "z")
         (goal_of 1 two_tasks_store) two_tasks_store)
    = Some [Some ("LLM decomposition failed. Original response: "
                    +:+ repeat_text 198 "a" +:+ grinning_face)]
  ∧ created_descriptions
      (@GoalDecomposer.decomposeAndCreate test_builtins (repeat_text 300 "a")
         (goal_of 1 two_tasks_store) two_tasks_store)
    = Some [Some ("LLM decomposition failed. Original response: "
                    +:+ repeat_text 200 "a")].
Proof.
  intros Hg Hb Hbad. split; [|by vm_compute].
  destruct (try_parse_unparseable content Hbad) as [message Hraise].
  unfold GoalDecomposer.decomposeAndCreate, GoalDecomposer.parseResponse.
  rewrite Hraise. simpl. unfold GoalDecomposer.createFrom. simpl.
  set (options := mkAddTaskOptions _ _ _ _ _ _).
  destruct (addTask_ok (Goal.id goal) "Execute goal manually" options st Hg Hb)
    as (st1 & -> & Ht1 & _).
  eexists _, _, (slice0 200 content).
  split; [done|]. split; [done|]. split; [done|].
  split.
  { rewrite code_units_slice0, length_take. lia. }
  intros _. split; [done|]. split; [apply code_units_slice0|].
  apply slice0_short.
Qed.

(** An instance: a response that is no JSON. *)
Lemma decomposeAndCreate_unparseable_witness :
  ∃ task st',
    @GoalDecomposer.decomposeAndCreate test_builtins "Sorry, I cannot help."
      (goal_of 1 two_tasks_store) two_tasks_store = Some (Ok [task] st')
    ∧ Task.requires_approval task = true.
Proof.
  destruct (@decomposeAndCreate_unparseable test_builtins "Sorry, I cannot help."
              (goal_of 1 two_tasks_store) two_tasks_store
              ltac:(by eexists)
              (tasks_bounded_computed two_tasks_store eq_refl) I)
    as [(task & st' & d & Hc & _ & Htask & _) _].
  exists task, st'. split; [done|]. by rewrite Htask.
Defined.

(** ** The audit trail *)

Lemma sql_update_none {R : Type} (p : R → bool) (f : R → R) (rows : list R) :
  sql_changes p rows = 0%nat → sql_update p f rows = rows.
Proof.
  unfold sql_changes, sql_update. induction rows as [|x rows IH]; simpl; [done|].
  destruct (p x); simpl; [done|]. intros Hlen. by rewrite IH.
Qed.

Lemma sql_changes_pos {R : Type} (p : R → bool) (rows : list R) :
  (0 < sql_changes p rows)%nat ↔ ∃ x, x ∈ rows ∧ p x = true.
Proof.
  unfold sql_changes. split.
  - intros Hlen. destruct (List.filter p rows) as [|x l] eqn:Hf; [simpl in Hlen; lia|].
    exists x. apply filter_elem_of. rewrite Hf. by left.
  - intros (x & Hx & Hp).
    assert (x ∈ List.filter p rows) as Hin by (by apply filter_elem_of).
    destruct (List.filter p rows); [by apply elem_of_nil in Hin|simpl; lia].
Qed.

Lemma audit_updateGoalProgress (id : Z) (st : Store) :
  audit_events (updateGoalProgress id st)
  = audit_events st
    ∨ ∃ ev, audit_events (updateGoalProgress id st) = (audit_events st ++ [ev])%list
            ∧ event_type ev = "goal.completed" ∧ entity_id ev = id.
Proof.
  unfold updateGoalProgress. case_bool_decide; [by left|].
  destruct (Qle_bool _ _); [|by left].
  right. eexists. by split.
Qed.

Ltac audit_tail :=
  first [ eexists; rewrite <- ?app_assoc; reflexivity
        | exists []; by rewrite app_nil_r ].

(** Every operation appends to the audit table, or leaves it alone. *)
Lemma audit_apply_op (op : Op) (st : Store) :
  ∃ new, audit_events (apply_op op st) = (audit_events st ++ new)%list.
Proof.
  destruct op as [title o|gid s|gid|gid|gid title o|tid|tid out|tid e|tid
                 |c cat src tags|now]; simpl.
  - unfold addGoal. repeat case_match; simpl; audit_tail.
  - audit_tail.
  - destruct (audit_updateGoalProgress gid st) as [->|(ev & -> & _)]; audit_tail.
  - unfold removeGoal. repeat case_match; simpl; audit_tail.
  - unfold addTask. case_match; simpl; audit_tail.
  - audit_tail.
  - unfold completeTask.
    match goal with |- context [getTask tid ?s] => destruct (getTask tid s) as [r|] end;
      [|audit_tail].
    match goal with
    | |- context [updateGoalProgress ?g ?s] =>
        destruct (audit_updateGoalProgress g s) as [->|(ev & -> & _)]
    end; simpl; audit_tail.
  - unfold failTask. destruct (getTask tid st); [|audit_tail].
    case_bool_decide; audit_tail.
  - unfold approveTask. case_bool_decide; simpl; audit_tail.
  - audit_tail.
  - audit_tail.
Qed.

Lemma with_tasks_same (st : Store) : with_tasks (tasks st) st = st.
Proof. by destruct st. Qed.

(** C9, as the code has it: no operation rewrites or deletes an audit row
    (the table only grows at its end); addGoal, updateGoalStatus, addTask,
    startTask, completeTask, failTask and approveTask append at least one row
    whenever they change a goal or a task; updateGoalProgress appends one
    (goal.completed) when the recomputed progress reaches 1, and only then:
    for a goal without tasks, and for a progress below 1, it appends
    none. *)
Theorem audit_trail_append_only (op : Op) (st : Store) :
  let st' := apply_op op st in
  (∃ new, audit_events st' = (audit_events st ++ new)%list)
  ∧ match op with
    | OpRemoveGoal _ | OpUpdateGoalProgress _ | OpSaveMemory _ _ _ _ | OpTick _ => True
    | _ =>
        goals st' ≠ goals st ∨ tasks st' ≠ tasks st →
        (length (audit_events st) < length (audit_events st'))%nat
    end
  ∧ (∀ id, op = OpUpdateGoalProgress id →
           total_tasks st id ≠ 0%nat →
           completed_tasks st id = total_tasks st id →
           ∃ ev, audit_events st' = (audit_events st ++ [ev])%list
                 ∧ event_type ev = "goal.completed"
                 ∧ entity_type ev = "goal" ∧ entity_id ev = id)
  ∧ (∀ id, op = OpUpdateGoalProgress id →
           total_tasks st id = 0%nat
           ∨ completed_tasks st id ≠ total_tasks st id →
           audit_events st' = audit_events st).
Proof.
  intros st'. split; [apply audit_apply_op|]. split; [|split].
  - unfold st'. destruct op as [title o|gid s|gid|gid|gid title o|tid|tid out|tid e|tid
                               |c cat src tags|now]; try done; simpl.
    + unfold addGoal. repeat case_match; simpl;
        first [by intros [?|?]|intros _; rewrite length_app; simpl; lia].
    + intros _. rewrite length_app. simpl. lia.
    + unfold addTask. case_match; simpl; [|intros [?|?]; done].
      intros _. rewrite length_app. simpl. lia.
    + intros _. rewrite length_app. simpl. lia.
    + intros _. destruct (audit_apply_op (OpCompleteTask tid out) st) as [new Hnew].
      simpl in Hnew. unfold completeTask in *.
      match goal with |- context [getTask tid ?s] => destruct (getTask tid s) as [r|] end;
        [|simpl; rewrite length_app; simpl; lia].
      match goal with
      | |- context [updateGoalProgress ?g ?s] =>
          destruct (audit_updateGoalProgress g s) as [->|(ev & -> & _)]
      end; simpl; rewrite ?length_app; simpl; lia.
    + unfold failTask. destruct (getTask tid st); [|intros [?|?]; done].
      intros _. case_bool_decide; simpl; rewrite length_app; simpl; lia.
    + unfold approveTask. case_bool_decide as Hc; simpl.
      * intros _. rewrite length_app. simpl. lia.
      * rewrite sql_update_none by lia. intros [?|?]; done.
  - intros id -> Hn Hall. unfold st'. simpl. unfold updateGoalProgress.
    rewrite listTasks_length, bool_decide_eq_false_2 by done.
    unfold progress_of. rewrite count_completed_spec, listTasks_length.
    rewrite Qle_bool_1_fraction by (done || apply completed_le_total).
    rewrite bool_decide_eq_true_2 by done.
    eexists. by split.
  - intros id -> Hbelow. unfold st'. simpl. unfold updateGoalProgress.
    rewrite listTasks_length. case_bool_decide as Hn; [done|].
    destruct Hbelow as [H0|Hne]; [done|].
    unfold progress_of. rewrite count_completed_spec, listTasks_length.
    rewrite Qle_bool_1_fraction by (done || apply completed_le_total).
    by rewrite bool_decide_eq_false_2.
Qed.

(** C9 as stated fails: updateGoalProgress changes the stored progress of a
    goal (from 1/2 to 1/3 here) and appends no audit row. *)
Lemma updateGoalProgress_without_audit :
  Goal.progress <$> getGoal 1 stale_progress_store = Some (1 # 2)%Q
  ∧ Goal.progress <$> getGoal 1 (updateGoalProgress 1 stale_progress_store)
    = Some (1 # 3)%Q
  ∧ audit_events (updateGoalProgress 1 stale_progress_store)
    = audit_events stale_progress_store.
Proof. by vm_compute. Qed.

(** ** approveTask *)

(** C10: approveTask returns true exactly when a task with the id exists
    and requires approval, and changes nothing otherwise; then, whatever the
    status of the task was, it sets approved_at, resets the status to queued
    and appends a task.approved audit row, no other field changes, and the
    task is eligible again as soon as its goal is active and its
    dependencies are completed.  A failed task that requires approval is
    returned by getNextTask after approveTask. *)
Theorem approveTask_requeues_any_status (st : Store) (id : Z) :
  ((approveTask id st).1 = true
   ↔ ∃ x, x ∈ tasks st ∧ Task.id x = id ∧ Task.requires_approval x = true)
  ∧ ((approveTask id st).1 = false → (approveTask id st).2 = st)
  ∧ (∀ r, getTask id st = Some r → Task.requires_approval r = true →
       (approveTask id st).1 = true
       ∧ getTask id (approveTask id st).2 = Some (approved_row (clock st) r)
       ∧ (∃ ev, audit_events (approveTask id st).2 = (audit_events st ++ [ev])%list
                ∧ event_type ev = "task.approved" ∧ entity_type ev = "task"
                ∧ entity_id ev = id)
       ∧ ((∃ g, getGoal (Task.goal_id r) st = Some g
                ∧ Goal.status g = GoalStatus.active) →
          (∀ d, d ∈ Task.depends_on r →
                ∃ dt, getTask d (approveTask id st).2 = Some dt
                      ∧ Task.status dt = TaskStatus.completed) →
          Eligible (approveTask id st).2 (approved_row (clock st) r)))
  ∧ (Task.status
       <$> getTask 1 (fail_each 1 ["e1"; "e2"; "e3"; "e4"] approval_store)
     = Some TaskStatus.failed
     ∧ Task.status
         <$> getNextTask
               (approveTask 1
                  (fail_each 1 ["e1"; "e2"; "e3"; "e4"] approval_store)).2
       = Some TaskStatus.queued).
Proof.
  set (p := λ r : Task.t, bool_decide (Task.id r = id) && Task.requires_approval r).
  assert ((approveTask id st).1 = bool_decide (0 < sql_changes p (tasks st))%nat) as Hres.
  { unfold approveTask. fold p. by case_bool_decide. }
  assert ((0 < sql_changes p (tasks st))%nat
          ↔ ∃ x, x ∈ tasks st ∧ Task.id x = id ∧ Task.requires_approval x = true) as Hpos.
  { rewrite sql_changes_pos. unfold p. split.
    - intros (x & Hx & Hp). apply andb_true_iff in Hp as [Hid Hreq].
      apply bool_decide_eq_true in Hid. by exists x.
    - intros (x & Hx & Hid & Hreq). exists x. split; [done|].
      by rewrite bool_decide_eq_true_2, Hreq. }
  split; [|split; [|split]].
  - by rewrite Hres, bool_decide_eq_true.
  - rewrite Hres. intros Hfalse. apply bool_decide_eq_false in Hfalse.
    unfold approveTask. fold p. rewrite bool_decide_eq_false_2 by done. simpl.
    rewrite sql_update_none by lia. apply with_tasks_same.
  - intros r Hr Hreq.
    assert ((0 < sql_changes p (tasks st))%nat) as Hc.
    { apply Hpos. exists r. by apply getTask_elem_of in Hr as [? ?]. }
    assert ((approveTask id st).2
            = logAudit "task.approved" "task" id
                ("Task #" +:+ pretty id +:+ " approved")
                (with_tasks
                   (sql_update p
                      (λ r, Task.set_status TaskStatus.queued
                              (Task.set_approved_at (Some (clock st)) r))
                      (tasks st)) st)) as Hst.
    { unfold approveTask. fold p. by rewrite bool_decide_eq_true_2. }
    assert (getTask id (approveTask id st).2 = Some (approved_row (clock st) r)) as Hget.
    { rewrite Hst, getTask_logAudit, getTask_update by done. rewrite Hr. simpl.
      unfold p. apply getTask_elem_of in Hr as [_ Hid].
      rewrite bool_decide_eq_true_2, Hreq by done. simpl.
      unfold approved_row, Task.set_status, Task.set_approved_at. simpl.
      by rewrite Hreq. }
    split; [by rewrite Hres, bool_decide_eq_true|]. split; [done|]. split.
    + rewrite Hst. eexists. by split.
    + intros (g & Hg & Hact) Hdeps. split; [|split; [|split]].
      * exists g. split; [|done]. by rewrite Hst.
      * by right.
      * done.
      * right. by eexists.
  - by vm_compute.
Qed.

(** ** The constraints of the schema hold in every reachable database *)

Lemma getGoal_is_Some (st : Store) (id : Z) :
  is_Some (getGoal id st) ↔ id ∈ Goal.id <$> goals st.
Proof.
  rewrite list_elem_of_fmap. split.
  - intros [g Hg]. apply getGoal_elem_of in Hg as [Hin Hid]. by exists g.
  - intros (g & -> & Hin). unfold getGoal.
    destruct (find _ (goals st)) eqn:Hf; [by eexists|].
    pose proof (find_None_elem_of _ _ Hf g Hin) as Hno. simpl in Hno.
    by rewrite bool_decide_eq_true_2 in Hno.
Qed.

Lemma goal_keys_ids (st : Store) : Goal.id <$> goals st = (goal_keys st).*1.
Proof. unfold goal_keys. by rewrite <- list_fmap_compose. Qed.

Lemma task_keys_ids (st : Store) : Task.id <$> tasks st = (task_keys st).*1.
Proof. unfold task_keys. by rewrite <- list_fmap_compose. Qed.

(** Well-formedness only looks at the key columns and the counters. *)
Lemma store_wf_keys (st st' : Store) :
  goal_keys st' = goal_keys st → task_keys st' = task_keys st →
  goals_seq st' = goals_seq st → tasks_seq st' = tasks_seq st →
  store_wf st → store_wf st'.
Proof.
  intros Hg Ht Hgs Hts (Hnd & Hb & Hndt & Hbt & Hfk & Hpar).
  assert (∀ id, is_Some (getGoal id st') ↔ is_Some (getGoal id st)) as Hsome.
  { intros id. by rewrite !getGoal_is_Some, !goal_keys_ids, Hg. }
  assert (∀ g, g ∈ goals st' →
               ∃ g0, g0 ∈ goals st ∧ Goal.id g0 = Goal.id g
                     ∧ Goal.parent_goal_id g0 = Goal.parent_goal_id g) as Hgin.
  { intros g Hin.
    assert ((Goal.id g, Goal.parent_goal_id g) ∈ goal_keys st) as Hk.
    { rewrite <- Hg. unfold goal_keys.
      by apply (list_elem_of_fmap_2 (λ g, (Goal.id g, Goal.parent_goal_id g))). }
    apply list_elem_of_fmap in Hk as (g0 & [= H1 H2] & Hin0). by exists g0. }
  assert (∀ x, x ∈ tasks st' →
               ∃ x0, x0 ∈ tasks st ∧ Task.id x0 = Task.id x
                     ∧ Task.goal_id x0 = Task.goal_id x) as Htin.
  { intros x Hin.
    assert ((Task.id x, Task.goal_id x) ∈ task_keys st) as Hk.
    { rewrite <- Ht. unfold task_keys.
      by apply (list_elem_of_fmap_2 (λ r, (Task.id r, Task.goal_id r))). }
    apply list_elem_of_fmap in Hk as (x0 & [= H1 H2] & Hin0). by exists x0. }
  split; [by rewrite goal_keys_ids, Hg, <- goal_keys_ids|].
  split. { intros g Hin. destruct (Hgin g Hin) as (g0 & Hin0 & <- & _).
           rewrite Hgs. by apply Hb. }
  split; [by rewrite task_keys_ids, Ht, <- task_keys_ids|].
  split. { intros x Hin. destruct (Htin x Hin) as (x0 & Hin0 & <- & _).
           rewrite Hts. by apply Hbt. }
  split. { intros x Hin. destruct (Htin x Hin) as (x0 & Hin0 & _ & <-).
           apply Hsome. by apply Hfk. }
  intros g p Hin Hp. destruct (Hgin g Hin) as (g0 & Hin0 & _ & Hp0).
  apply Hsome. apply (Hpar g0); [done|congruence].
Qed.

Lemma fmap_sql_update {R K : Type} (key : R → K) (p : R → bool) (f : R → R)
    (rows : list R) :
  (∀ r, key (f r) = key r) → key <$> sql_update p f rows = key <$> rows.
Proof.
  intros Hf. unfold sql_update. induction rows as [|x rows IH]; [done|].
  simpl. f_equal; [|apply IH]. destruct (p x); [apply Hf|done].
Qed.

Lemma keys_updateGoalStatus (id : Z) (s : GoalStatus.t) (st : Store) :
  goal_keys (updateGoalStatus id s st) = goal_keys st
  ∧ task_keys (updateGoalStatus id s st) = task_keys st
  ∧ goals_seq (updateGoalStatus id s st) = goals_seq st
  ∧ tasks_seq (updateGoalStatus id s st) = tasks_seq st.
Proof.
  split; [|done]. unfold goal_keys, updateGoalStatus. simpl.
  by apply fmap_sql_update.
Qed.

Lemma keys_updateGoalProgress (id : Z) (st : Store) :
  goal_keys (updateGoalProgress id st) = goal_keys st
  ∧ task_keys (updateGoalProgress id st) = task_keys st
  ∧ goals_seq (updateGoalProgress id st) = goals_seq st
  ∧ tasks_seq (updateGoalProgress id st) = tasks_seq st.
Proof.
  unfold updateGoalProgress. case_bool_decide; [done|].
  set (st1 := with_goals _ st).
  assert (goal_keys st1 = goal_keys st) as Hk.
  { unfold goal_keys, st1. simpl. by apply fmap_sql_update. }
  destruct (Qle_bool _ _); [|done].
  destruct (keys_updateGoalStatus id GoalStatus.completed st1) as (-> & -> & -> & ->).
  done.
Qed.

Lemma keys_tasks_update (st : Store) (p : Task.t → bool) (f : Task.t → Task.t) :
  (∀ r, Task.id (f r) = Task.id r ∧ Task.goal_id (f r) = Task.goal_id r) →
  task_keys (with_tasks (sql_update p f (tasks st)) st) = task_keys st.
Proof.
  intros Hf. unfold task_keys. simpl. apply fmap_sql_update.
  intros r. destruct (Hf r) as [-> ->]. done.
Qed.

Lemma store_wf_updateGoalProgress (id : Z) (st : Store) :
  store_wf st → store_wf (updateGoalProgress id st).
Proof.
  destruct (keys_updateGoalProgress id st) as (? & ? & ? & ?).
  by apply store_wf_keys.
Qed.

Lemma find_sql_delete {R : Type} (q p : R → bool) (rows : list R) :
  (∀ x, q x = true → p x = false) →
  find q (sql_delete p rows) = find q rows.
Proof.
  intros Hqp. unfold sql_delete. induction rows as [|x rows IH]; [done|].
  simpl. destruct (q x) eqn:Hq.
  - rewrite (Hqp x Hq). simpl. by rewrite Hq.
  - destruct (p x); simpl; [done|]. by rewrite Hq.
Qed.

Lemma NoDup_fmap_sql_delete {R : Type} (key : R → Z) (p : R → bool) (rows : list R) :
  NoDup (key <$> rows) → NoDup (key <$> sql_delete p rows).
Proof.
  unfold sql_delete. induction rows as [|x rows IH]; [done|]. simpl.
  rewrite NoDup_cons. intros [Hx Hnd]. destruct (p x); simpl; [by apply IH|].
  apply NoDup_cons. split; [|by apply IH].
  intros Hin. apply Hx. apply list_elem_of_fmap in Hin as (y & -> & Hy).
  apply list_elem_of_fmap_2. by apply filter_elem_of in Hy as [? _].
Qed.

Lemma getGoal_app_l (st : Store) (id : Z) (rows : list Goal.t) (g : Goal.t) :
  find (λ g, bool_decide (Goal.id g = id)) (goals st) = Some g →
  find (λ g, bool_decide (Goal.id g = id)) (goals st ++ rows) = Some g.
Proof.
  induction (goals st) as [|x l IH]; simpl; [done|].
  destruct (bool_decide _); [done|apply IH].
Qed.

Lemma store_wf_apply_op (op : Op) (st : Store) :
  store_wf st → store_wf (apply_op op st).
Proof.
  intros Hwf.
  destruct op as [title o|gid s|gid|gid|gid title o|tid|tid out|tid e|tid
                 |c cat src tags|now]; simpl.
  - unfold addGoal.
    destruct (negb (bool_decide (1 ≤ default 5 (go_priority o) ≤ 10))); [done|].
    destruct (negb _) eqn:Hparent; [done|]. simpl.
    apply negb_false_iff in Hparent.
    destruct Hwf as (Hnd & Hb & Hndt & Hbt & Hfk & Hpar).
    assert (∀ id, is_Some (getGoal id st) →
                  is_Some (find (λ g, bool_decide (Goal.id g = id))
                             (goals st ++ [Goal.mk (goals_seq st + 1) title
                                 (go_description o) GoalStatus.active
                                 (default 5 (go_priority o)) (clock st) (clock st)
                                 (go_deadline o) (go_parentGoalId o) 0%Q (JObj [])])))
      as Hkeep.
    { intros id [g Hg]. exists g. by apply getGoal_app_l. }
    split.
    { simpl. rewrite fmap_app. apply NoDup_app. split; [done|].
      split; [|apply NoDup_singleton].
      intros x Hx Hx'. apply list_elem_of_singleton in Hx'. simpl in Hx'.
      apply list_elem_of_fmap in Hx as (g & -> & Hg). specialize (Hb g Hg). lia. }
    split.
    { simpl. intros g Hg. apply elem_of_app in Hg as [Hg|Hg].
      - specialize (Hb g Hg). lia.
      - apply list_elem_of_singleton in Hg as ->. simpl. lia. }
    split; [done|]. split; [done|].
    split.
    { simpl. intros x Hx. apply Hkeep. by apply Hfk. }
    simpl. intros g p Hg Hp. apply elem_of_app in Hg as [Hg|Hg].
    + apply Hkeep. by apply (Hpar g).
    + apply list_elem_of_singleton in Hg as ->. simpl in Hp.
      rewrite Hp in Hparent. apply bool_decide_eq_true in Hparent as [Hex| ->].
      * by apply Hkeep.
      * unfold getGoal. simpl. rewrite find_app_None.
        -- simpl. rewrite bool_decide_eq_true_2 by done. by eexists.
        -- destruct (find _ (goals st)) as [g|] eqn:Hf; [|done].
           apply find_Some_elem_of in Hf as [Hg Hid].
           apply bool_decide_eq_true in Hid. specialize (Hb g Hg). lia.
  - destruct (keys_updateGoalStatus gid s st) as (? & ? & ? & ?).
    by apply (store_wf_keys st).
  - by apply store_wf_updateGoalProgress.
  - unfold removeGoal. case_bool_decide as Hex; [|done].
    destruct (existsb _ (goals st)) eqn:Hchild; [done|]. simpl.
    destruct Hwf as (Hnd & Hb & Hndt & Hbt & Hfk & Hpar).
    assert (∀ id, id ≠ gid → is_Some (getGoal id st) →
                  is_Some (find (λ g, bool_decide (Goal.id g = id))
                             (sql_delete (λ g, bool_decide (Goal.id g = gid))
                                (goals st)))) as Hkeep.
    { intros id Hne Hs. rewrite find_sql_delete; [done|].
      intros x Hx. apply bool_decide_eq_true in Hx.
      apply bool_decide_eq_false. congruence. }
    split; [by apply NoDup_fmap_sql_delete|].
    split. { simpl. intros g Hg. apply elem_of_sql_delete in Hg. by apply Hb. }
    split; [by apply NoDup_fmap_sql_delete|].
    split. { simpl. intros x Hx. apply elem_of_sql_delete in Hx. by apply Hbt. }
    split.
    { simpl. intros x Hx. unfold sql_delete in Hx.
      apply filter_elem_of in Hx as [Hx Hp]. apply negb_true_iff in Hp.
      apply bool_decide_eq_false in Hp. apply Hkeep; [done|by apply Hfk]. }
    simpl. intros g p Hg Hp. unfold sql_delete in Hg.
    apply filter_elem_of in Hg as [Hg Hne]. apply negb_true_iff in Hne.
    apply bool_decide_eq_false in Hne.
    apply Hkeep; [|by apply (Hpar g)].
    intros ->. rewrite <- not_true_iff_false in Hchild. apply Hchild.
    apply existsb_exists. exists g. split; [by apply list_elem_of_In|].
    by apply bool_decide_eq_true.
  - unfold addTask. case_bool_decide as Hex; [|done]. simpl.
    destruct Hwf as (Hnd & Hb & Hndt & Hbt & Hfk & Hpar).
    split; [done|]. split; [done|].
    split.
    { simpl. rewrite fmap_app. apply NoDup_app. split; [done|].
      split; [|apply NoDup_singleton].
      intros x Hx Hx'. apply list_elem_of_singleton in Hx'. simpl in Hx'.
      apply list_elem_of_fmap in Hx as (r & -> & Hr). specialize (Hbt r Hr). lia. }
    split.
    { simpl. intros x Hx. apply elem_of_app in Hx as [Hx|Hx].
      - specialize (Hbt x Hx). lia.
      - apply list_elem_of_singleton in Hx as ->. simpl. lia. }
    split; [|done].
    simpl. intros x Hx. apply elem_of_app in Hx as [Hx|Hx]; [by apply Hfk|].
    by apply list_elem_of_singleton in Hx as ->.
  - apply (store_wf_keys st); try done. unfold startTask.
    change (task_keys (logAudit ?a ?b ?c ?d ?s)) with (task_keys s).
    by apply keys_tasks_update.
  - unfold completeTask.
    set (st2 := logAudit _ _ _ _ _).
    assert (store_wf st2) as Hwf2.
    { apply (store_wf_keys st); try done. unfold st2.
      change (task_keys (logAudit ?a ?b ?c ?d ?s)) with (task_keys s).
      by apply keys_tasks_update. }
    destruct (getTask tid st2); [by apply store_wf_updateGoalProgress|done].
  - unfold failTask. destruct (getTask tid st) as [task|]; [|done].
    case_bool_decide; (apply (store_wf_keys st); try done);
      change (task_keys (logAudit ?a ?b ?c ?d ?s)) with (task_keys s);
      by apply keys_tasks_update.
  - unfold approveTask. case_bool_decide; simpl;
      (apply (store_wf_keys st); try done);
      try change (task_keys (logAudit ?a ?b ?c ?d ?s)) with (task_keys s);
      by apply keys_tasks_update.
  - by apply (store_wf_keys st).
  - by apply (store_wf_keys st).
Qed.

Lemma store_wf_empty : store_wf empty_store.
Proof.
  unfold store_wf, empty_store. simpl.
  split; [apply NoDup_nil_2|]. split; [by intros g Hg; apply elem_of_nil in Hg|].
  split; [apply NoDup_nil_2|]. split; [by intros g Hg; apply elem_of_nil in Hg|].
  split; [by intros g Hg; apply elem_of_nil in Hg|].
  by intros g p Hg; apply elem_of_nil in Hg.
Qed.

(** X1: the public operations keep the database well formed: goal and task
    ids stay unique and below their AUTOINCREMENT counters, every task
    belongs to an existing goal and every parent goal exists; so this holds
    in every database reached from the empty one. *)
Theorem store_wf_reachable (ops : list Op) :
  store_wf (run_ops ops empty_store)
  ∧ ∀ st, store_wf st → store_wf (run_ops ops st).
Proof.
  assert (∀ st, store_wf st → store_wf (run_ops ops st)) as Hrun.
  { induction ops as [|op ops IH]; intros st Hwf; [done|].
    simpl. apply IH. by apply store_wf_apply_op. }
  split; [apply Hrun, store_wf_empty|done].
Qed.

(** ** Creation and deletion of goals and tasks *)


Lemma find_app_Some {A : Type} (p : A → bool) (l1 l2 : list A) (x : A) :
  find p l1 = Some x → find p (l1 ++ l2) = Some x.
Proof.
  induction l1 as [|y l1 IH]; simpl; [done|]. destruct (p y); [done|apply IH].
Qed.

Lemma find_snoc_other {A : Type} (p : A → bool) (l : list A) (x : A) :
  p x = false → find p (l ++ [x]) = find p l.
Proof.
  intros Hp. induction l as [|y l IH]; simpl; [by rewrite Hp|].
  destruct (p y); [done|apply IH].
Qed.

Lemma store_wf_run_ops (ops : list Op) (st : Store) :
  store_wf st → store_wf (run_ops ops st).
Proof.
  revert st. induction ops as [|op ops IH]; intros st Hwf; [done|].
  simpl. apply IH. by apply store_wf_apply_op.
Qed.




Lemma store_wf_two_tasks : store_wf two_tasks_store.
Proof.
  apply (store_wf_run_ops
           [OpAddGoal "G" noGoalOptions;
            OpAddTask 1 "first" noTaskOptions;
            OpAddTask 1 "second" noTaskOptions] empty_store store_wf_empty).
Qed.

(** X3: addTask throws, and leaves the database as it was, exactly when
    the goal does not exist; otherwise the new task has the next id, which
    no task had before, getTask finds it, it is pending with retry_count 0
    and max_retries 3, no timestamps and no approval, it carries the given
    dependencies and approval flag, and every other task and all goals are
    as before. *)
Theorem addTask_result (goalId : Z) (title : string) (o : AddTaskOptions)
    (st : Store) :
  store_wf st →
  match addTask goalId title o st with
  | Throws _ st' => st' = st ∧ getGoal goalId st = None
  | Ok r st' =>
      is_Some (getGoal goalId st)
      ∧ Task.id r = tasks_seq st + 1
      ∧ getTask (Task.id r) st = None
      ∧ getTask (Task.id r) st' = Some r
      ∧ Task.goal_id r = goalId
      ∧ Task.title r = title
      ∧ Task.status r = TaskStatus.pending
      ∧ Task.retry_count r = 0 ∧ Task.max_retries r = 3
      ∧ Task.started_at r = None ∧ Task.completed_at r = None
      ∧ Task.approved_at r = None
      ∧ Task.depends_on r = default [] (to_dependsOn o)
      ∧ Task.requires_approval r = default false (to_requiresApproval o)
      ∧ (∀ id', id' ≠ Task.id r → getTask id' st' = getTask id' st)
      ∧ goals st' = goals st
  end.
Proof.
  intros (_ & _ & _ & Hb & _).
  destruct (getGoal goalId st) as [g|] eqn:Hg.
  - destruct (addTask_ok goalId title o st) as (st' & -> & Ht & Hgs & _);
      [by rewrite Hg|done|].
    pose proof (getTask_fresh st (tasks_seq st + 1) Hb ltac:(lia)) as Hfresh.
    simpl. split; [by eexists|]. split; [done|]. split; [done|].
    split.
    { unfold getTask. rewrite Ht. rewrite find_app_None by exact Hfresh.
      simpl. by rewrite bool_decide_eq_true_2. }
    do 10 (split; [done|]). split; [|done].
    intros id' Hne. unfold getTask. rewrite Ht. apply find_snoc_other. simpl.
    apply bool_decide_eq_false. congruence.
  - unfold addTask. rewrite Hg.
    rewrite bool_decide_eq_false_2 by (by intros [? ?]). done.
Qed.

(** An instance: a third task for the goal of a database with two. *)
Lemma addTask_result_witness :
  Task.id <$> result_value (addTask 1 "third" noTaskOptions two_tasks_store) = Some 3.
Proof.
  pose proof (addTask_result 1 "third" noTaskOptions two_tasks_store
                store_wf_two_tasks) as H.
  destruct (addTask 1 "third" noTaskOptions two_tasks_store) as [r st'|m st'] eqn:Ha.
  - destruct H as (_ & Hid & _). simpl. rewrite Hid. reflexivity.
  - by vm_compute in Ha.
Defined.

Lemma find_sql_delete_keep {R : Type} (q p : R → bool) (rows : list R) (r : R) :
  find q rows = Some r → p r = false → find q (sql_delete p rows) = Some r.
Proof.
  unfold sql_delete. induction rows as [|y rows IH]; simpl; [done|].
  destruct (q y) eqn:Hy.
  - intros [= ->] Hp. rewrite Hp. simpl. by rewrite Hy.
  - intros Hf Hp. destruct (negb (p y)); simpl; [rewrite Hy|]; by apply IH.
Qed.

(** X4: removeGoal throws, and leaves the database as it was, exactly
    when the goal exists and another goal names it as its parent.
    Otherwise it returns whether the goal existed; afterwards the goal is
    gone, the goals that are left are exactly the other goals, the tasks
    that are left are exactly the tasks of the other goals, and no audit
    row was written.  A goal with a child goal cannot be removed before the
    child; a goal that is its own parent can. *)
Theorem removeGoal_result (id : Z) (st : Store) :
  store_wf st →
  match removeGoal id st with
  | Throws _ st' =>
      st' = st
      ∧ is_Some (getGoal id st)
      ∧ ∃ child, child ∈ goals st ∧ Goal.parent_goal_id child = Some id
                 ∧ Goal.id child ≠ id
  | Ok b st' =>
      (b = true ↔ is_Some (getGoal id st))
      ∧ (∀ g, g ∈ goals st → Goal.parent_goal_id g = Some id → Goal.id g = id)
      ∧ getGoal id st' = None
      ∧ (∀ g, g ∈ goals st' ↔ g ∈ goals st ∧ Goal.id g ≠ id)
      ∧ (∀ x, x ∈ tasks st' ↔ x ∈ tasks st ∧ Task.goal_id x ≠ id)
      ∧ (∀ id', id' ≠ id → getGoal id' st' = getGoal id' st)
      ∧ (∀ id' r, getTask id' st = Some r → Task.goal_id r ≠ id →
                  getTask id' st' = Some r)
      ∧ audit_events st' = audit_events st
  end
  ∧ (let st2 :=
       result_store
         (addGoal "child" (mkAddGoalOptions None None None (Some 1))
            two_tasks_store) in
     result_value (removeGoal 1 st2) = None
     ∧ result_store (removeGoal 1 st2) = st2
     ∧ result_value (removeGoal 2 st2) = Some true
     ∧ (result_value (removeGoal 1 (result_store (removeGoal 2 st2)))) = Some true)
  ∧ (let st2 :=
       result_store
         (addGoal "self" (mkAddGoalOptions None None None (Some 2))
            two_tasks_store) in
     result_value (removeGoal 2 st2) = Some true
     ∧ Goal.id <$> goals (result_store (removeGoal 2 st2)) = [1]).
Proof.
  intros (_ & _ & _ & _ & Hfk & Hpar). split; [|by vm_compute].
  unfold removeGoal. case_bool_decide as Hex.
  - destruct (existsb _ (goals st)) eqn:Hchild.
    + split; [done|]. split; [done|].
      apply existsb_exists in Hchild as (child & Hin & Hc).
      apply bool_decide_eq_true in Hc as [Hp Hne].
      exists child. by rewrite list_elem_of_In.
    + split; [done|]. simpl. split.
      { intros g Hg Hp. destruct (decide (Goal.id g = id)) as [|Hne]; [done|].
        rewrite <- not_true_iff_false in Hchild. destruct Hchild.
        apply existsb_exists. exists g. split; [by apply list_elem_of_In|].
        by apply bool_decide_eq_true. }
      split.
      { unfold getGoal. simpl.
        destruct (find _ (sql_delete _ (goals st))) as [g|] eqn:Hf; [|done].
        apply find_Some_elem_of in Hf as [Hin Hid]. unfold sql_delete in Hin.
        apply filter_elem_of in Hin as [_ Hn]. by rewrite Hid in Hn. }
      split.
      { intros g. unfold sql_delete. rewrite filter_elem_of.
        rewrite negb_true_iff, bool_decide_eq_false. done. }
      split.
      { intros x. unfold sql_delete. rewrite filter_elem_of.
        rewrite negb_true_iff, bool_decide_eq_false. done. }
      split.
      { intros id' Hne. unfold getGoal. simpl. apply find_sql_delete.
        intros x Hx. apply bool_decide_eq_true in Hx.
        apply bool_decide_eq_false. congruence. }
      split; [|done].
      intros id' r Hr Hg. unfold getTask. simpl.
      apply find_sql_delete_keep; [done|]. by apply bool_decide_eq_false.
  - split; [split; [done|by intros ?]|].
    split. { intros g Hg Hp. destruct Hex. by apply (Hpar g). }
    split. { destruct (getGoal id st) eqn:Hg; [|done]. destruct Hex. by eexists. }
    split.
    { intros g. split; [|tauto]. intros Hg. split; [done|].
      intros Hid. apply Hex. apply getGoal_is_Some.
      apply list_elem_of_fmap. by exists g. }
    split; [|done].
    intros x. split; [|tauto]. intros Hx. split; [done|].
    intros Hid. apply Hex. rewrite <- Hid. by apply Hfk.
Qed.

(** An instance: the goal of a database with two tasks is removed with
    them. *)
Lemma removeGoal_result_witness :
  tasks (result_store (removeGoal 1 two_tasks_store)) = [].
Proof.
  pose proof (removeGoal_result 1 two_tasks_store store_wf_two_tasks) as [H _].
  destruct (removeGoal 1 two_tasks_store) as [b st'|m st'] eqn:Hr.
  - destruct H as (_ & _ & _ & _ & Ht & _). simpl.
    destruct (tasks st') as [|x l] eqn:Hl; [done|].
    destruct (proj1 (Ht x) ltac:(by left)) as [Hin Hne].
    exfalso. revert Hne. clear -Hin.
    apply (Forall_forall (λ x, ¬ Task.goal_id x ≠ 1) (tasks two_tasks_store)); [|done].
    repeat constructor; by intros ?.
  - by vm_compute in Hr.
Defined.

(** ** Scheduling under status changes *)

Lemma getTask_updateGoalStatus (st : Store) (gid id : Z) (s : GoalStatus.t) :
  getTask id (updateGoalStatus gid s st) = getTask id st.
Proof. done. Qed.

Lemma Eligible_same_tasks (st st' : Store) (t : Task.t) :
  (∀ id, getTask id st' = getTask id st) →
  getGoal (Task.goal_id t) st' = getGoal (Task.goal_id t) st →
  Eligible st' t ↔ Eligible st t.
Proof.
  intros Ht Hg. unfold Eligible. rewrite Hg. by setoid_rewrite Ht.
Qed.

(** X5: after updateGoalStatus gave a goal a status other than active
    (pause, cancel, ...), getNextTask returns none of its tasks; tasks of
    other goals are eligible exactly as before; and after a goal was set to
    active, each of its pending or queued tasks is eligible as soon as its
    dependencies are completed and its approval gate is open. *)
Theorem updateGoalStatus_gates_scheduling (st : Store) (gid : Z) (s : GoalStatus.t) :
  (s ≠ GoalStatus.active →
   ∀ t, getNextTask (updateGoalStatus gid s st) = Some t → Task.goal_id t ≠ gid)
  ∧ (∀ t, Task.goal_id t ≠ gid →
          (Eligible (updateGoalStatus gid s st) t ↔ Eligible st t))
  ∧ (∀ t, Task.goal_id t = gid → is_Some (getGoal gid st) →
          (Eligible (updateGoalStatus gid GoalStatus.active st) t
           ↔ (Task.status t = TaskStatus.pending ∨ Task.status t = TaskStatus.queued)
             ∧ (∀ d, d ∈ Task.depends_on t →
                     ∃ dt, getTask d st = Some dt
                           ∧ Task.status dt = TaskStatus.completed)
             ∧ (Task.requires_approval t = false ∨ is_Some (Task.approved_at t)))).
Proof.
  split; [|split].
  - intros Hs t Hnext Hgid.
    apply getNextTask_eligible in Hnext as (_ & (g & Hg & Hact) & _).
    rewrite getGoal_updateGoalStatus, Hgid in Hg.
    destruct (getGoal gid st) as [g0|] eqn:Hg0; [|done]. simpl in Hg.
    apply getGoal_elem_of in Hg0 as [_ Hid].
    rewrite bool_decide_eq_true_2 in Hg by done.
    injection Hg as <-. simpl in Hact. congruence.
  - intros t Hne. apply Eligible_same_tasks; [done|].
    rewrite getGoal_updateGoalStatus.
    destruct (getGoal (Task.goal_id t) st) as [g0|] eqn:Hg0; [|done]. simpl.
    apply getGoal_elem_of in Hg0 as [_ Hid].
    rewrite bool_decide_eq_false_2; [done|congruence].
  - intros t Hgid [g0 Hg0]. unfold Eligible.
    rewrite getGoal_updateGoalStatus, Hgid, Hg0. simpl.
    apply getGoal_elem_of in Hg0 as [_ Hid].
    rewrite bool_decide_eq_true_2 by done. split.
    + intros (_ & ? & ? & ?). done.
    + intros (? & ? & ?). split; [by eexists|done].
Qed.

(** X9: a task that was started or completed is not what getNextTask
    returns, whatever its status was before. *)
Theorem started_or_completed_not_next (st : Store) (id : Z) (output : string) :
  (∀ t, getNextTask (startTask id st) = Some t → Task.id t ≠ id)
  ∧ (∀ t, getNextTask (completeTask id output st) = Some t → Task.id t ≠ id).
Proof.
  split; intros t Hnext Hid; apply getNextTask_waiting in Hnext as [Hin Hw].
  - unfold startTask in Hin. simpl in Hin.
    apply elem_of_sql_update in Hin as (x & Hx & ->).
    destruct (bool_decide (Task.id x = id)) eqn:Hb; [done|].
    apply bool_decide_eq_false in Hb. done.
  - rewrite tasks_completeTask in Hin.
    apply elem_of_sql_update in Hin as (x & Hx & ->).
    destruct (bool_decide (Task.id x = id)) eqn:Hb; [done|].
    apply bool_decide_eq_false in Hb. done.
Qed.

Lemma sql_update_no_row (st : Store) (id : Z) (f : Task.t → Task.t) :
  getTask id st = None →
  sql_update (λ r, bool_decide (Task.id r = id)) f (tasks st) = tasks st.
Proof.
  intros Hnone. unfold getTask in Hnone. unfold sql_update.
  induction (tasks st) as [|x l IH]; [done|]. simpl in *.
  destruct (bool_decide (Task.id x = id)); [done|]. by rewrite IH.
Qed.

(** X10: on an id that no task has, startTask and completeTask change no
    task and no goal but still append their audit row (task.started,
    task.completed), while failTask and approveTask change nothing at
    all. *)
Theorem operations_on_missing_task (st : Store) (id : Z) (text : string) :
  getTask id st = None →
  (tasks (startTask id st) = tasks st ∧ goals (startTask id st) = goals st
   ∧ ∃ ev, audit_events (startTask id st) = (audit_events st ++ [ev])%list
           ∧ event_type ev = "task.started" ∧ entity_id ev = id)
  ∧ (tasks (completeTask id text st) = tasks st
     ∧ goals (completeTask id text st) = goals st
     ∧ ∃ ev, audit_events (completeTask id text st) = (audit_events st ++ [ev])%list
             ∧ event_type ev = "task.completed" ∧ entity_id ev = id)
  ∧ failTask id text st = st
  ∧ approveTask id st = (false, st).
Proof.
  intros Hnone. split; [|split; [|split]].
  - unfold startTask. simpl. rewrite sql_update_no_row by done.
    split; [done|]. split; [done|]. by eexists.
  - assert (completeTask id text st = completeTask_updated id text st) as ->.
    { unfold completeTask. fold (completed_row (clock st) text).
      fold (completeTask_updated id text st).
      assert (getTask id (completeTask_updated id text st) = None) as ->; [|done].
      unfold completeTask_updated. rewrite getTask_logAudit.
      unfold getTask. simpl. by rewrite sql_update_no_row. }
    unfold completeTask_updated. simpl. rewrite sql_update_no_row by done.
    split; [done|]. split; [done|]. by eexists.
  - unfold failTask. by rewrite Hnone.
  - unfold approveTask.
    assert (sql_changes (λ r, bool_decide (Task.id r = id) && Task.requires_approval r)
              (tasks st) = 0%nat) as Hc.
    { destruct (decide (0 < sql_changes
                (λ r, bool_decide (Task.id r = id) && Task.requires_approval r)
                (tasks st))%nat) as [Hpos|]; [|lia].
      apply sql_changes_pos in Hpos as (x & Hx & Hp).
      apply andb_true_iff in Hp as [Hid _]. apply bool_decide_eq_true in Hid.
      pose proof (find_None_elem_of _ _ Hnone x Hx) as Hno. simpl in Hno.
      by rewrite bool_decide_eq_true_2 in Hno. }
    rewrite Hc. rewrite bool_decide_eq_false_2 by lia.
    rewrite sql_update_none by done. by rewrite with_tasks_same.
Qed.

(** An instance: id 7 in a database with tasks 1 and 2. *)
Lemma operations_on_missing_task_witness :
  failTask 7 "boom" two_tasks_store = two_tasks_store.
Proof.
  apply (operations_on_missing_task two_tasks_store 7 "boom" eq_refl).
Defined.

(** ** Approvals and statistics *)

#[global] Instance by_id_refl : Reflexive by_id.
Proof. intros a. unfold by_id. lia. Qed.
#[global] Instance by_id_trans : Transitive by_id.
Proof. intros a b c. unfold by_id. lia. Qed.
#[global] Instance by_id_total : Total by_id.
Proof. intros a b. unfold by_id. lia. Qed.

Lemma awaits_approval_spec (r : Task.t) :
  awaits_approval r = true ↔
  Task.requires_approval r = true ∧ Task.approved_at r = None
  ∧ Task.status r ≠ TaskStatus.cancelled
  ∧ Task.status r ≠ TaskStatus.completed
  ∧ Task.status r ≠ TaskStatus.failed.
Proof.
  unfold awaits_approval.
  destruct (Task.requires_approval r), (Task.approved_at r), (Task.status r);
    simpl; (rewrite ?bool_decide_eq_true_2 by by eexists);
    (rewrite ?bool_decide_eq_false_2 by by intros [? ?]); simpl;
    split; try done; intros (? & ? & ? & ? & ?); done.
Qed.

Lemma getPendingApprovals_elem_of (st : Store) (r : Task.t) :
  r ∈ getPendingApprovals st ↔ r ∈ tasks st ∧ awaits_approval r = true.
Proof.
  unfold getPendingApprovals. by rewrite merge_sort_Permutation, filter_elem_of.
Qed.

(** X6: the approval list holds exactly the tasks that require approval,
    have none, and are not cancelled, completed or failed, in ascending id
    order, and as many as stats reports. No task on it is returned by
    getNextTask. When approveTask reports success the task with that id
    leaves the list and every other task stays on it or off it as before. *)
Theorem pending_approvals (st : Store) (id : Z) :
  (∀ r, r ∈ getPendingApprovals st ↔
        r ∈ tasks st ∧ Task.requires_approval r = true
        ∧ Task.approved_at r = None
        ∧ Task.status r ≠ TaskStatus.cancelled
        ∧ Task.status r ≠ TaskStatus.completed
        ∧ Task.status r ≠ TaskStatus.failed)
  ∧ StronglySorted (λ a b, Task.id a ≤ Task.id b) (getPendingApprovals st)
  ∧ length (getPendingApprovals st) = awaitingApproval (stats st)
  ∧ (∀ t, getNextTask st = Some t → t ∉ getPendingApprovals st)
  ∧ (∀ r, r ∈ getPendingApprovals (approveTask id st).2 ↔
          r ∈ getPendingApprovals st ∧ Task.id r ≠ id).
Proof.
  split; [|split; [|split; [|split]]].
  - intros r. by rewrite getPendingApprovals_elem_of, awaits_approval_spec.
  - apply (StronglySorted_merge_sort by_id).
  - unfold getPendingApprovals. simpl. by rewrite merge_sort_Permutation.
  - intros t Hnext Hin.
    apply getPendingApprovals_elem_of in Hin as [_ Hap].
    apply awaits_approval_spec in Hap as (Hreq & Hnone & _).
    apply getNextTask_eligible in Hnext as (_ & _ & _ & _ & [Hf|[? Hs]]);
      congruence.
  - intros r. rewrite !getPendingApprovals_elem_of.
    assert (tasks (approveTask id st).2
            = sql_update (λ r, bool_decide (Task.id r = id) && Task.requires_approval r)
                (λ r, Task.set_status TaskStatus.queued
                        (Task.set_approved_at (Some (clock st)) r))
                (tasks st)) as ->.
    { unfold approveTask. by destruct (bool_decide _). }
    split.
    + intros [Hin Hap]. apply elem_of_sql_update in Hin as (x & Hx & ->).
      destruct (bool_decide (Task.id x = id)) eqn:Hb; simpl in *.
      * destruct (Task.requires_approval x) eqn:Hreq.
        -- apply awaits_approval_spec in Hap as (_ & Hnone & _). done.
        -- apply awaits_approval_spec in Hap as (Hreq' & _). congruence.
      * apply bool_decide_eq_false in Hb. done.
    + intros [[Hin Hap] Hne]. split; [|done].
      apply elem_of_sql_update. exists r. split; [done|].
      by rewrite bool_decide_eq_false_2.
Qed.


(** ** Row invariants *)

Lemma rows_ok_update (st : Store) (p : Task.t → bool) (f : Task.t → Task.t) :
  rows_ok st →
  (∀ x, x ∈ tasks st → row_ok x → p x = true → row_ok (f x)) →
  ∀ y, y ∈ sql_update p f (tasks st) → row_ok y.
Proof.
  intros Hok Hf y Hy. apply elem_of_sql_update in Hy as (x & Hx & ->).
  destruct (p x) eqn:Hp; [by apply Hf; [|apply Hok|]|by apply Hok].
Qed.

Lemma getTask_NoDup (st : Store) (id : Z) (task x : Task.t) :
  NoDup (Task.id <$> tasks st) →
  getTask id st = Some task → x ∈ tasks st → Task.id x = id → x = task.
Proof.
  intros Hnd Htask Hx Hid.
  pose proof (find_NoDup_key Task.id (tasks st) x Hnd Hx) as Hfind.
  rewrite Hid in Hfind. unfold getTask in Htask. congruence.
Qed.

Lemma rows_ok_apply_op (op : Op) (st : Store) :
  NoDup (Task.id <$> tasks st) → rows_ok st → rows_ok (apply_op op st).
Proof.
  intros Hnd Hok.
  destruct op as [title o|gid s|gid|gid|gid title o|tid|tid out|tid e|tid
                 |c cat src tags|now]; simpl.
  - unfold addGoal. repeat (case_match; simpl; try done).
  - done.
  - unfold rows_ok. by rewrite tasks_updateGoalProgress.
  - unfold removeGoal. repeat (case_match; simpl; try done).
    intros x Hx. simpl in Hx. apply elem_of_sql_delete in Hx. by apply Hok.
  - unfold addTask. case_bool_decide; simpl; [|done].
    intros x Hx. simpl in Hx. apply elem_of_app in Hx as [Hx|Hx]; [by apply Hok|].
    apply list_elem_of_singleton in Hx as ->.
    unfold row_ok. simpl. repeat split; try done; try lia; by intros [? ?].
  - unfold startTask. intros y Hy. simpl in Hy. revert y Hy.
    apply rows_ok_update; [done|].
    intros x _ (Hmax & Hrc & Herr & _ & _ & _ & _ & _ & _ & Happ) _.
    unfold row_ok. simpl. repeat split; try done; try lia; try apply Herr;
      try by eexists.
  - intros y Hy. rewrite tasks_completeTask in Hy. revert y Hy.
    apply rows_ok_update; [done|].
    intros x _ (Hmax & Hrc & Herr & _ & _ & _ & _ & _ & _ & Happ) _.
    unfold row_ok. simpl. repeat split; try done; try lia; try apply Herr;
      try by eexists.
  - destruct (getTask tid st) as [task|] eqn:Htask;
      [|unfold failTask; by rewrite Htask].
    destruct (decide (Task.retry_count task < Task.max_retries task)) as [Hlt|Hge].
    + rewrite (failTask_retry st tid e task Htask Hlt).
      intros y Hy. simpl in Hy. revert y Hy.
      apply rows_ok_update; [done|].
      intros x Hx (Hmax & Hrc & Herr & _ & _ & _ & _ & _ & _ & Happ) Hp.
      apply bool_decide_eq_true in Hp.
      assert (x = task) as -> by by apply (getTask_NoDup st tid).
      unfold row_ok. simpl. repeat split; try done; try lia;
        try by eexists.
    + rewrite (failTask_final st tid e task Htask Hge).
      intros y Hy. simpl in Hy. revert y Hy.
      apply rows_ok_update; [done|].
      intros x Hx (Hmax & Hrc & Herr & _ & _ & _ & _ & _ & _ & Happ) Hp.
      apply bool_decide_eq_true in Hp.
      assert (x = task) as -> by by apply (getTask_NoDup st tid).
      unfold row_ok. simpl. repeat split; try done; try lia;
        try by eexists.
  - assert (tasks (approveTask tid st).2
            = sql_update (λ r, bool_decide (Task.id r = tid) && Task.requires_approval r)
                (λ r, Task.set_status TaskStatus.queued
                        (Task.set_approved_at (Some (clock st)) r))
                (tasks st)) as Heq.
    { unfold approveTask. by destruct (bool_decide _). }
    intros y Hy. rewrite Heq in Hy. revert y Hy.
    apply rows_ok_update; [done|].
    intros x _ (Hmax & Hrc & Herr & _ & _ & _ & _ & _ & _ & Happ) Hp.
    apply andb_true_iff in Hp as [_ Hreq].
    unfold row_ok. simpl. repeat split; try done; try lia; try apply Herr;
      try by eexists.
  - done.
  - done.
Qed.

Lemma rows_ok_run_ops (ops : list Op) (st : Store) :
  store_wf st → rows_ok st → rows_ok (run_ops ops st).
Proof.
  revert st. induction ops as [|op ops IH]; intros st Hwf Hok; [done|].
  simpl. apply IH; [by apply store_wf_apply_op|].
  apply rows_ok_apply_op; [|done]. by destruct Hwf as (_ & _ & ? & _).
Qed.

(** X8: in a database that was only written through the store's
    operations, starting from an empty one, every task keeps the default
    retry budget of 3 and has failed between 0 and 3 times, has an error
    text exactly when it has failed at least once, is never blocked or
    cancelled, is failed only with its budget used up, is completed only
    with an output and completion time, running only with a start time,
    queued only after an approval, and approved only if it required
    approval. *)
Theorem reachable_task_rows (ops : list Op) (r : Task.t) :
  r ∈ tasks (run_ops ops empty_store) →
  Task.max_retries r = 3
  ∧ 0 ≤ Task.retry_count r ≤ 3
  ∧ (is_Some (Task.error r) ↔ 0 < Task.retry_count r)
  ∧ Task.status r ≠ TaskStatus.blocked
  ∧ Task.status r ≠ TaskStatus.cancelled
  ∧ (Task.status r = TaskStatus.failed →
     Task.retry_count r = 3 ∧ is_Some (Task.completed_at r))
  ∧ (Task.status r = TaskStatus.completed →
     is_Some (Task.output r) ∧ is_Some (Task.completed_at r))
  ∧ (Task.status r = TaskStatus.running → is_Some (Task.started_at r))
  ∧ (Task.status r = TaskStatus.queued → is_Some (Task.approved_at r))
  ∧ (is_Some (Task.approved_at r) → Task.requires_approval r = true).
Proof.
  intros Hr. apply (rows_ok_run_ops ops empty_store); [apply store_wf_empty| |done].
  intros x Hx. by apply elem_of_nil in Hx.
Qed.

Lemma filter_status_partition (l : list Task.t) :
  (length (List.filter (λ r, TaskStatus.eqb (Task.status r) TaskStatus.pending
                         || TaskStatus.eqb (Task.status r) TaskStatus.queued) l)
   + length (List.filter (λ r, TaskStatus.eqb (Task.status r) TaskStatus.running) l)
   + length (List.filter (λ r, TaskStatus.eqb (Task.status r) TaskStatus.completed) l)
   + length (List.filter (λ r, TaskStatus.eqb (Task.status r) TaskStatus.failed) l)
   + length (List.filter (λ r, TaskStatus.eqb (Task.status r) TaskStatus.blocked) l)
   + length (List.filter (λ r, TaskStatus.eqb (Task.status r) TaskStatus.cancelled) l)
   = length l)%nat.
Proof.
  induction l as [|x l IH]; [done|]. simpl.
  destruct (Task.status x); simpl; lia.
Qed.

Lemma filter_length_none {A} (p : A → bool) (l : list A) :
  (∀ x, x ∈ l → p x = false) → length (List.filter p l) = 0%nat.
Proof.
  induction l as [|x l IH]; intros H; [done|]. simpl.
  rewrite (H x) by by left. apply IH. intros y Hy. apply H. by right.
Qed.

Lemma awaiting_le (l : list Task.t) :
  (length (List.filter awaits_approval l)
   ≤ length (List.filter (λ r, TaskStatus.eqb (Task.status r) TaskStatus.pending
                            || TaskStatus.eqb (Task.status r) TaskStatus.queued) l)
     + length (List.filter (λ r, TaskStatus.eqb (Task.status r) TaskStatus.running) l)
     + length (List.filter (λ r, TaskStatus.eqb (Task.status r) TaskStatus.blocked) l))%nat.
Proof.
  induction l as [|x l IH]; [done|].
  simpl. unfold awaits_approval at 1.
  destruct (Task.status x); simpl; rewrite ?andb_false_r; simpl;
    try lia;
    destruct (Task.requires_approval x
              && negb (bool_decide (is_Some (Task.approved_at x))));
    simpl; lia.
Qed.

(** X7: the task counters of stats partition the tasks table by status:
    pending-or-queued, running, completed and failed count every task
    except the blocked and the cancelled ones, and the tasks awaiting
    approval are among the pending-or-queued, running and blocked ones. In
    a database that was only written through the store's operations no
    task is blocked or cancelled, so the four counters add up to the
    number of tasks. *)
Theorem stats_partition (st : Store) (ops : list Op) :
  (pendingTasks (stats st) + runningTasks (stats st)
   + completedTasks (stats st) + failedTasks (stats st)
   + count_tasks TaskStatus.blocked st + count_tasks TaskStatus.cancelled st
   = length (tasks st))%nat
  ∧ (awaitingApproval (stats st)
     ≤ pendingTasks (stats st) + runningTasks (stats st)
       + count_tasks TaskStatus.blocked st)%nat
  ∧ (activeGoals (stats st) + completedGoals (stats st) ≤ length (goals st))%nat
  ∧ (let s := stats (run_ops ops empty_store) in
     (pendingTasks s + runningTasks s + completedTasks s + failedTasks s
      = length (tasks (run_ops ops empty_store)))%nat
     ∧ (awaitingApproval s ≤ pendingTasks s + runningTasks s)%nat).
Proof.
  split; [|split; [|split]].
  - apply filter_status_partition.
  - apply awaiting_le.
  - simpl. unfold count_goals. induction (goals st) as [|g l IH]; [done|].
    simpl. destruct (Goal.status g); simpl; lia.
  - set (st' := run_ops ops empty_store).
    assert (rows_ok st') as Hok.
    { apply rows_ok_run_ops; [apply store_wf_empty|].
      intros x Hx. by apply elem_of_nil in Hx. }
    assert (count_tasks TaskStatus.blocked st' = 0%nat) as Hb.
    { apply filter_length_none. intros x Hx.
      destruct (Hok x Hx) as (_ & _ & _ & Hnb & _).
      by destruct (Task.status x). }
    assert (count_tasks TaskStatus.cancelled st' = 0%nat) as Hc.
    { apply filter_length_none. intros x Hx.
      destruct (Hok x Hx) as (_ & _ & _ & _ & Hnc & _).
      by destruct (Task.status x). }
    pose proof (filter_status_partition (tasks st')) as Hp.
    pose proof (awaiting_le (tasks st')) as Ha.
    unfold count_tasks in Hb, Hc. simpl. unfold count_tasks.
    rewrite Hb in Ha. rewrite Hb, Hc in Hp. lia.
Qed.

(** An instance: a task that was added and then failed four times. *)
Lemma reachable_task_rows_witness :
  ∃ r, getTask 1 (run_ops [OpAddGoal "G" noGoalOptions;
                           OpAddTask 1 "first" noTaskOptions;
                           OpFailTask 1 "e1"; OpFailTask 1 "e2";
                           OpFailTask 1 "e3"; OpFailTask 1 "e4"] empty_store)
       = Some r
       ∧ Task.status r = TaskStatus.failed ∧ Task.retry_count r = 3.
Proof.
  eexists. split; [vm_compute; reflexivity|]. split; [reflexivity|].
  eapply (reachable_task_rows
            [OpAddGoal "G" noGoalOptions; OpAddTask 1 "first" noTaskOptions;
             OpFailTask 1 "e1"; OpFailTask 1 "e2";
             OpFailTask 1 "e3"; OpFailTask 1 "e4"]).
  - vm_compute. apply list_elem_of_here.
  - reflexivity.
Defined.

(** ** Dependencies *)

Lemma eligible_is_Some (st : Store) (r : Task.t) :
  r ∈ tasks st → Eligible st r → is_Some (getNextTask st).
Proof.
  intros Hr He. apply Eligible_iff in He as (g & Hin & Hrun); [|done].
  rewrite getNextTask_rows.
  destruct (find _ (candidate_rows st)) as [row|] eqn:Hf; [by eexists|].
  pose proof (find_None_elem_of _ _ Hf (r, g) Hin) as Hno. simpl in Hno.
  congruence.
Qed.

Lemma getGoal_updateGoalProgress_status (st : Store) (gid gid' : Z) (g : Goal.t) :
  getGoal gid' st = Some g →
  ∃ g', getGoal gid' (updateGoalProgress gid st) = Some g'
    ∧ (Goal.status g' = Goal.status g
       ∨ (gid' = gid ∧ completed_tasks st gid = total_tasks st gid)).
Proof.
  intros Hg. pose proof (getGoal_elem_of _ _ _ Hg) as [_ Hgid].
  unfold updateGoalProgress. rewrite listTasks_length.
  case_bool_decide as Hn; [by exists g; split; [|left]|].
  unfold progress_of. rewrite count_completed_spec, listTasks_length.
  rewrite Qle_bool_1_fraction by (done || apply completed_le_total).
  case_bool_decide as Hall.
  - rewrite getGoal_updateGoalStatus, getGoal_update by done.
    rewrite Hg. simpl. eexists. split; [done|].
    destruct (bool_decide (Goal.id g = gid)) eqn:Hb; simpl; rewrite ?Hb; simpl.
    + right. apply bool_decide_eq_true in Hb. split; [congruence|done].
    + by left.
  - rewrite getGoal_update by done. rewrite Hg. simpl.
    eexists. split; [done|]. left. by destruct (bool_decide _).
Qed.

Lemma completed_lt_total (st : Store) (gid : Z) (x : Task.t) :
  x ∈ tasks st → Task.goal_id x = gid → Task.status x ≠ TaskStatus.completed →
  completed_tasks st gid ≠ total_tasks st gid.
Proof.
  intros Hx Hg Hs Heq. unfold completed_tasks, total_tasks in Heq.
  rewrite <- List_filter_decide in Heq.
  apply filter_length_all with (x := x) in Heq.
  - by apply bool_decide_eq_true in Heq.
  - unfold owned_tasks. by apply list_elem_of_filter.
Qed.

Lemma getTask_updateGoalProgress (st : Store) (gid id : Z) :
  getTask id (updateGoalProgress gid st) = getTask id st.
Proof. unfold getTask. by rewrite tasks_updateGoalProgress. Qed.

(** X11: completing the last unmet dependency of a pending or queued task
    of an active goal makes that task eligible, so that getNextTask returns
    a task afterwards; the goal of the waiting task is not closed by the
    completion, also when both tasks belong to it. *)
Theorem completeTask_unblocks (st : Store) (d : Z) (output : string) (t : Task.t) :
  t ∈ tasks st → Task.id t ≠ d →
  is_Some (getTask d st) →
  (∃ g, getGoal (Task.goal_id t) st = Some g ∧ Goal.status g = GoalStatus.active) →
  (Task.status t = TaskStatus.pending ∨ Task.status t = TaskStatus.queued) →
  (Task.requires_approval t = false ∨ is_Some (Task.approved_at t)) →
  (∀ d', d' ∈ Task.depends_on t → d' ≠ d →
         ∃ dt, getTask d' st = Some dt ∧ Task.status dt = TaskStatus.completed) →
  let st' := completeTask d output st in
  t ∈ tasks st' ∧ Eligible st' t ∧ is_Some (getNextTask st').
Proof.
  intros Ht Hne [r Hr] (g & Hg & Hact) Hst Happ Hdeps st'.
  destruct (completeTask_unfold st d output r Hr) as [Hd' Heq].
  assert (t ∈ tasks st') as Hin.
  { unfold st'. rewrite tasks_completeTask. apply elem_of_sql_update.
    exists t. split; [done|]. by rewrite bool_decide_eq_false_2. }
  assert (Eligible st' t) as He.
  { split; [|split; [done|split; [|done]]].
    - unfold st'. rewrite Heq.
      assert (getGoal (Task.goal_id t) (completeTask_updated d output st) = Some g)
        as Hg1 by done.
      destruct (getGoal_updateGoalProgress_status _ (Task.goal_id r) _ _ Hg1)
        as (g' & Hg' & [Hs|[Hgid Hall]]).
      + exists g'. split; [done|congruence].
      + exfalso. revert Hall. apply (completed_lt_total _ _ t); [|done|].
        * rewrite <- (tasks_updateGoalProgress (Task.goal_id r)), <- Heq. done.
        * destruct Hst as [-> | ->]; done.
    - intros d' Hd. unfold st'. rewrite Heq, getTask_updateGoalProgress.
      destruct (decide (d' = d)) as [->|Hned].
      + rewrite Hd'. by eexists.
      + unfold completeTask_updated. rewrite getTask_logAudit.
        rewrite getTask_update_other by done. by apply Hdeps. }
  split; [done|]. split; [done|]. by apply (eligible_is_Some st' t).
Qed.

(** An instance: the second of two tasks depends on the first. *)
Lemma completeTask_unblocks_witness :
  ∃ t, getTask 2 (result_store
                    (addTask 1 "second" (mkAddTaskOptions None None None (Some [1]) None None)
                       (result_store (addTask 1 "first" noTaskOptions
                          (result_store (addGoal "G" noGoalOptions empty_store))))))
       = Some t
       ∧ is_Some (getNextTask
                    (completeTask 1 "done"
                       (result_store
                          (addTask 1 "second"
                             (mkAddTaskOptions None None None (Some [1]) None None)
                             (result_store (addTask 1 "first" noTaskOptions
                                (result_store (addGoal "G" noGoalOptions empty_store)))))))).
Proof.
  eexists. split; [vm_compute; reflexivity|].
  eapply (completeTask_unblocks _ 1 "done").
  - vm_compute. apply list_elem_of_further, list_elem_of_here.
  - simpl. lia.
  - by eexists.
  - eexists. split; [vm_compute; reflexivity|reflexivity].
  - by left.
  - by left.
  - simpl. intros d' Hd Hne. apply list_elem_of_singleton in Hd. done.
Defined.

Lemma gone_same_ids (id : Z) (st st' : Store) :
  gone id st → Task.id <$> tasks st' = Task.id <$> tasks st →
  tasks_seq st' = tasks_seq st → gone id st'.
Proof.
  intros [Hseq Hall] Hids Hs. split; [by rewrite Hs|].
  intros x Hx Hid.
  assert (Task.id x ∈ Task.id <$> tasks st') as Hin
    by (apply list_elem_of_fmap; by exists x).
  rewrite Hids in Hin. apply list_elem_of_fmap in Hin as (y & Hy & Hin).
  apply (Hall y Hin). congruence.
Qed.

Lemma gone_apply_op (id : Z) (op : Op) (st : Store) :
  gone id st → gone id (apply_op op st).
Proof.
  intros Hg.
  destruct op as [title o|gid s|gid|gid|gid title o|tid|tid out|tid e|tid
                 |c cat src tags|now]; simpl.
  - apply (gone_same_ids id st); [done| |]; unfold addGoal;
      repeat (case_match; simpl; try done).
  - by apply (gone_same_ids id st).
  - apply (gone_same_ids id st); [done| |].
    + by rewrite tasks_updateGoalProgress.
    + by destruct (keys_updateGoalProgress gid st) as (_ & _ & _ & ?).
  - unfold removeGoal. repeat (case_match; simpl; try done).
    destruct Hg as [Hseq Hall]. split; [done|]. simpl.
    intros x Hx. apply elem_of_sql_delete in Hx. by apply Hall.
  - unfold addTask. case_bool_decide; simpl; [|done].
    destruct Hg as [Hseq Hall]. split; [simpl; lia|]. simpl.
    intros x Hx. apply elem_of_app in Hx as [Hx|Hx]; [by apply Hall|].
    apply list_elem_of_singleton in Hx as ->. simpl. lia.
  - apply (gone_same_ids id st); [done| |done].
    unfold startTask. simpl. by apply sql_update_ids.
  - apply (gone_same_ids id st); [done| |].
    + rewrite tasks_completeTask. by apply sql_update_ids.
    + unfold completeTask.
      match goal with |- context [getTask tid ?s] => destruct (getTask tid s) end;
        [|done].
      by match goal with |- context [updateGoalProgress ?g ?s] =>
           destruct (keys_updateGoalProgress g s) as (_ & _ & _ & ->) end.
  - destruct (tasks_failTask_ids st tid e) as (? & ? & _).
    by apply (gone_same_ids id st).
  - apply (gone_same_ids id st); [done| |].
    + unfold approveTask. case_bool_decide; simpl; by apply sql_update_ids.
    + unfold approveTask. by case_bool_decide.
  - by apply (gone_same_ids id st).
  - by apply (gone_same_ids id st).
Qed.

Lemma gone_run_ops (id : Z) (ops : list Op) (st : Store) :
  gone id st → gone id (run_ops ops st).
Proof.
  revert st. induction ops as [|op ops IH]; intros st Hg; [done|].
  simpl. apply IH. by apply gone_apply_op.
Qed.

(** X12: task ids are never reused, so a dependency on an id that the
    table has already handed out and no longer holds (the task went with
    its goal in removeGoal) can never be met: whatever operations follow,
    getNextTask returns no task that depends on it, and no task gets that
    id again. *)
Theorem missing_dependency_blocks (st : Store) (d : Z) (ops : list Op) :
  d ≤ tasks_seq st → getTask d st = None →
  getTask d (run_ops ops st) = None
  ∧ ∀ t, getNextTask (run_ops ops st) = Some t → d ∉ Task.depends_on t.
Proof.
  intros Hseq Hnone.
  assert (gone d (run_ops ops st)) as [_ Hall].
  { apply gone_run_ops. split; [done|]. intros x Hx Hid.
    pose proof (find_None_elem_of _ _ Hnone x Hx) as Hno. simpl in Hno.
    by rewrite bool_decide_eq_true_2 in Hno. }
  assert (getTask d (run_ops ops st) = None) as Hn.
  { destruct (getTask d (run_ops ops st)) as [dt|] eqn:Hdt; [|done].
    apply getTask_elem_of in Hdt as [Hin Hid]. by destruct (Hall dt Hin). }
  split; [done|].
  intros t Hnext Hd.
  apply getNextTask_eligible in Hnext as (_ & _ & _ & Hdeps & _).
  destruct (Hdeps d Hd) as (dt & Hdt & _). congruence.
Qed.

(** An instance: task 2 of goal 2 depends on task 1 of goal 1, and goal 1
    is removed. *)
Lemma missing_dependency_blocks_witness :
  getNextTask
    (run_ops [OpAddTask 2 "later" noTaskOptions]
       (run_ops [OpAddGoal "A" noGoalOptions; OpAddGoal "B" noGoalOptions;
                 OpAddTask 1 "a" noTaskOptions;
                 OpAddTask 2 "b" (mkAddTaskOptions None None None (Some [1]) None None);
                 OpRemoveGoal 1] empty_store))
  = getTask 3
      (run_ops [OpAddTask 2 "later" noTaskOptions]
         (run_ops [OpAddGoal "A" noGoalOptions; OpAddGoal "B" noGoalOptions;
                   OpAddTask 1 "a" noTaskOptions;
                   OpAddTask 2 "b" (mkAddTaskOptions None None None (Some [1]) None None);
                   OpRemoveGoal 1] empty_store))
  ∧ getTask 1
      (run_ops [OpAddTask 2 "later" noTaskOptions]
         (run_ops [OpAddGoal "A" noGoalOptions; OpAddGoal "B" noGoalOptions;
                   OpAddTask 1 "a" noTaskOptions;
                   OpAddTask 2 "b" (mkAddTaskOptions None None None (Some [1]) None None);
                   OpRemoveGoal 1] empty_store)) = None.
Proof.
  split; [by vm_compute|].
  apply (missing_dependency_blocks _ 1 [OpAddTask 2 "later" noTaskOptions]).
  - vm_compute. by intros [=].
  - by vm_compute.
Defined.

(** ** Executing one task *)

Lemma memories_updateGoalProgress (gid : Z) (st : Store) :
  memories (updateGoalProgress gid st) = memories st.
Proof.
  unfold updateGoalProgress. case_bool_decide; [done|].
  by destruct (Qle_bool _ _).
Qed.

Lemma memories_completeTask (id : Z) (output : string) (st : Store) :
  memories (completeTask id output st) = memories st.
Proof.
  unfold completeTask.
  match goal with |- context [getTask id ?s] => destruct (getTask id s) end;
    [by rewrite memories_updateGoalProgress|done].
Qed.

Lemma memories_failTask (id : Z) (error : string) (st : Store) :
  memories (failTask id error st) = memories st.
Proof.
  unfold failTask. destruct (getTask id st); [|done]. by case_bool_decide.
Qed.

Lemma getTask_completeTask_other (st : Store) (id id' : Z) (output : string) :
  id' ≠ id → getTask id' (completeTask id output st) = getTask id' st.
Proof.
  intros Hne. unfold getTask. rewrite tasks_completeTask.
  change (find ?q (sql_update ?p ?f (tasks st)))
    with (getTask id' (with_tasks (sql_update p f (tasks st)) st)).
  by rewrite getTask_update_other.
Qed.

(** X13: execute settles the task it is given, whatever the reasoning
    service and the shell do: afterwards the task's row carries the start
    time and is completed with the returned output when execute reports
    success, and otherwise carries the returned message as its error and is
    pending with one more retry counted, or failed when the retry budget
    was already used up; it is never left running. No other task is
    touched, and a memory is saved exactly on success. *)
Theorem execute_settles {Env : Type}
    (executeWithSkill executeWithLLM :
       Task.t → Store → Env → TaskExecutor.Outcome * Env)
    (task : Task.t) (w : Store * Env) (r : Task.t) :
  getTask (Task.id task) w.1 = Some r →
  let out := TaskExecutor.execute executeWithSkill executeWithLLM task w in
  ∃ r', getTask (Task.id task) out.2.1 = Some r'
    ∧ Task.started_at r' = Some (clock w.1)
    ∧ (if out.1.1
       then Task.status r' = TaskStatus.completed
            ∧ Task.output r' = Some out.1.2
            ∧ Task.retry_count r' = Task.retry_count r
       else Task.error r' = Some out.1.2
            ∧ (if bool_decide (Task.retry_count r < Task.max_retries r)
               then Task.status r' = TaskStatus.pending
                    ∧ Task.retry_count r' = Task.retry_count r + 1
               else Task.status r' = TaskStatus.failed
                    ∧ Task.retry_count r' = Task.retry_count r))
    ∧ (∀ id', id' ≠ Task.id task → getTask id' out.2.1 = getTask id' w.1)
    ∧ length (memories out.2.1)
      = (length (memories w.1) + (if out.1.1 then 1 else 0))%nat.
Proof.
  intros Hr. destruct w as [st env]. simpl in Hr. simpl fst.
  set (id := Task.id task) in *.
  set (st1 := startTask id st).
  set (r1 := Task.set_started_at (Some (clock st))
               (Task.set_status TaskStatus.running r)).
  assert (getTask id st1 = Some r1) as Hr1.
  { unfold st1, startTask. rewrite getTask_logAudit.
    by rewrite (getTask_update_same st _ id r). }
  assert (∀ msg, ∃ r',
            getTask id (failTask id msg st1) = Some r'
            ∧ Task.started_at r' = Some (clock st)
            ∧ Task.error r' = Some msg
            ∧ (if bool_decide (Task.retry_count r < Task.max_retries r)
               then Task.status r' = TaskStatus.pending
                    ∧ Task.retry_count r' = Task.retry_count r + 1
               else Task.status r' = TaskStatus.failed
                    ∧ Task.retry_count r' = Task.retry_count r)) as Hfail.
  { intros msg. case_bool_decide as Hlt.
    - rewrite (failTask_retry st1 id msg r1 Hr1) by done.
      rewrite getTask_logAudit, (getTask_update_same st1 _ id r1) by done.
      by eexists.
    - rewrite (failTask_final st1 id msg r1 Hr1) by done.
      rewrite getTask_logAudit, (getTask_update_same st1 _ id r1) by done.
      by eexists. }
  assert (∀ msg id', id' ≠ id →
            getTask id' (failTask id msg st1) = getTask id' st) as Hother.
  { intros msg id' Hne. rewrite getTask_failTask_other by done.
    by apply getTask_startTask_other. }
  unfold TaskExecutor.execute. simpl fst. simpl snd. fold id. fold st1.
  destruct (if truthy (Task.skill task) then executeWithSkill task st1 env
            else executeWithLLM task st1 env) as [[[|] out|msg] env1]; simpl.
  - destruct (completeTask_unfold st1 id out r1 Hr1) as [Hc Heq].
    exists (completed_row (clock st1) out r1).
    split.
    { change (getTask id (completeTask id out st1) = Some (completed_row (clock st1) out r1)).
      by rewrite Heq, getTask_updateGoalProgress. }
    split; [done|]. split; [done|]. split.
    { intros id' Hne.
      change (getTask id' (completeTask id out st1) = getTask id' st).
      rewrite getTask_completeTask_other by done.
      by apply getTask_startTask_other. }
    rewrite length_app, memories_completeTask. simpl. done.
  - destruct (Hfail out) as (r' & ? & ? & ? & ?). exists r'.
    repeat split; try done; [by apply Hother|].
    rewrite memories_failTask. simpl. lia.
  - destruct (Hfail msg) as (r' & ? & ? & ? & ?). exists r'.
    repeat split; try done; [by apply Hother|].
    rewrite memories_failTask. simpl. lia.
Qed.

(** An instance: the first task of a goal, with a service that fails. *)
Lemma execute_settles_witness :
  ∃ r', getTask 1 (TaskExecutor.execute first_task_fails first_task_fails
                     (inserted_task 1 "first" noTaskOptions
                        (result_store (addGoal "G" noGoalOptions empty_store)))
                     (two_tasks_store, ())).2.1 = Some r'
        ∧ Task.status r' = TaskStatus.pending.
Proof.
  destruct (execute_settles first_task_fails first_task_fails
              (inserted_task 1 "first" noTaskOptions
                 (result_store (addGoal "G" noGoalOptions empty_store)))
              (two_tasks_store, ())
              (inserted_task 1 "first" noTaskOptions
                 (result_store (addGoal "G" noGoalOptions empty_store)))
              eq_refl) as (r' & Hr' & _ & Hs & _).
  exists r'. split; [exact Hr'|]. apply Hs.
Defined.

(** ** Shell commands of a response *)

Lemma append_nil (s : string) : "" +:+ s = s.
Proof. reflexivity. Qed.

Lemma append_cons (c : Ascii.ascii) (a s : string) :
  String c a +:+ s = String c (a +:+ s).
Proof. reflexivity. Qed.

Lemma strip_prefix_spec (pat s r : string) :
  TaskExecutor.strip_prefix pat s = Some r ↔ s = pat +:+ r.
Proof.
  revert s. induction pat as [|a pat IH]; intros s; simpl.
  - rewrite append_nil. split; [by intros [= ->]|by intros ->].
  - rewrite append_cons. destruct s as [|b s]; [done|].
    destruct (Ascii.eqb a b) eqn:Hab.
    + apply Ascii.eqb_eq in Hab as ->. rewrite IH.
      split; [by intros ->|by intros [= ->]].
    + apply Ascii.eqb_neq in Hab. split; [done|]. intros [= -> _]. done.
Qed.


Lemma cut_None (pat s : string) :
  TaskExecutor.cut pat s = None → ∀ a b, s ≠ a +:+ pat +:+ b.
Proof.
  induction s as [|c s IH]; simpl.
  - destruct (TaskExecutor.strip_prefix pat "") as [r|] eqn:Hp; [done|].
    intros _ a b Heq. destruct a as [|? ?]; [|done]. rewrite append_nil in Heq.
    apply strip_prefix_spec in Heq. congruence.
  - destruct (TaskExecutor.strip_prefix pat (String c s)) as [r|] eqn:Hp; [done|].
    destruct (TaskExecutor.cut pat s) as [[a' b']|] eqn:Hc; [done|].
    intros _ a b Heq. destruct a as [|c' a].
    + rewrite append_nil in Heq. apply strip_prefix_spec in Heq. congruence.
    + rewrite append_cons in Heq. injection Heq as -> Heq.
      by apply (IH eq_refl a b).
Qed.



Lemma elem_of_split_on_nil (sep : Ascii.ascii) (s : string) :
  TaskExecutor.split_on sep s ≠ [].
Proof.
  destruct s as [|c s]; simpl; [done|].
  destruct (Ascii.eqb c sep); [done|]. by destruct (TaskExecutor.split_on sep s).
Qed.


(** ** Counters of the daemon *)

Lemma processGoalQueue_fuel_counters (run : Task.t → string + string) (fuel : nat) :
  ∀ d d', DaemonService.processGoalQueue_fuel run fuel d = Some d' →
          queue_run d d'
          ∧ ((∀ task, ∃ result, run task = inl result) →
             DaemonService.tasksFailed (DaemonService.stats d')
             = DaemonService.tasksFailed (DaemonService.stats d)).
Proof.
  induction fuel as [|fuel IH]; intros d d' Hrun; [done|].
  rewrite processGoalQueue_fuel_step in Hrun.
  destruct (getNextTask (DaemonService.goalStore d)) as [task|] eqn:Hnext.
  - destruct (run task) as [result|error] eqn:Hres.
    + destruct (IH _ _ Hrun) as [(H1 & H2 & H3 & H4 & H5 & H6 & H7) H8].
      pose proof (waiting_after_success task result d Hnext) as Hlt.
      unfold after_success in H1, H2, H3, H4, H5, H6, H7, H8, Hlt.
      simpl in H1, H2, H3, H4, H5, H6, H7, H8, Hlt.
      rewrite length_app, memories_completeTask in H7. simpl in H7.
      split; [|done].
      unfold queue_run. simpl. repeat split; try done; try lia.
    + injection Hrun as <-. unfold after_failure. split.
      * unfold queue_run. simpl. rewrite memories_failTask. simpl.
        repeat split; try lia; try done; by right.
      * intros Hall. destruct (Hall task) as [? ?]. congruence.
  - injection Hrun as <-. split; [|done].
    unfold queue_run. repeat split; try lia; try done; by left.
Qed.

(** X15: one invocation of processGoalQueue ends, and counts every task
    it takes exactly once as processed and as either completed or failed;
    it completes at most as many tasks as were pending or queued, saves one
    memory per completed task, fails at most one task, and when it fails
    none the queue is empty afterwards; it leaves the trigger and heartbeat
    counters alone. With the executeTask of the source, which never throws,
    no task fails and the queue is always drained. *)
Theorem processGoalQueue_counters (run : Task.t → string + string)
    (d : DaemonService.t) :
  (∃ d', DaemonService.processGoalQueueWith run d = Some d' ∧ queue_run d d')
  ∧ (∃ d', DaemonService.processGoalQueue d = Some d' ∧ queue_run d d'
           ∧ DaemonService.tasksFailed (DaemonService.stats d')
             = DaemonService.tasksFailed (DaemonService.stats d)
           ∧ getNextTask (DaemonService.goalStore d') = None).
Proof.
  split.
  - destruct (processGoalQueue_fuel_enough run
                (S (DaemonService.waiting (DaemonService.goalStore d))) d
                (S (DaemonService.waiting (DaemonService.goalStore d))))
      as [[d' Hd'] _]; [lia|lia|].
    exists d'. split; [done|].
    by destruct (processGoalQueue_fuel_counters run _ d d' Hd').
  - destruct (processGoalQueue_fuel_enough (λ task, inl (DaemonService.executeTask task))
                (S (DaemonService.waiting (DaemonService.goalStore d))) d
                (S (DaemonService.waiting (DaemonService.goalStore d))))
      as [[d' Hd'] _]; [lia|lia|].
    exists d'. split; [done|].
    destruct (processGoalQueue_fuel_counters _ _ d d' Hd') as [Hq Hf].
    split; [done|].
    assert (DaemonService.tasksFailed (DaemonService.stats d')
            = DaemonService.tasksFailed (DaemonService.stats d)) as Hsame.
    { apply Hf. intros task. by eexists. }
    split; [done|].
    destruct Hq as (_ & _ & _ & Hdrained & _). apply Hdrained. lia.
Qed.

(** ** Decomposition: null values and the empty plan *)

Lemma existsb_is_null (items : list Json) :
  JNull ∈ items → existsb GoalDecomposer.is_null items = true.
Proof.
  intros Hin. apply existsb_exists. exists JNull.
  split; [by apply list_elem_of_In|done].
Qed.

Lemma createFrom_fallback (content message : string) (goal : Goal.t) (st : Store) :
  is_Some (getGoal (Goal.id goal) st) → tasks_bounded st →
  ∃ task st',
    GoalDecomposer.createFrom (GoalDecomposer.fallback content message) goal st
    = Ok [task] st'
    ∧ tasks st' = (tasks st ++ [task])%list
    ∧ goals st' = goals st
    ∧ task
      = Task.mk (tasks_seq st + 1) (Goal.id goal) "Execute goal manually"
          (Some ("LLM decomposition failed. Original response: "
                   +:+ slice0 200 content))
          TaskStatus.pending None (JObj []) None [] None None None 0 3 None
          true None (clock st).
Proof.
  intros Hg Hb. unfold GoalDecomposer.createFrom. simpl.
  set (options := mkAddTaskOptions _ _ _ _ _ _).
  destruct (addTask_ok (Goal.id goal) "Execute goal manually" options st Hg Hb)
    as (st1 & -> & Ht1 & Hg1 & _).
  by eexists _, _.
Qed.

(** X16: a response whose JSON is null, or whose tasks array has a null
    element, makes the conversion throw, so that decomposeAndCreate creates
    the single task Execute goal manually; that task requires approval, is
    on the approval list and is not what getNextTask returns. A response
    with an empty tasks array, whose reasoning and estimatedMinutes are
    absent, null or of the types the interface declares, is parsed to the
    plan without tasks; decomposeAndCreate then creates no task, leaves
    goals and tasks as they were and still saves the decomposition
    memory. *)
Theorem decomposeAndCreate_null_or_empty `{Builtins} (content : string)
    (goal : Goal.t) (st : Store) (parsed : Json) :
  JSON_parse (trim (GoalDecomposer.jsonStr content)) = inl parsed →
  is_Some (getGoal (Goal.id goal) st) →
  tasks_bounded st →
  ((parsed = JNull
    ∨ ∃ items, GoalDecomposer.prop parsed "tasks" = Some (JArr items)
               ∧ JNull ∈ items) →
   ∃ message task st',
     GoalDecomposer.parseResponse content
     = Some (GoalDecomposer.fallback content message)
     ∧ GoalDecomposer.decomposeAndCreate content goal st = Some (Ok [task] st')
     ∧ tasks st' = (tasks st ++ [task])%list
     ∧ Task.title task = "Execute goal manually"
     ∧ Task.requires_approval task = true
     ∧ task ∈ getPendingApprovals st'
     ∧ ∀ t, getNextTask st' = Some t → t ≠ task)
  ∧ (GoalDecomposer.prop parsed "tasks" = Some (JArr []) →
     ∀ r m,
       GoalDecomposer.field_or GoalDecomposer.as_string "No reasoning provided"
         parsed "reasoning" = Some r →
       GoalDecomposer.field_or GoalDecomposer.as_number 30
         parsed "estimatedMinutes" = Some m →
       GoalDecomposer.parseResponse content
       = Some (GoalDecomposer.mkDecompositionResult [] r m)
       ∧ ∃ st', GoalDecomposer.decomposeAndCreate content goal st
                = Some (Ok [] st')
                ∧ tasks st' = tasks st
                ∧ goals st' = goals st
                ∧ (∃ mem, memories st' = (memories st ++ [mem])%list
                          ∧ mem_id mem = memories_seq st + 1
                          ∧ mem_category mem = "learned"
                          ∧ mem_source mem = "agent"
                          ∧ mem_tags mem = ["goal"; "decomposition"; "planning"])
                ∧ ∃ ev, audit_events st' = (audit_events st ++ [ev])%list
                        ∧ event_type ev = "memory.save")
  ∧ (let r := @GoalDecomposer.decomposeAndCreate edge_builtins "empty"
                (goal_of 1 two_tasks_store) two_tasks_store in
     created_summary r = Some []
     ∧ ((λ x, mem_content <$> memories (result_store x)) <$> r)
       = Some ["Decomposed goal " +:+ dquote +:+ "G" +:+ dquote
                 +:+ " into 0 tasks. Strategy: No reasoning provided."
                 +:+ " Estimated: 30 minutes."])
  ∧ created_summary
      (@GoalDecomposer.decomposeAndCreate edge_builtins "nulls"
         (goal_of 1 two_tasks_store) two_tasks_store)
    = Some [(3, "Execute goal manually", [])].
Proof.
  intros Hparse Hg Hb. split; [|split; [|by vm_compute]].
  - intros Hnull.
    assert (∃ message, GoalDecomposer.try_parse content
                       = GoalDecomposer.Raised message) as [message Hraise].
    { unfold GoalDecomposer.try_parse. rewrite Hparse.
      destruct Hnull as [->|(items & Hitems & Hin)]; [by eexists|].
      destruct parsed; try done. rewrite Hitems.
      rewrite existsb_is_null by done. by eexists. }
    destruct (createFrom_fallback content message goal st Hg Hb)
      as (task & st' & Hc & Ht & _ & Htask).
    exists message, task, st'.
    assert (GoalDecomposer.parseResponse content
            = Some (GoalDecomposer.fallback content message)) as Hp.
    { unfold GoalDecomposer.parseResponse. by rewrite Hraise. }
    split; [done|]. split.
    { unfold GoalDecomposer.decomposeAndCreate. rewrite Hp. simpl.
      by rewrite Hc. }
    split; [done|]. split; [by rewrite Htask|]. split; [by rewrite Htask|].
    split.
    + apply getPendingApprovals_elem_of. split.
      * simpl. rewrite Ht. apply elem_of_app. right. apply list_elem_of_here.
      * by rewrite Htask.
    + intros t Hnext ->.
      apply getNextTask_eligible in Hnext as (_ & _ & _ & _ & Happ).
      rewrite Htask in Happ. simpl in Happ. destruct Happ as [?|[? ?]]; done.
  - intros Hempty r m Hr Hm. unfold GoalDecomposer.decomposeAndCreate,
      GoalDecomposer.parseResponse, GoalDecomposer.try_parse.
    rewrite Hparse. destruct parsed; try done. rewrite Hempty. simpl.
    rewrite Hr, Hm. simpl. split; [done|].
    eexists. split; [reflexivity|]. split; [done|]. split; [done|].
    split; eexists; by split.
Qed.

(** An instance: the test parser returns null for the text null. *)
Lemma decomposeAndCreate_null_or_empty_witness :
  ∃ task st',
    @GoalDecomposer.decomposeAndCreate
      {| JSON_parse s := if String.eqb s "null" then inl JNull
                         else inr "Unexpected token";
         match_fence _ := None;
         trim s := s |}
      "null" (goal_of 1 two_tasks_store) two_tasks_store
    = Some (Ok [task] st')
    ∧ Task.requires_approval task = true.
Proof.
  destruct (@decomposeAndCreate_null_or_empty
              {| JSON_parse s := if String.eqb s "null" then inl JNull
                                 else inr "Unexpected token";
                 match_fence _ := None;
                 trim s := s |}
              "null" (goal_of 1 two_tasks_store) two_tasks_store JNull
              eq_refl ltac:(by eexists)
              (tasks_bounded_computed two_tasks_store eq_refl))
    as [Hnull _].
  destruct (Hnull (or_introl eq_refl))
    as (message & task & st' & _ & Hc & _ & _ & Hreq & _).
  exists task, st'. split; [exact Hc|exact Hreq].
Defined.

(** ** Memories *)

Lemma sql_delete_none {R : Type} (p : R → bool) (rows : list R) :
  sql_changes p rows = 0%nat → sql_delete p rows = rows.
Proof.
  unfold sql_changes, sql_delete. induction rows as [|x rows IH]; simpl; [done|].
  destruct (p x); simpl; [done|]. intros Hlen. by rewrite IH.
Qed.

Lemma find_sql_delete_same {R : Type} (p : R → bool) (rows : list R) :
  find p (sql_delete p rows) = None.
Proof.
  unfold sql_delete. induction rows as [|x rows IH]; simpl; [done|].
  destruct (p x) eqn:Hp; simpl; [done|]. by rewrite Hp.
Qed.

Lemma sql_delete_snoc_fresh {R : Type} (p : R → bool) (rows : list R) (x : R) :
  (∀ y, y ∈ rows → p y = false) → p x = true →
  sql_delete p (rows ++ [x]) = rows.
Proof.
  intros Hrows Hx. unfold sql_delete. rewrite List.filter_app. simpl.
  rewrite Hx. simpl. rewrite app_nil_r.
  induction rows as [|y rows IH]; simpl; [done|].
  rewrite (Hrows y) by by left. simpl. f_equal. apply IH.
  intros z Hz. apply Hrows. by right.
Qed.

Lemma memories_forget (id : Z) (st : Store) :
  memories (MemoryStore.forget id st).2
  = sql_delete (λ m, bool_decide (mem_id m = id)) (memories st).
Proof.
  unfold MemoryStore.forget. set (p := λ m, bool_decide (mem_id m = id)).
  by destruct (bool_decide _).
Qed.

(** X17: forget reports true exactly when a memory with the id exists;
    afterwards no memory has the id, the other memories, the goals and the
    tasks are as before, and an audit row memory.forget is appended when,
    and only when, a memory was deleted: forgetting an unknown id changes
    nothing at all, so a second forget of the same id is a no-op. A memory
    that was just saved (with a category and a source that the table
    accepts) is found under the next id of the table, and forgetting it
    gives the memories of before back. *)
Theorem forget_memory (id : Z) (st : Store) :
  ((MemoryStore.forget id st).1 = true ↔ is_Some (MemoryStore.getMemory id st))
  ∧ MemoryStore.getMemory id (MemoryStore.forget id st).2 = None
  ∧ (∀ id', id' ≠ id →
       MemoryStore.getMemory id' (MemoryStore.forget id st).2
       = MemoryStore.getMemory id' st)
  ∧ goals (MemoryStore.forget id st).2 = goals st
  ∧ tasks (MemoryStore.forget id st).2 = tasks st
  ∧ (if (MemoryStore.forget id st).1
     then ∃ ev, audit_events (MemoryStore.forget id st).2
                = (audit_events st ++ [ev])%list
                ∧ event_type ev = "memory.forget" ∧ entity_id ev = id
     else (MemoryStore.forget id st).2 = st)
  ∧ MemoryStore.forget id (MemoryStore.forget id st).2
    = (false, (MemoryStore.forget id st).2)
  ∧ (∀ content category source tags,
       category ∈ ["project"; "preference"; "fact"; "learned"; "general"] →
       source ∈ ["user"; "agent"; "auto"] →
       (∀ m, m ∈ memories st → mem_id m ≤ memories_seq st) →
       let st1 := MemoryStore.save content category source tags st in
       MemoryStore.getMemory (memories_seq st + 1) st1
       = Some (mkMemory (memories_seq st + 1) content category source tags
                 (clock st))
       ∧ memories (MemoryStore.forget (memories_seq st + 1) st1).2 = memories st
       ∧ (MemoryStore.forget (memories_seq st + 1) st1).1 = true).
Proof.
  set (p := λ m, bool_decide (mem_id m = id)).
  assert ((MemoryStore.forget id st).1
          = bool_decide (0 < sql_changes p (memories st))%nat) as Hb.
  { unfold MemoryStore.forget. fold p. by destruct (bool_decide _). }
  assert (memories (MemoryStore.forget id st).2 = sql_delete p (memories st)) as Hm.
  { unfold MemoryStore.forget. by destruct (bool_decide _). }
  assert (∀ st0, sql_changes p (memories st0) = 0%nat →
                 MemoryStore.forget id st0 = (false, st0)) as Hnoop.
  { intros st0 H0. unfold MemoryStore.forget. fold p. rewrite H0.
    rewrite bool_decide_eq_false_2 by lia.
    rewrite sql_delete_none by done. by destruct st0. }
  split; [|split; [|split; [|split; [|split; [|split; [|split]]]]]].
  - rewrite Hb, bool_decide_eq_true, sql_changes_pos. split.
    + intros (x & Hx & Hp). unfold MemoryStore.getMemory. fold p.
      destruct (find p (memories st)) eqn:Hf; [by eexists|].
      pose proof (find_None_elem_of _ _ Hf x Hx). congruence.
    + intros [m Hmem]. apply find_Some_elem_of in Hmem as [? ?]. by exists m.
  - unfold MemoryStore.getMemory. rewrite Hm. apply find_sql_delete_same.
  - intros id' Hne. unfold MemoryStore.getMemory. rewrite Hm.
    apply find_sql_delete. intros x Hx. apply bool_decide_eq_true in Hx.
    apply bool_decide_eq_false. congruence.
  - unfold MemoryStore.forget. by destruct (bool_decide _).
  - unfold MemoryStore.forget. by destruct (bool_decide _).
  - destruct (MemoryStore.forget id st).1 eqn:Hfst.
    + unfold MemoryStore.forget in *. fold p in Hfst |- *.
      destruct (bool_decide (0 < sql_changes p (memories st))%nat); [|done].
      simpl. by eexists.
    + symmetry in Hb. apply bool_decide_eq_false in Hb.
      rewrite Hnoop by lia. done.
  - apply Hnoop. rewrite Hm.
    destruct (decide (0 < sql_changes p (sql_delete p (memories st)))%nat)
      as [Hpos|]; [|lia].
    apply sql_changes_pos in Hpos as (x & Hx & Hp).
    unfold sql_delete in Hx. apply filter_elem_of in Hx as [_ Hn].
    rewrite Hp in Hn. done.
  - intros content category source tags _ _ Hbound st1.
    assert (∀ y, y ∈ memories st →
                 bool_decide (mem_id y = memories_seq st + 1) = false) as Hfresh.
    { intros y Hy. apply bool_decide_eq_false. specialize (Hbound y Hy). lia. }
    assert (memories st1
            = (memories st ++ [mkMemory (memories_seq st + 1) content category
                                 source tags (clock st)])%list) as Hst1 by done.
    split; [|split].
    + unfold MemoryStore.getMemory. rewrite Hst1.
      rewrite find_app_None.
      * simpl. by rewrite bool_decide_eq_true_2.
      * destruct (find _ (memories st)) as [y|] eqn:Hf; [|done].
        apply find_Some_elem_of in Hf as [Hy Hp]. rewrite Hfresh in Hp; done.
    + rewrite memories_forget, Hst1. apply sql_delete_snoc_fresh; [done|].
      simpl. by rewrite bool_decide_eq_true_2.
    + unfold MemoryStore.forget. rewrite bool_decide_eq_true_2; [done|].
      apply sql_changes_pos. eexists. split.
      * rewrite Hst1. apply elem_of_app. right. apply list_elem_of_here.
      * simpl. by rewrite bool_decide_eq_true_2.
Qed.

(** ** Row order *)

Lemma StronglySorted_map_id (h : Task.t → Task.t) (l : list Task.t) :
  (∀ x, Task.id (h x) = Task.id x) →
  StronglySorted id_lt l → StronglySorted id_lt (map h l).
Proof.
  intros Hid. induction 1 as [|x l Hl IH Hx]; simpl; constructor; [done|].
  apply Forall_forall. intros y Hy. apply list_elem_of_fmap in Hy as (z & -> & Hz).
  rewrite Forall_forall in Hx. unfold id_lt. rewrite !Hid. by apply Hx.
Qed.

Lemma StronglySorted_List_filter {A : Type} (R : relation A) (p : A → bool)
    (l : list A) :
  StronglySorted R l → StronglySorted R (List.filter p l).
Proof.
  induction 1 as [|x l Hl IH Hx]; simpl; [constructor|].
  destruct (p x); [|done]. constructor; [done|].
  apply Forall_forall. intros y Hy. apply filter_elem_of in Hy as [Hy _].
  rewrite Forall_forall in Hx. by apply Hx.
Qed.

Lemma StronglySorted_snoc_id (l : list Task.t) (x : Task.t) :
  StronglySorted id_lt l → (∀ y, y ∈ l → Task.id y < Task.id x) →
  StronglySorted id_lt (l ++ [x]).
Proof.
  intros Hl Hx. apply StronglySorted_app_2; [|done|repeat constructor].
  intros y z Hy Hz. apply list_elem_of_singleton in Hz as ->. by apply Hx.
Qed.

Lemma tasks_sorted_update (st : Store) (p : Task.t → bool) (f : Task.t → Task.t) :
  (∀ x, Task.id (f x) = Task.id x) →
  tasks_sorted st → ∀ st',
    tasks st' = sql_update p f (tasks st) → tasks_seq st' = tasks_seq st →
    tasks_sorted st'.
Proof.
  intros Hid [Hs Hb] st' Ht Hseq. split.
  - rewrite Ht. apply StronglySorted_map_id; [|done].
    intros x. by destruct (p x).
  - intros y Hy. rewrite Ht in Hy. apply elem_of_sql_update in Hy as (x & Hx & ->).
    rewrite Hseq. specialize (Hb x Hx). by destruct (p x); rewrite ?Hid.
Qed.

Lemma tasks_sorted_same (st st' : Store) :
  tasks_sorted st → tasks st' = tasks st → tasks_seq st' = tasks_seq st →
  tasks_sorted st'.
Proof. intros [Hs Hb] Ht Hseq. unfold tasks_sorted, tasks_bounded. by rewrite Ht, Hseq. Qed.

Lemma tasks_sorted_apply_op (op : Op) (st : Store) :
  tasks_sorted st → tasks_sorted (apply_op op st).
Proof.
  intros Hs.
  destruct op as [title o|gid s|gid|gid|gid title o|tid|tid out|tid e|tid
                 |c cat src tags|now]; simpl.
  - apply (tasks_sorted_same st); [done| |]; unfold addGoal;
      repeat (case_match; simpl; try done).
  - by apply (tasks_sorted_same st).
  - apply (tasks_sorted_same st); [done|apply tasks_updateGoalProgress|].
    by destruct (keys_updateGoalProgress gid st) as (_ & _ & _ & ?).
  - unfold removeGoal. repeat (case_match; simpl; try done).
    destruct Hs as [Hs Hb]. split; simpl.
    + by apply StronglySorted_List_filter.
    + intros x Hx. simpl in Hx. apply elem_of_sql_delete in Hx. by apply Hb.
  - unfold addTask. case_bool_decide; simpl; [|done].
    destruct Hs as [Hs Hb]. split; simpl.
    + apply StronglySorted_snoc_id; [done|]. intros y Hy. simpl.
      specialize (Hb y Hy). lia.
    + intros x Hx. simpl in Hx. simpl.
      apply elem_of_app in Hx as [Hx|Hx]; [specialize (Hb x Hx); lia|].
      apply list_elem_of_singleton in Hx as ->. simpl. lia.
  - unfold startTask.
    eapply (tasks_sorted_update st); [|done|simpl; reflexivity|done]. done.
  - eapply (tasks_sorted_update st); [|done|apply tasks_completeTask|]; [done|].
    unfold completeTask.
    match goal with |- context [getTask tid ?s] => destruct (getTask tid s) end;
      [|done].
    by match goal with |- context [updateGoalProgress ?g ?s] =>
         destruct (keys_updateGoalProgress g s) as (_ & _ & _ & ->) end.
  - unfold failTask. destruct (getTask tid st) as [task|]; [|done].
    case_bool_decide;
      (eapply (tasks_sorted_update st); [|done|simpl; reflexivity|done]); done.
  - unfold approveTask. case_bool_decide; simpl;
      (eapply (tasks_sorted_update st); [|done|simpl; reflexivity|done]); done.
  - by apply (tasks_sorted_same st).
  - by apply (tasks_sorted_same st).
Qed.

Lemma tasks_sorted_run_ops (ops : list Op) (st : Store) :
  tasks_sorted st → tasks_sorted (run_ops ops st).
Proof.
  revert st. induction ops as [|op ops IH]; intros st Hs; [done|].
  simpl. apply IH. by apply tasks_sorted_apply_op.
Qed.

Lemma id_lt_unique (l : list Task.t) (x y : Task.t) :
  StronglySorted id_lt l → x ∈ l → y ∈ l → Task.id x = Task.id y → x = y.
Proof.
  induction 1 as [|z l Hl IH Hz]; intros Hx Hy Hid; [by apply elem_of_nil in Hx|].
  rewrite Forall_forall in Hz. unfold id_lt in Hz.
  apply elem_of_cons in Hx as [->|Hx], Hy as [->|Hy]; [done| | |by apply IH].
  - specialize (Hz y Hy). lia.
  - specialize (Hz x Hx). lia.
Qed.

(** X18: the store only appends to the tasks table and gives each new row
    the next id, so in a database that was only written through its
    operations the rows are in strictly ascending id order: listTasks
    returns the tasks of a goal in ascending id order, as its query asks,
    and the approval list is the table order of the tasks awaiting
    approval. *)
Theorem tasks_in_id_order (ops : list Op) :
  let st := run_ops ops empty_store in
  StronglySorted (λ a b, Task.id a < Task.id b) (tasks st)
  ∧ (∀ gid, StronglySorted (λ a b, Task.id a < Task.id b) (listTasks gid st))
  ∧ getPendingApprovals st = List.filter awaits_approval (tasks st).
Proof.
  intros st.
  assert (tasks_sorted st) as [Hs _].
  { apply tasks_sorted_run_ops. split; [constructor|].
    intros x Hx. by apply elem_of_nil in Hx. }
  split; [done|]. split.
  - intros gid. by apply (StronglySorted_List_filter id_lt).
  - unfold getPendingApprovals.
    apply (StronglySorted_unique_strong by_id).
    + intros x1 x2 Hx1 Hx2 H12 H21. unfold by_id in *.
      rewrite merge_sort_Permutation in Hx1.
      apply filter_elem_of in Hx1 as [Hx1 _].
      apply filter_elem_of in Hx2 as [Hx2 _].
      apply (id_lt_unique (tasks st)); [done..|lia].
    + apply (StronglySorted_merge_sort by_id).
    + assert (StronglySorted id_lt (List.filter awaits_approval (tasks st))) as Hf
        by by apply StronglySorted_List_filter.
      clear -Hf. induction Hf as [|x l Hl IH Hx]; constructor; [done|].
      eapply Forall_impl; [done|]. unfold id_lt, by_id. intros; simpl in *; lia.
    + apply merge_sort_Permutation.
Qed.

(** ** Uptime *)

(** X19: getUptime prints the whole seconds since the start as days, hours,
    minutes and seconds: the four numbers are in their ranges and add up to
    the elapsed seconds, a unit other than seconds is printed only when its
    number is positive, and seconds are always printed. Before the start
    the text is 0s. *)
Theorem getUptime_decomposition (started now : Z) :
  started ≤ now →
  ∃ d h m s,
    0 ≤ d ∧ 0 ≤ h < 24 ∧ 0 ≤ m < 60 ∧ 0 ≤ s < 60
    ∧ (now - started) / 1000 = ((d * 24 + h) * 60 + m) * 60 + s
    ∧ DaemonService.getUptime (Some started) now
      = String.concat " "
          ((if bool_decide (0 < d) then [pretty d +:+ "d"] else [])
           ++ (if bool_decide (0 < h) then [pretty h +:+ "h"] else [])
           ++ (if bool_decide (0 < m) then [pretty m +:+ "m"] else [])
           ++ [pretty s +:+ "s"])%list
    ∧ DaemonService.getUptime None now = "0s"
    ∧ (now - started < 60000 →
       DaemonService.getUptime (Some started) now = pretty s +:+ "s").
Proof.
  intros Hle. set (ms := now - started). assert (0 ≤ ms) as Hms by (unfold ms; lia).
  exists (ms / 86400000), (Z.rem (ms / 3600000) 24), (Z.rem (ms / 60000) 60),
         (Z.rem (ms / 1000) 60).
  assert (0 ≤ ms / 3600000) as H1 by (apply Z.div_pos; lia).
  assert (0 ≤ ms / 60000) as H2 by (apply Z.div_pos; lia).
  assert (0 ≤ ms / 1000) as H3 by (apply Z.div_pos; lia).
  rewrite !Z.rem_mod_nonneg by lia.
  split; [apply Z.div_pos; lia|].
  split; [apply Z.mod_pos_bound; lia|].
  split; [apply Z.mod_pos_bound; lia|].
  split; [apply Z.mod_pos_bound; lia|].
  split.
  { replace (ms / 60000) with (ms / 1000 / 60) by (rewrite Z.div_div by lia; reflexivity).
    replace (ms / 3600000) with (ms / 1000 / 60 / 60)
      by (rewrite !Z.div_div by lia; reflexivity).
    replace (ms / 86400000) with (ms / 1000 / 60 / 60 / 24)
      by (rewrite !Z.div_div by lia; reflexivity).
    generalize (ms / 1000). intros q.
    pose proof (Z.div_mod q 60). pose proof (Z.div_mod (q / 60) 60).
    pose proof (Z.div_mod (q / 60 / 60) 24). lia. }
  split.
  { unfold DaemonService.getUptime. fold ms. by rewrite !Z.rem_mod_nonneg by lia. }
  split; [done|].
  intros Hshort. unfold DaemonService.getUptime. fold ms.
  rewrite !Z.rem_mod_nonneg by lia.
  assert (ms / 86400000 = 0) as -> by (apply Z.div_small; lia).
  assert (ms / 3600000 = 0) as -> by (apply Z.div_small; lia).
  assert (ms / 60000 = 0) as -> by (apply Z.div_small; lia).
  done.
Qed.

(** An instance: one day, one hour, one minute and one second. *)
Lemma getUptime_decomposition_witness :
  DaemonService.getUptime (Some 1000) 90062000 = "1d 1h 1m 1s"
  ∧ DaemonService.getUptime None 90062000 = "0s".
Proof.
  split; [by vm_compute|].
  destruct (getUptime_decomposition 1000 90062000 ltac:(lia))
    as (d & h & m & s & _ & _ & _ & _ & _ & _ & Hnone & _).
  exact Hnone.
Defined.

(** ** Goals that are not active *)

Lemma inactive_same_goals (gid : Z) (st st' : Store) :
  inactive gid st → goals st' = goals st → goals_seq st' = goals_seq st →
  inactive gid st'.
Proof. intros [Hseq Hall] Hg Hs. unfold inactive. by rewrite Hg, Hs. Qed.

Lemma inactive_updateGoalStatus (gid id : Z) (s : GoalStatus.t) (st : Store) :
  (id = gid → s ≠ GoalStatus.active) →
  inactive gid st → inactive gid (updateGoalStatus id s st).
Proof.
  intros Hs [Hseq Hall]. split; [done|]. simpl.
  intros g Hg Hid. apply elem_of_sql_update in Hg as (x & Hx & ->).
  case_bool_decide as Hb; simpl in *; [apply Hs; congruence|by apply Hall].
Qed.

Lemma inactive_updateGoalProgress (gid id : Z) (st : Store) :
  inactive gid st → inactive gid (updateGoalProgress id st).
Proof.
  intros Hin. unfold updateGoalProgress. case_bool_decide; [done|].
  set (st1 := with_goals _ st).
  assert (inactive gid st1) as Hin1.
  { destruct Hin as [Hseq Hall]. split; [done|]. simpl.
    intros g Hg Hid. apply elem_of_sql_update in Hg as (x & Hx & ->).
    case_bool_decide; simpl in *; by apply Hall. }
  destruct (Qle_bool _ _); [|done].
  by apply inactive_updateGoalStatus.
Qed.

Lemma inactive_apply_op (gid : Z) (op : Op) (st : Store) :
  not_resume gid op → inactive gid st → inactive gid (apply_op op st).
Proof.
  intros Hop Hin.
  destruct op as [title o|id s|id|id|id title o|tid|tid out|tid e|tid
                 |c cat src tags|now]; simpl.
  - unfold addGoal.
    destruct (negb (bool_decide (1 ≤ default 5 (go_priority o) ≤ 10))); [done|].
    destruct (negb _); [done|]. simpl.
    destruct Hin as [Hseq Hall]. split; [simpl; lia|]. simpl.
    intros g Hg Hid. apply elem_of_app in Hg as [Hg|Hg]; [by apply Hall|].
    apply list_elem_of_singleton in Hg as ->. simpl in Hid. lia.
  - by apply inactive_updateGoalStatus.
  - by apply inactive_updateGoalProgress.
  - unfold removeGoal. repeat (case_match; simpl; try done).
    destruct Hin as [Hseq Hall]. split; [done|]. simpl.
    intros g Hg. apply elem_of_sql_delete in Hg. by apply Hall.
  - unfold addTask. case_bool_decide; simpl; [|done].
    by apply (inactive_same_goals gid st).
  - by apply (inactive_same_goals gid st).
  - unfold completeTask.
    match goal with |- context [getTask tid ?s] => destruct (getTask tid s) end.
    + apply inactive_updateGoalProgress. by apply (inactive_same_goals gid st).
    + by apply (inactive_same_goals gid st).
  - unfold failTask. destruct (getTask tid st); [|done].
    case_bool_decide; by apply (inactive_same_goals gid st).
  - unfold approveTask. case_bool_decide; by apply (inactive_same_goals gid st).
  - by apply (inactive_same_goals gid st).
  - by apply (inactive_same_goals gid st).
Qed.

Lemma inactive_run_ops (gid : Z) (ops : list Op) (st : Store) :
  Forall (not_resume gid) ops → inactive gid st → inactive gid (run_ops ops st).
Proof.
  revert st. induction ops as [|op ops IH]; intros st Hops Hin; [done|].
  apply Forall_cons in Hops as [Hop Hops].
  simpl. apply IH; [done|]. by apply inactive_apply_op.
Qed.

(** X20: a goal that is paused, cancelled, failed or completed stays out
    of scheduling until updateGoalStatus sets it to active: whatever other
    operations follow (tasks added to it, approved, completed or failed,
    progress recomputed, other goals added or removed), getNextTask returns
    none of its tasks and its status is never active. In particular a task
    added to a goal that has completed is not run. *)
Theorem inactive_goal_not_scheduled (st : Store) (gid : Z) (ops : list Op) :
  gid ≤ goals_seq st →
  (∀ g, g ∈ goals st → Goal.id g = gid → Goal.status g ≠ GoalStatus.active) →
  Forall (not_resume gid) ops →
  (∀ g, getGoal gid (run_ops ops st) = Some g →
        Goal.status g ≠ GoalStatus.active)
  ∧ ∀ t, getNextTask (run_ops ops st) = Some t → Task.goal_id t ≠ gid.
Proof.
  intros Hseq Hall Hops.
  destruct (inactive_run_ops gid ops st Hops (conj Hseq Hall)) as [_ Hall'].
  assert (∀ g, getGoal gid (run_ops ops st) = Some g →
               Goal.status g ≠ GoalStatus.active) as Hg.
  { intros g Hg. apply getGoal_elem_of in Hg as [Hin Hid]. by apply Hall'. }
  split; [done|].
  intros t Hnext Hgid.
  apply getNextTask_eligible in Hnext as (_ & (g & Hgoal & Hact) & _).
  rewrite Hgid in Hgoal. by apply (Hg g).
Qed.

(** An instance: the only goal completes with its two tasks, and a third
    task is added to it. *)
Lemma inactive_goal_not_scheduled_witness :
  getNextTask
    (run_ops [OpAddTask 1 "third" noTaskOptions]
       (run_ops [OpCompleteTask 1 "a"; OpCompleteTask 2 "b"] two_tasks_store))
  = None
  ∧ is_Some (getTask 3
       (run_ops [OpAddTask 1 "third" noTaskOptions]
          (run_ops [OpCompleteTask 1 "a"; OpCompleteTask 2 "b"] two_tasks_store))).
Proof.
  split; [|by vm_compute; eexists].
  destruct (getNextTask
              (run_ops [OpAddTask 1 "third" noTaskOptions]
                 (run_ops [OpCompleteTask 1 "a"; OpCompleteTask 2 "b"]
                    two_tasks_store))) as [t|] eqn:Hnext; [|reflexivity].
  exfalso.
  destruct (inactive_goal_not_scheduled
              (run_ops [OpCompleteTask 1 "a"; OpCompleteTask 2 "b"] two_tasks_store)
              1 [OpAddTask 1 "third" noTaskOptions]) as [_ Hno].
  - vm_compute. by intros [=].
  - intros g Hg Hid. vm_compute in Hg.
    apply list_elem_of_singleton in Hg as ->. done.
  - by repeat constructor.
  - apply getNextTask_eligible in Hnext as Hel. destruct Hel as [Hin _].
    apply (Hno t Hnext). vm_compute in Hin.
    repeat (apply elem_of_cons in Hin as [->|Hin]; [reflexivity|]).
    by apply elem_of_nil in Hin.
Defined.
